(** * MFFNet run controller ([main.py]): shallow embedding and properties

    The repository's single source file is a training/evaluation script.
    Its function [main] and its [__main__] block are embedded below as
    Rocq functions in a writer-plus-exception monad: every call of an
    external collaborator (dataset builder, model constructor, optimizer
    factory, training and evaluation steps, checkpoint store, logger)
    is recorded as an event, and every Python exception that the script
    itself can raise ([NameError], [UnboundLocalError], [AttributeError],
    ...) is an explicit error result. *)

From Stdlib Require Import ZArith List String Ascii Floats Reals Lra Lia.
From stdpp Require Import gmap strings.
Import ListNotations.

#[local] Open Scope string_scope.
#[local] Open Scope Z_scope.

(** ** Python values used by the script *)

(** A Python [float] is a binary64 value; comparisons are the IEEE ones. *)
Abbreviation pyfloat := PrimFloat.float.

Definition flt (a b : pyfloat) : bool := PrimFloat.ltb a b.
Definition fle (a b : pyfloat) : bool := PrimFloat.leb a b.

(** [s.split(sep)] for a one-character separator. *)
Fixpoint py_split (sep : ascii) (s : string) : list string :=
  match s with
  | EmptyString => [EmptyString]
  | String c s' =>
      if Ascii.eqb c sep then EmptyString :: py_split sep s'
      else match py_split sep s' with
           | w :: ws => String c w :: ws
           | [] => [String c EmptyString]
           end
  end.

(** Truth value of a [str]: the empty string is falsy. *)
Definition str_truthy (s : string) : bool :=
  match s with EmptyString => false | _ => true end.

Definition starts_with_sep (s : string) : bool :=
  match s with String c _ => Ascii.eqb c "/" | EmptyString => false end.

Fixpoint ends_with_sep (s : string) : bool :=
  match s with
  | EmptyString => false
  | String c EmptyString => Ascii.eqb c "/"
  | String _ s' => ends_with_sep s'
  end.

(** [os.path.join(a, b)] on POSIX. *)
Definition os_path_join (a b : string) : string :=
  if starts_with_sep b then b
  else if negb (str_truthy a) || ends_with_sep a then a +:+ b
  else a +:+ "/" +:+ b.

(** Python exceptions the script can end with. [External] stands for any
    exception propagated out of a collaborator. *)
Inductive exn :=
| AssertionError
| NameError (name : string)
| UnboundLocalError (name : string)
| AttributeError (attr : string)
| KeyError (key : string)
| TypeError (what : string)
| ZeroDivisionError
| IncompatibleCheckpoint (key : string)
| External (who : string).

(** Tensors are known by their shape and their contents. *)
Record tensor := { shape : list Z; data : list pyfloat }.

(** What [torch.load] can put under a key of a checkpoint artifact. *)
#[warnings="-register-all"]
Inductive entry :=
| ENone
| ETensor (t : tensor)
| ETable (d : gmap string entry)
| EOther.

(** A [state_dict]: parameter name to tensor. *)
Abbreviation state_dict := (gmap string tensor).

(** Ordered Python dicts ([train_stats], [test_stats], [log_stats]) as
    association lists; [dict_set] keeps the position of an existing key. *)
Definition pydict (V : Type) := list (string * V).

Fixpoint dict_get {V} (k : string) (d : pydict V) : option V :=
  match d with
  | [] => None
  | (k', v) :: d' => if String.eqb k k' then Some v else dict_get k d'
  end.

Fixpoint dict_set {V} (k : string) (v : V) (d : pydict V) : pydict V :=
  match d with
  | [] => [(k, v)]
  | (k', v') :: d' =>
      if String.eqb k k' then (k, v) :: d' else (k', v') :: dict_set k v d'
  end.

(** [{**d, **items}] / [d.update(items)]. *)
Definition dict_update {V} (d items : pydict V) : pydict V :=
  fold_left (fun acc kv => dict_set (fst kv) (snd kv) acc) items d.

Definition stats := pydict pyfloat.

(** Values of a [log_stats] entry: metrics are floats, [epoch] and
    [n_parameters] are ints. *)
Inductive jval := JFloat (f : pyfloat) | JInt (z : Z).

Definition prefixed (pre suf : string) (s : stats) : pydict jval :=
  map (fun kv => (pre +:+ fst kv +:+ suf, JFloat (snd kv))) s.

(** ** The run configuration ([args]) *)

(** The attributes of [args] that [main.py] itself reads or writes.
    Hyper-parameters that are only handed on to a collaborator
    ([drop_path], [clip_grad], [use_amp], ...) are left out. *)
Record Args := mkArgs {
  eval : bool;
  output_dir : string;
  dataset : string;
  tag : string;
  nb_classes : Z;
  disable_eval : bool;
  dist_eval : bool;
  log_dir : option string;
  enable_wandb : bool;
  wandb_ckpt : bool;
  batch_size : Z;
  update_freq : Z;
  model : string;
  finetune : string;
  model_key : string;
  model_prefix : string;
  model_ema : bool;
  model_ema_eval : bool;
  layer_decay : pyfloat;
  lr : pyfloat;
  min_lr : pyfloat;
  epochs : Z;
  start_epoch : Z;
  warmup_epochs : Z;
  warmup_steps : Z;
  weight_decay : pyfloat;
  weight_decay_end : option pyfloat;
  smoothing : pyfloat;
  save_ckpt : bool;
  save_ckpt_freq : Z
}.

(** Attribute assignments made by the script. *)
Definition set_output_dir (v : string) (a : Args) : Args :=
  mkArgs (eval a) v (dataset a) (tag a) (nb_classes a) (disable_eval a)
    (dist_eval a) (log_dir a) (enable_wandb a) (wandb_ckpt a) (batch_size a)
    (update_freq a) (model a) (finetune a) (model_key a) (model_prefix a)
    (model_ema a) (model_ema_eval a) (layer_decay a) (lr a) (min_lr a)
    (epochs a) (start_epoch a) (warmup_epochs a) (warmup_steps a)
    (weight_decay a) (weight_decay_end a) (smoothing a) (save_ckpt a)
    (save_ckpt_freq a).

Definition set_nb_classes (v : Z) (a : Args) : Args :=
  mkArgs (eval a) (output_dir a) (dataset a) (tag a) v (disable_eval a)
    (dist_eval a) (log_dir a) (enable_wandb a) (wandb_ckpt a) (batch_size a)
    (update_freq a) (model a) (finetune a) (model_key a) (model_prefix a)
    (model_ema a) (model_ema_eval a) (layer_decay a) (lr a) (min_lr a)
    (epochs a) (start_epoch a) (warmup_epochs a) (warmup_steps a)
    (weight_decay a) (weight_decay_end a) (smoothing a) (save_ckpt a)
    (save_ckpt_freq a).

Definition set_dist_eval (v : bool) (a : Args) : Args :=
  mkArgs (eval a) (output_dir a) (dataset a) (tag a) (nb_classes a)
    (disable_eval a) v (log_dir a) (enable_wandb a) (wandb_ckpt a)
    (batch_size a) (update_freq a) (model a) (finetune a) (model_key a)
    (model_prefix a) (model_ema a) (model_ema_eval a) (layer_decay a) (lr a)
    (min_lr a) (epochs a) (start_epoch a) (warmup_epochs a) (warmup_steps a)
    (weight_decay a) (weight_decay_end a) (smoothing a) (save_ckpt a)
    (save_ckpt_freq a).

Definition set_weight_decay_end (v : option pyfloat) (a : Args) : Args :=
  mkArgs (eval a) (output_dir a) (dataset a) (tag a) (nb_classes a)
    (disable_eval a) (dist_eval a) (log_dir a) (enable_wandb a) (wandb_ckpt a)
    (batch_size a) (update_freq a) (model a) (finetune a) (model_key a)
    (model_prefix a) (model_ema a) (model_ema_eval a) (layer_decay a) (lr a)
    (min_lr a) (epochs a) (start_epoch a) (warmup_epochs a) (warmup_steps a)
    (weight_decay a) v (smoothing a) (save_ckpt a) (save_ckpt_freq a).

(** [args.__dict__] as the [__main__] block dumps it: attribute name and
    value, one per line of [config.txt]. *)
Inductive argval :=
| VBool (b : bool)
| VInt (z : Z)
| VFloat (f : pyfloat)
| VStr (s : string)
| VNone.

Definition opt_val {A} (f : A -> argval) (o : option A) : argval :=
  match o with Some x => f x | None => VNone end.

Definition args_dict (a : Args) : pydict argval :=
  [ ("eval", VBool (eval a)); ("output_dir", VStr (output_dir a));
    ("dataset", VStr (dataset a)); ("tag", VStr (tag a));
    ("nb_classes", VInt (nb_classes a));
    ("disable_eval", VBool (disable_eval a));
    ("dist_eval", VBool (dist_eval a));
    ("log_dir", opt_val VStr (log_dir a));
    ("enable_wandb", VBool (enable_wandb a));
    ("wandb_ckpt", VBool (wandb_ckpt a));
    ("batch_size", VInt (batch_size a));
    ("update_freq", VInt (update_freq a));
    ("model", VStr (model a)); ("finetune", VStr (finetune a));
    ("model_key", VStr (model_key a));
    ("model_prefix", VStr (model_prefix a));
    ("model_ema", VBool (model_ema a));
    ("model_ema_eval", VBool (model_ema_eval a));
    ("layer_decay", VFloat (layer_decay a));
    ("lr", VFloat (lr a)); ("min_lr", VFloat (min_lr a));
    ("epochs", VInt (epochs a)); ("start_epoch", VInt (start_epoch a));
    ("warmup_epochs", VInt (warmup_epochs a));
    ("warmup_steps", VInt (warmup_steps a));
    ("weight_decay", VFloat (weight_decay a));
    ("weight_decay_end", opt_val VFloat (weight_decay_end a));
    ("smoothing", VFloat (smoothing a));
    ("save_ckpt", VBool (save_ckpt a));
    ("save_ckpt_freq", VInt (save_ckpt_freq a)) ].

(** ** Events, results and the monad of the script *)

Inductive target := Primary | Ema.

(** The [epoch=] argument of [utils.save_model]: an epoch number,
    ["best"] or ["best-ema"]. *)
Inductive ckpt_tag := TagEpoch (e : Z) | TagBest | TagBestEma.

(** The texts handed to [logger.info], by source line. *)
Inductive log_msg :=
| MsgLoadByKey (k : string)
| MsgUsingEma
| MsgCosine
| MsgCriterion
| MsgEvalOnly
| MsgEvalAccuracy (n : Z) (acc : pyfloat)
| MsgStartTraining
| MsgTestAccuracy (acc : pyfloat)
| MsgEpochAccuracy (n : Z) (acc : pyfloat)
| MsgMaxAccuracy (m : pyfloat)
| MsgMaxEmaAccuracy (m : pyfloat)
| MsgTrainingTime.

(** [LayerDecayValueAssigner(list(d ** (num_layers + 1 - i) for i in
    range(num_layers + 2)))]: the values are kept as the base [d] and the
    list of exponents. *)
Record Assigner := { decay : pyfloat; exponents : list Z }.

Record Dataset := { ds_len : Z }.

(** [DataLoader(dataset, batch_size=...)]: an object wrapping whatever it
    was given as dataset, [None] included. *)
Record Loader := { ld_dataset : option Dataset; ld_batch_size : Z }.

Inductive Logger := mkLogger (dir : string).

Record Model := { weights : state_dict; numel_trainable : Z }.

Inductive criterion_kind :=
| SoftTargetCrossEntropy
| LabelSmoothingCrossEntropy
| SoftCrossEntropyLoss.

(** Observable actions, in program order. *)
Inductive event :=
| EvCreateLogger (dir : string)
| EvBuildDataset (is_train : bool)
| EvTensorboard (what : string)
| EvWandb (what : string)
| EvBuildModel (classes : Z)
| EvTorchLoad (path : string)
| EvLoadStateDict (table : entry) (prefix : string)
| EvModelToDevice
| EvModelEma
| EvCreateOptimizer (a : option Assigner)
| EvCosineScheduler (base final : pyfloat) (n_epochs per_epoch w_epochs w_steps : option Z)
| EvCriterion (c : criterion_kind)
| EvAutoLoadModel (a : Args)
| EvModelLoadStateDict (ckpt : gmap string entry)
| EvEvaluate (t : target) (epoch : option Z)
| EvTrainOneEpoch (epoch : Z)
| EvSaveModel (t : ckpt_tag)
| EvLog (m : log_msg)
| EvRecord (path : string) (line : pydict jval)
| EvMkdir (path : string)
| EvConfigSnapshot (path : string) (items : pydict argval).

(** A computation: the events it produced and how it ended. *)
Definition Run (A : Type) : Type := list event * (exn + A).

Definition ret {A} (a : A) : Run A := ([], inr a).
Definition raise {A} (e : exn) : Run A := ([], inl e).
Definition emit (ev : event) : Run unit := ([ev], inr tt).

Definition bind {A B} (c : Run A) (k : A -> Run B) : Run B :=
  match c with
  | (es, inl e) => (es, inl e)
  | (es, inr a) => let (es', r) := k a in ((es ++ es')%list, r)
  end.

Notation "x <- c ;; k" := (bind c (fun x => k))
  (at level 100, c at next level, right associativity).
Notation "c ;;; k" := (bind c (fun _ => k))
  (at level 100, right associativity).

(** A call of a collaborator: the call is observed, then it returns or
    raises. *)
Definition call {A} (ev : event) (r : exn + A) : Run A := ([ev], r).

Definition events {A} (c : Run A) : list event := fst c.
Definition outcome {A} (c : Run A) : exn + A := snd c.

(** [for x in xs: body], threading the loop-carried variables. *)
Fixpoint for_each {X S} (body : X -> S -> Run S) (xs : list X) (s : S) : Run S :=
  match xs with
  | [] => ret s
  | x :: xs' => s' <- body x s ;; for_each body xs' s'
  end.

(** [range(a, b)]. *)
Definition py_range (a b : Z) : list Z :=
  map (fun i => a + Z.of_nat i) (seq 0 (Z.to_nat (b - a))).

(** [logger.info(msg)]: the attribute is looked up on [logger] before the
    message is evaluated. *)
Definition logger_info (lg : option Logger) (msg : Run log_msg) : Run unit :=
  match lg with
  | None => raise (AttributeError "info")
  | Some _ => m <- msg ;; emit (EvLog m)
  end.

(** [d[k]] on a stats dict. *)
Definition stat (k : string) (s : stats) : Run pyfloat :=
  match dict_get k s with
  | Some v => ret v
  | None => raise (KeyError k)
  end.

(** [len(dataset)] where the variable may hold [None]. *)
Definition py_len (d : option Dataset) : Run Z :=
  match d with
  | Some ds => ret (ds_len ds)
  | None => raise (TypeError "len")
  end.

(** ** Collaborators and module globals *)

(** The imported functions the script calls. Each is given by what it
    returns or raises; [train_one_epoch] and [evaluate] tell their calls
    apart by the epoch in which they are made. [auto_load_model] receives
    [args] by reference and returns it as it left it. *)
Record Collab := {
  cuda_is_available : bool;
  build_dataset : bool -> Args -> exn + (Dataset * Z);
  convnext_base : Args -> exn + Model;
  torch_load : string -> exn + gmap string entry;
  create_optimizer : Args -> option Assigner -> exn + unit;
  auto_load_model : Args -> exn + Args;
  model_load_state_dict : gmap string entry -> exn + unit;
  evaluate : option Loader -> target -> option Z -> exn + stats;
  train_one_epoch : Z -> exn + stats;
  save_model : ckpt_tag -> exn + unit
}.

(** Names that [main] reads from the module namespace: [model] (declared
    [global]), [mixup_fn] and [wandb] (never assigned in [main]).
    [None] is an unbound name. *)
Record Globals := {
  g_model : option Model;
  g_mixup_fn : option (option unit);
  g_wandb : option unit
}.

(** The module namespace when [main] is called from the [__main__] block:
    the file binds none of the three names at top level. *)
Definition module_globals : Globals :=
  {| g_model := None; g_mixup_fn := None; g_wandb := None |}.

Definition read_global {A} (name : string) (v : option A) : Run A :=
  match v with
  | Some x => ret x
  | None => raise (NameError name)
  end.

Definition read_local {A} (name : string) (v : option A) : Run A :=
  match v with
  | Some x => ret x
  | None => raise (UnboundLocalError name)
  end.

(** ** [main], lines 29-69: logger, datasets, loaders *)

(** The local variables of [main] that later phases read. *)
Record Env := {
  logger : option Logger;
  dataset_train : Dataset;
  dataset_val : option Dataset;
  log_writer : option unit;
  wandb_logger : option unit;
  data_loader_train : Loader;
  data_loader_val : option Loader
}.

Definition prepare (C : Collab) (args : Args) : Run (Args * Env) :=
  (if cuda_is_available C then ret tt else raise AssertionError) ;;;
  lg <- (if negb (eval args)
         then emit (EvCreateLogger (output_dir args)) ;;;
              ret (Some (mkLogger (output_dir args)))
         else ret None) ;;
  tr <- call (EvBuildDataset true) (build_dataset C true args) ;;
  let args := set_nb_classes (snd tr) args in
  av <- (if disable_eval args
         then ret (set_dist_eval false args, None)
         else v <- call (EvBuildDataset false) (build_dataset C false args) ;;
              ret (args, Some (fst v))) ;;
  let args := fst av in
  lw <- match log_dir args with
        | Some d => emit (EvMkdir d) ;;; emit (EvTensorboard "init") ;;; ret (Some tt)
        | None => ret None
        end ;;
  wl <- (if enable_wandb args
         then emit (EvWandb "init") ;;; ret (Some tt)
         else ret None) ;;
  ret (args,
       {| logger := lg;
          dataset_train := fst tr;
          dataset_val := snd av;
          log_writer := lw;
          wandb_logger := wl;
          data_loader_train :=
            {| ld_dataset := Some (fst tr); ld_batch_size := batch_size args |};
          data_loader_val :=
            Some {| ld_dataset := snd av;
                    ld_batch_size := Z.quot (3 * batch_size args) 2 |} |}).

(** ** [main], lines 81-108: model construction and foreign weights *)

(** Lines 94-99: the value of [checkpoint_model] when the [for] loop over
    the preferred keys ends ([ENone] is Python's [None]). *)
Fixpoint select_model_key (lg : option Logger) (checkpoint : gmap string entry)
    (keys : list string) : Run entry :=
  match keys with
  | [] => ret ENone
  | model_key :: keys' =>
      match checkpoint !! model_key with
      | Some v => logger_info lg (ret (MsgLoadByKey model_key)) ;;; ret v
      | None => select_model_key lg checkpoint keys'
      end
  end.

Definition entry_shape (e : entry) : Run (list Z) :=
  match e with
  | ETensor t => ret (shape t)
  | _ => raise (AttributeError "shape")
  end.

(** Lines 104-105 for one key [k]. *)
Definition drop_mismatched (state : state_dict) (k : string)
    (checkpoint_model : entry) : Run entry :=
  match checkpoint_model with
  | ETable d =>
      match d !! k with
      | None => ret checkpoint_model
      | Some v =>
          s1 <- entry_shape v ;;
          s2 <- match state !! k with
                | Some t => ret (shape t)
                | None => raise (KeyError k)
                end ;;
          if bool_decide (s1 ≠ s2) then ret (ETable (delete k d))
          else ret checkpoint_model
      end
  | _ => raise (TypeError "in")
  end.

Section Controller.

(** [utils.load_state_dict(model, table, prefix)] : the state of the model
    after the call. *)
Variable load_state_dict : state_dict -> entry -> string -> exn + state_dict.
Variable C : Collab.

(** Lines 93-106. *)
Definition load_foreign_weights (lg : option Logger) (args : Args)
    (m : Model) : Run Model :=
  checkpoint <- call (EvTorchLoad (finetune args)) (torch_load C (finetune args)) ;;
  found <- select_model_key lg checkpoint (py_split "|" (model_key args)) ;;
  let checkpoint_model :=
    match found with ENone => ETable checkpoint | v => v end in
  let state := weights m in
  cm1 <- drop_mismatched state "head.weight" checkpoint_model ;;
  cm2 <- drop_mismatched state "head.bias" cm1 ;;
  w <- call (EvLoadStateDict cm2 (model_prefix args))
            (load_state_dict (weights m) cm2 (model_prefix args)) ;;
  ret {| weights := w; numel_trainable := numel_trainable m |}.

(** Lines 82-108. The [else] branch evaluates [ValueError(...)] and drops
    the object: nothing is raised. *)
Definition init_model (G : Globals) (lg : option Logger) (args : Args)
    : Run Globals :=
  if String.eqb (model args) "convnext_base" then
    m <- call (EvBuildModel (nb_classes args)) (convnext_base C args) ;;
    m' <- load_foreign_weights lg args m ;;
    ret {| g_model := Some m'; g_mixup_fn := g_mixup_fn G; g_wandb := g_wandb G |}
  else ret G.

(** ** [main], lines 110-172: EMA, optimizer, schedules, criterion, resume *)

Definition layer_decay_models : list string :=
  ["convnext_small"; "convnext_base"; "convnext_large"; "convnext_xlarge"].

(** Lines 129-133: the binding of the local [assigner]; [None] when no
    assignment to it was executed. The scales
    [args.layer_decay ** (num_layers + 1 - i)] are kept as base and
    exponents: the powers are not computed here, so the [OverflowError]
    that [**] raises for a finite rate of huge magnitude is not part of
    this model. *)
Definition layer_decay_assigner (args : Args) : option Assigner :=
  if flt (layer_decay args) 1 || flt 1 (layer_decay args) then
    let num_layers := 12 in
    if existsb (String.eqb (model args)) layer_decay_models then
      Some {| decay := layer_decay args;
              exponents := map (fun i => num_layers + 1 - i)
                               (py_range 0 (num_layers + 2)) |}
    else None
  else None.

Record Setup := {
  the_model : Model;
  model_ema_obj : option unit;
  n_parameters : Z;
  num_training_steps_per_epoch : Z
}.

Definition criterion_of (mixup_fn : option unit) (args : Args) : criterion_kind :=
  match mixup_fn with
  | Some _ => SoftTargetCrossEntropy
  | None => if flt 0 (smoothing args) then LabelSmoothingCrossEntropy
            else SoftCrossEntropyLoss
  end.

Definition setup (G : Globals) (env : Env) (args : Args) : Run (Args * Setup) :=
  m <- read_global "model" (g_model G) ;;
  emit EvModelToDevice ;;;
  ema <- (if model_ema args
          then emit EvModelEma ;;; logger_info (logger env) (ret MsgUsingEma) ;;;
               ret (Some tt)
          else ret None) ;;
  let total_batch_size := batch_size args * update_freq args in
  steps <- (if total_batch_size =? 0 then raise ZeroDivisionError
            else ret (ds_len (dataset_train env) / total_batch_size)) ;;
  a <- read_local "assigner" (layer_decay_assigner args) ;;
  call (EvCreateOptimizer (Some a)) (create_optimizer C args (Some a)) ;;;
  logger_info (logger env) (ret MsgCosine) ;;;
  emit (EvCosineScheduler (lr args) (min_lr args) (Some (epochs args)) (Some steps)
          (Some (warmup_epochs args)) (Some (warmup_steps args))) ;;;
  let args := match weight_decay_end args with
              | None => set_weight_decay_end (Some (weight_decay args)) args
              | Some _ => args
              end in
  wd_end <- read_local "weight_decay_end" (weight_decay_end args) ;;
  emit (EvCosineScheduler (weight_decay args) wd_end (Some (epochs args)) (Some steps)
          None None) ;;;
  mixup_fn <- read_global "mixup_fn" (g_mixup_fn G) ;;
  emit (EvCriterion (criterion_of mixup_fn args)) ;;;
  logger_info (logger env) (ret MsgCriterion) ;;;
  args' <- call (EvAutoLoadModel args) (auto_load_model C args) ;;
  ret (args',
       {| the_model := m; model_ema_obj := ema;
          n_parameters := numel_trainable m;
          num_training_steps_per_epoch := steps |}).

(** ** [main], lines 174-183: evaluation only *)

Definition eval_only (env : Env) (su : Setup) (args : Args) : Run unit :=
  logger_info (logger env) (ret MsgEvalOnly) ;;;
  let path := "checkpoint/" +:+ dataset args +:+ ".pth" in
  art <- call (EvTorchLoad path) (torch_load C path) ;;
  ckpt <- match art !! "model" with
          | None => raise (KeyError "model")
          | Some (ETable d) => ret d
          | Some _ => raise (AttributeError "items")
          end ;;
  let model_dict := weights (the_model su) in
  let ckpt := filter (fun kv => is_Some (model_dict !! fst kv)) ckpt in
  call (EvModelLoadStateDict ckpt) (model_load_state_dict C ckpt) ;;;
  test_stats <- call (EvEvaluate Primary None)
                     (evaluate C (data_loader_val env) Primary None) ;;
  logger_info (logger env)
    (n <- py_len (dataset_val env) ;;
     a <- stat "acc1" test_stats ;;
     ret (MsgEvalAccuracy n a)).

(** ** [main], lines 186-276: the training stage *)

(** The loop-carried variables. [max_accuracy_ema] is assigned before the
    loop only when EMA evaluation is on (lines 187-188). *)
Record LoopState := {
  max_accuracy : pyfloat;
  max_accuracy_ema : option pyfloat
}.

(** [args.output_dir and args.save_ckpt] *)
Definition save_enabled (args : Args) : bool :=
  str_truthy (output_dir args) && save_ckpt args.

(** [args.model_ema and args.model_ema_eval] *)
Definition ema_eval_on (args : Args) : bool :=
  model_ema args && model_ema_eval args.

Definition when (b : bool) (c : Run unit) : Run unit :=
  if b then c else ret tt.

Definition when_some {A} (o : option A) (c : Run unit) : Run unit :=
  match o with Some _ => c | None => ret tt end.

(** Lines 206-210. *)
Definition save_periodic (args : Args) (epoch : Z) : Run unit :=
  when (save_enabled args)
    (if save_ckpt_freq args =? 0 then raise ZeroDivisionError
     else when (((epoch + 1) mod save_ckpt_freq args =? 0)
                || (epoch + 1 =? epochs args))
            (call (EvSaveModel (TagEpoch epoch)) (save_model C (TagEpoch epoch)))).

(** Lines 217-225. *)
Definition track_best (G : Globals) (env : Env) (args : Args) (epoch : Z)
    (test_stats : stats) (st : LoopState) : Run LoopState :=
  acc <- stat "acc1" test_stats ;;
  if flt (max_accuracy st) acc then
    when_some (wandb_logger env)
      (read_global "wandb" (g_wandb G) ;;; emit (EvWandb "summary")) ;;;
    when (save_enabled args)
      (call (EvSaveModel TagBest) (save_model C TagBest)) ;;;
    ret {| max_accuracy := acc; max_accuracy_ema := max_accuracy_ema st |}
  else ret st.

(** Lines 246-252. *)
Definition track_best_ema (env : Env) (args : Args)
    (test_stats_ema : stats) (st : LoopState) : Run LoopState :=
  cur <- read_local "max_accuracy_ema" (max_accuracy_ema st) ;;
  acc <- stat "acc1" test_stats_ema ;;
  if flt cur acc then
    when (save_enabled args)
      (call (EvSaveModel TagBestEma) (save_model C TagBestEma)) ;;;
    logger_info (logger env) (ret (MsgMaxEmaAccuracy acc)) ;;;
    ret {| max_accuracy := max_accuracy st; max_accuracy_ema := Some acc |}
  else ret st.

Definition base_log_stats (su : Setup) (epoch : Z) : pydict jval :=
  [("epoch", JInt epoch); ("n_parameters", JInt (n_parameters su))].

(** Lines 214-255: the branch taken when [data_loader_val is not None]. *)
Definition evaluate_branch (G : Globals) (env : Env) (su : Setup) (args : Args)
    (epoch : Z) (train_stats : stats) (st : LoopState)
    : Run (LoopState * pydict jval) :=
  test_stats <- call (EvEvaluate Primary (Some epoch))
                     (evaluate C (data_loader_val env) Primary (Some epoch)) ;;
  logger_info (logger env)
    (a <- stat "acc1" test_stats ;; ret (MsgTestAccuracy a)) ;;;
  st1 <- track_best G env args epoch test_stats st ;;
  acc1 <- stat "acc1" test_stats ;;
  logger_info (logger env)
    (n <- py_len (dataset_val env) ;; ret (MsgEpochAccuracy n acc1)) ;;;
  logger_info (logger env) (ret (MsgMaxAccuracy (max_accuracy st1))) ;;;
  when_some (log_writer env)
    (stat "acc1" test_stats ;;; emit (EvTensorboard "test_acc1") ;;;
     stat "acc5" test_stats ;;; emit (EvTensorboard "test_acc5") ;;;
     stat "loss" test_stats ;;; emit (EvTensorboard "test_loss")) ;;;
  let log_stats :=
    dict_update
      (dict_update (dict_update [] (prefixed "train_" "" train_stats))
                   (prefixed "test_" "" test_stats))
      (base_log_stats su epoch) in
  if ema_eval_on args then
    match model_ema_obj su with
    | None => raise (AttributeError "ema")
    | Some _ => ret tt
    end ;;;
    test_stats_ema <- call (EvEvaluate Ema (Some epoch))
                           (evaluate C (data_loader_val env) Ema (Some epoch)) ;;
    st2 <- track_best_ema env args test_stats_ema st1 ;;
    when_some (log_writer env)
      (stat "acc1" test_stats_ema ;;; emit (EvTensorboard "test_acc1_ema")) ;;;
    ret (st2, dict_update log_stats (prefixed "test_" "_ema" test_stats_ema))
  else ret (st1, log_stats).

(** Lines 212-268: evaluation (or not), the log entry and its record. *)
Definition evaluate_and_record (G : Globals) (env : Env) (su : Setup)
    (args : Args) (epoch : Z) (train_stats : stats) (st : LoopState)
    : Run LoopState :=
  r <- match data_loader_val env with
       | Some _ => evaluate_branch G env su args epoch train_stats st
       | None =>
           ret (st, dict_update (dict_update [] (prefixed "train_" "" train_stats))
                                (base_log_stats su epoch))
       end ;;
  when (str_truthy (output_dir args))
    (when_some (log_writer env) (emit (EvTensorboard "flush")) ;;;
     emit (EvRecord (os_path_join (output_dir args) "record.txt") (snd r))) ;;;
  when_some (wandb_logger env) (emit (EvWandb "log_epoch_metrics")) ;;;
  ret (fst r).

(** Lines 192-268: one iteration of the epoch loop. *)
Definition epoch_body (G : Globals) (env : Env) (su : Setup) (args : Args)
    (epoch : Z) (st : LoopState) : Run LoopState :=
  when_some (log_writer env) (emit (EvTensorboard "set_step")) ;;;
  when_some (wandb_logger env) (emit (EvWandb "set_steps")) ;;;
  train_stats <- call (EvTrainOneEpoch epoch) (train_one_epoch C epoch) ;;
  save_periodic args epoch ;;;
  evaluate_and_record G env su args epoch train_stats st.

(** Lines 186-188. *)
Definition initial_state (args : Args) : LoopState :=
  {| max_accuracy := 0;
     max_accuracy_ema := if ema_eval_on args then Some 0%float else None |}.

(** Lines 191-268: the [for] loop, from a given state. *)
Definition epoch_loop (G : Globals) (env : Env) (su : Setup) (args : Args)
    (es : list Z) (st : LoopState) : Run LoopState :=
  for_each (epoch_body G env su args) es st.

(** Lines 186-276. *)
Definition training_stage (G : Globals) (env : Env) (su : Setup) (args : Args)
    : Run LoopState :=
  logger_info (logger env) (ret MsgStartTraining) ;;;
  st <- epoch_loop G env su args (py_range (start_epoch args) (epochs args))
          (initial_state args) ;;
  when (match wandb_logger env with Some _ => true | None => false end
        && wandb_ckpt args && save_ckpt args && str_truthy (output_dir args))
    (emit (EvWandb "log_checkpoints")) ;;;
  logger_info (logger env) (ret MsgTrainingTime) ;;;
  ret st.

(** ** [main] and the [__main__] block *)

Definition main (G : Globals) (args : Args) : Run unit :=
  ae <- prepare C args ;;
  let args := fst ae in
  let env := snd ae in
  G' <- init_model G (logger env) args ;;
  asu <- setup G' env args ;;
  let args := fst asu in
  let su := snd asu in
  if eval args then eval_only env su args
  else training_stage G' env su args ;;; ret tt.

(** Lines 279-296. *)
Definition script (args : Args) : Run unit :=
  let args :=
    set_output_dir
      (os_path_join (output_dir args) (dataset args +:+ "_" +:+ tag args)) args in
  when (str_truthy (output_dir args)) (emit (EvMkdir (output_dir args))) ;;;
  emit (EvConfigSnapshot (os_path_join (output_dir args) "config.txt")
          (args_dict args)) ;;;
  main module_globals args.

End Controller.

(** ** Collaborators that the spec describes *)

(** Modelled from the spec: [utils.load_state_dict] ([util/utils.py] is not
    among the sources). Section 4.3: it "applies the remaining weights to
    the model under a configurable name prefix, tolerating missing/extra
    keys by design (strict-shape mismatches on non-head keys are a hard
    failure, IncompatibleCheckpoint)". A parameter [k] of the model takes
    the tensor stored under [prefix ++ k]; a parameter without such an
    entry keeps its value; entries that name no parameter are ignored. *)
Definition incoming (table : gmap string entry) (prefix k : string) : option tensor :=
  match table !! (prefix +:+ k) with
  | Some (ETensor t) => Some t
  | _ => None
  end.

Definition shape_clash (table : gmap string entry) (prefix : string)
    (kv : string * tensor) : bool :=
  match incoming table prefix (fst kv) with
  | Some t => bool_decide (shape t ≠ shape (snd kv))
  | None => false
  end.

Definition utils_load_state_dict (w : state_dict) (table : entry)
    (prefix : string) : exn + state_dict :=
  match table with
  | ETable d =>
      match List.filter (shape_clash d prefix) (map_to_list w) with
      | kv :: _ => inl (IncompatibleCheckpoint (fst kv))
      | [] => inr (map_imap (fun k cur =>
                     Some (match incoming d prefix k with
                           | Some t => t
                           | None => cur
                           end)) w)
      end
  | _ => inl (TypeError "state_dict")
  end.

(** ** Reading a trace *)

Definition is_train (ev : event) : bool :=
  match ev with EvTrainOneEpoch _ => true | _ => false end.

Definition is_save (ev : event) : bool :=
  match ev with EvSaveModel _ => true | _ => false end.

Definition is_epoch_save (ev : event) : bool :=
  match ev with EvSaveModel (TagEpoch _) => true | _ => false end.

Definition is_best_save (ev : event) : bool :=
  match ev with EvSaveModel TagBest => true | _ => false end.

Definition is_best_ema_save (ev : event) : bool :=
  match ev with EvSaveModel TagBestEma => true | _ => false end.

Definition is_evaluate (ev : event) : bool :=
  match ev with EvEvaluate _ _ => true | _ => false end.

Definition is_optimizer (ev : event) : bool :=
  match ev with EvCreateOptimizer _ => true | _ => false end.

Definition is_scheduler (ev : event) : bool :=
  match ev with EvCosineScheduler _ _ _ _ _ _ => true | _ => false end.

Definition is_build_model (ev : event) : bool :=
  match ev with EvBuildModel _ => true | _ => false end.

(** No event of the computation satisfies [p]. *)
Definition never {A} (p : event -> bool) (c : Run A) : Prop :=
  Forall (fun ev => p ev = false) (events c).

(** The epochs in whose iteration a ["best"] checkpoint was written: each
    such save is attributed to the latest training pass before it. *)
Fixpoint best_save_epochs (cur : option Z) (evs : list event) : list (option Z) :=
  match evs with
  | [] => []
  | EvTrainOneEpoch e :: evs' => best_save_epochs (Some e) evs'
  | EvSaveModel TagBest :: evs' => cur :: best_save_epochs cur evs'
  | _ :: evs' => best_save_epochs cur evs'
  end.

(** ** The best-accuracy bookkeeping in the spec's words *)

(** [x] is a number and neither [0.0] nor an earlier observation reaches
    it: a strict new maximum. *)
Definition strict_new_max (earlier : list pyfloat) (x : pyfloat) : bool :=
  fle x x && forallb (fun y => negb (fle x y)) (0%float :: earlier).

(** [m] is the maximum of [0.0] and the observations: it is one of them
    and none of them exceeds it. *)
Definition is_floor_max (obs : list pyfloat) (m : pyfloat) : Prop :=
  In m (0%float :: obs) /\ Forall (fun x => flt m x = false) obs.

(** The epochs of [es] whose observation is a strict new maximum. *)
Fixpoint record_epochs (acc : Z -> pyfloat) (earlier : list pyfloat)
    (es : list Z) : list Z :=
  match es with
  | [] => []
  | e :: es' =>
      (if strict_new_max earlier (acc e) then [e] else [])
      ++ record_epochs acc (earlier ++ [acc e]) es'
  end.

(** ** Schedule generator *)

Module CosineSchedule.

#[local] Open Scope R_scope.

(** Modelled from the spec: [utils.cosine_scheduler] ([util/utils.py] is not
    among the sources), over the real numbers. Section 4.1: "linear ramp
    from 0 to base_value over max(warmup_epochs x steps_per_epoch,
    warmup_steps) steps, followed by a half-cosine decay from base_value
    down to end_value over the remaining steps. If warmup length >= total
    steps, the sequence is warmup-only (truncated)." The ramp starts at 0
    and reaches [base_value] on its last step; the decay starts at
    [base_value] and reaches [end_value] on its last step (Section 8: the
    value at the final step equals [end_value]). *)
Definition warmup_length (steps_per_epoch warmup_epochs warmup_steps : nat) : nat :=
  Nat.max (warmup_epochs * steps_per_epoch) warmup_steps.

Definition ramp (base_value : R) (w i : nat) : R :=
  if (w <=? 1)%nat then 0 else base_value * INR i / INR (w - 1).

Definition half_cosine (base_value end_value : R) (m j : nat) : R :=
  if (m <=? 1)%nat then end_value
  else end_value
       + (base_value - end_value) / 2 * (1 + cos (PI * INR j / INR (m - 1))).

Definition cosine_scheduler (base_value end_value : R)
    (total_epochs steps_per_epoch warmup_epochs warmup_steps : nat) : list R :=
  let total := (total_epochs * steps_per_epoch)%nat in
  let w := warmup_length steps_per_epoch warmup_epochs warmup_steps in
  firstn total
    (map (ramp base_value w) (seq 0 w)
     ++ map (half_cosine base_value end_value (total - w)) (seq 0 (total - w))).

(** Value at a step (0 beyond the end). *)
Definition at_step (s : list R) (i : nat) : R := nth i s 0.

End CosineSchedule.

(** ** A concrete setting for the examples *)

Definition demo_tensor (sh : list Z) (x : pyfloat) : tensor :=
  {| shape := sh; data := [x] |}.

(** A model with a 200-class head. *)
Definition demo_model : Model :=
  {| weights :=
       <["stem.weight" := demo_tensor [4] 0%float]>
       (<["head.weight" := demo_tensor [200; 16] 0%float]>
       (<["head.bias" := demo_tensor [200] 0%float]> ∅));
     numel_trainable := 3404 |}.

(** The weights table of a backbone with a 1000-class head. *)
Definition demo_nested : gmap string entry :=
  <["stem.weight" := ETensor (demo_tensor [4] 1%float)]>
  (<["head.weight" := ETensor (demo_tensor [1000; 16] 1%float)]>
  (<["head.bias" := ETensor (demo_tensor [1000] 1%float)]> ∅)).

(** A backbone checkpoint that nests that table under ["model"]. *)
Definition demo_backbone : gmap string entry :=
  <["model" := ETable demo_nested]> (<["epoch" := EOther]> ∅).

Definition demo_metrics (a : pyfloat) : stats :=
  [("acc1", a); ("acc5", a); ("loss", 1%float)].

(** Accuracies 70.0, 65.0, 72.0 in epochs 0, 1, 2. *)
Definition demo_acc (e : Z) : pyfloat :=
  if e =? 0 then 70%float else if e =? 1 then 65%float else 72%float.

(** A backbone checkpoint whose top level is the weights table itself. *)
Definition demo_flat_backbone : gmap string entry :=
  <["stem.weight" := ETensor (demo_tensor [4] 1%float)]> ∅.

(** Collaborators that always succeed: [torch.load] returns [ckpt], the
    evaluation of epoch [e] reports accuracy [acc e]. *)
Definition demo_collab_with (ckpt : gmap string entry) (acc : Z -> pyfloat)
    : Collab :=
  {| cuda_is_available := true;
     build_dataset := fun is_train _ =>
       inr ({| ds_len := if is_train then 64 else 24 |}, 200);
     convnext_base := fun _ => inr demo_model;
     torch_load := fun _ => inr ckpt;
     create_optimizer := fun _ _ => inr tt;
     auto_load_model := fun a => inr a;
     model_load_state_dict := fun _ => inr tt;
     evaluate := fun _ _ e =>
       inr (demo_metrics (match e with Some e => acc e | None => 50%float end));
     train_one_epoch := fun _ => inr [("loss", 2%float)];
     save_model := fun _ => inr tt |}.

Definition demo_collab (acc : Z -> pyfloat) : Collab :=
  demo_collab_with demo_backbone acc.

(** A configuration, varied in the attributes the examples differ in. *)
Definition demo_with (ev de sc : bool) (md : string) (ld : pyfloat) : Args :=
  {| eval := ev; output_dir := "out"; dataset := "cub"; tag := "run";
     nb_classes := 1000; disable_eval := de; dist_eval := true;
     log_dir := None; enable_wandb := false; wandb_ckpt := false;
     batch_size := 8; update_freq := 1; model := md;
     finetune := "backbone.pth"; model_key := "model|module";
     model_prefix := ""; model_ema := false; model_ema_eval := false;
     layer_decay := ld; lr := 0.5%float; min_lr := 0%float;
     epochs := 3; start_epoch := 0; warmup_epochs := 1; warmup_steps := 0;
     weight_decay := 0.125%float; weight_decay_end := None;
     smoothing := 0.125%float; save_ckpt := sc; save_ckpt_freq := 2 |}.

(** Training with checkpoints, layer decay 0.75. *)
Definition demo_args : Args :=
  demo_with false false true "convnext_base" 0.75%float.

(** A module namespace in which [mixup_fn = None] has been bound. *)
Definition patched_globals : Globals :=
  {| g_model := None; g_mixup_fn := Some None; g_wandb := None |}.

(** The namespace after the model phase of the example. *)
Definition demo_globals : Globals :=
  {| g_model := Some demo_model; g_mixup_fn := Some None; g_wandb := None |}.

Definition demo_env : Env :=
  {| logger := Some (mkLogger "out");
     dataset_train := {| ds_len := 64 |};
     dataset_val := Some {| ds_len := 24 |};
     log_writer := None;
     wandb_logger := None;
     data_loader_train := {| ld_dataset := Some {| ds_len := 64 |}; ld_batch_size := 8 |};
     data_loader_val := Some {| ld_dataset := Some {| ds_len := 24 |}; ld_batch_size := 12 |} |}.

Definition demo_setup : Setup :=
  {| the_model := demo_model; model_ema_obj := None;
     n_parameters := 3404; num_training_steps_per_epoch := 8 |}.

(** ** Trace predicates, expected behaviour and further examples *)

(** The computation ends in an exception. *)
Definition fails {A} (c : Run A) : Prop := exists e, outcome c = inl e.

(** The writes of lines 47-50 to [args]. *)
Definition after_prepare (nb : Z) (args : Args) : Args :=
  if disable_eval args then set_dist_eval false (set_nb_classes nb args)
  else set_nb_classes nb args.

(** Evaluation-only configuration of the example, on a backbone artifact
    without a nested table. *)
Definition demo_eval_run : Run unit :=
  main utils_load_state_dict (demo_collab_with demo_flat_backbone demo_acc)
    patched_globals (demo_with true false true "convnext_base" 0.75%float).

Definition is_auto_load (ev : event) : bool :=
  match ev with EvAutoLoadModel _ => true | _ => false end.

Definition is_snapshot (ev : event) : bool :=
  match ev with EvConfigSnapshot _ _ => true | _ => false end.

(** The attributes [main] assigns. *)
Definition written_by_main : list string :=
  ["nb_classes"; "dist_eval"; "weight_decay_end"].

(** Lines 155-156. *)
Definition default_wd_end (a : Args) : Args :=
  match weight_decay_end a with
  | None => set_weight_decay_end (Some (weight_decay a)) a
  | Some _ => a
  end.

(** The [args] that [main] receives from the [__main__] block. *)
Definition args_for_main (args : Args) : Args :=
  set_output_dir
    (os_path_join (output_dir args) (dataset args +:+ "_" +:+ tag args)) args.

(** [(epoch + 1) % args.save_ckpt_freq == 0 or epoch + 1 == args.epochs] *)
Definition checkpoint_due (args : Args) (e : Z) : bool :=
  ((e + 1) mod save_ckpt_freq args =? 0) || (e + 1 =? epochs args).

Definition train_or_epoch_save (ev : event) : bool :=
  is_train ev || is_epoch_save ev.

Definition train_save_or_evaluate (ev : event) : bool :=
  is_train ev || is_save ev || is_evaluate ev.

(** The example with [save_ckpt] off, in its final epoch. *)
Definition demo_unsaved_epoch : Run LoopState :=
  epoch_body (demo_collab demo_acc) patched_globals demo_env demo_setup
    (demo_with false false false "convnext_base" 0.75%float) 2
    {| max_accuracy := 70; max_accuracy_ema := None |}.

(** Whatever the computation returns satisfies [Q]. *)
Definition returns {A} (Q : A -> Prop) (c : Run A) : Prop :=
  forall a, outcome c = inr a -> Q a.

(** Both accumulators, where bound, are at least [0.0]. *)
Definition floor_inv (st : LoopState) : Prop :=
  fle 0 (max_accuracy st) = true
  /\ forall m, max_accuracy_ema st = Some m -> fle 0 m = true.

(** An EMA run whose evaluations all report accuracy 0.0. *)
Definition demo_ema_args : Args :=
  {| eval := false; output_dir := "out"; dataset := "cub"; tag := "run";
     nb_classes := 200; disable_eval := false; dist_eval := true;
     log_dir := None; enable_wandb := false; wandb_ckpt := false;
     batch_size := 8; update_freq := 1; model := "convnext_base";
     finetune := "backbone.pth"; model_key := "model|module";
     model_prefix := ""; model_ema := true; model_ema_eval := true;
     layer_decay := 0.75%float; lr := 0.5%float; min_lr := 0%float;
     epochs := 3; start_epoch := 0; warmup_epochs := 1; warmup_steps := 0;
     weight_decay := 0.125%float; weight_decay_end := None;
     smoothing := 0.125%float; save_ckpt := true; save_ckpt_freq := 2 |}.

Definition demo_ema_setup : Setup :=
  {| the_model := demo_model; model_ema_obj := Some tt;
     n_parameters := 3404; num_training_steps_per_epoch := 8 |}.

(** The computation returns a value satisfying [Q], and its events that
    satisfy [p] are exactly [l]. *)
Definition yields {A} (p : event -> bool) (Q : A -> Prop) (c : Run A)
    (l : list event) : Prop :=
  exists a, outcome c = inr a /\ Q a /\ List.filter p (events c) = l.

(** The events that tell where a ["best"] checkpoint was written. *)
Definition train_or_best (ev : event) : bool := is_train ev || is_best_save ev.

(** The collaborators work and the optional integrations do not get in
    the way: what the loop needs to run through. [acc e] is the top-1
    accuracy that the evaluation of epoch [e] reports. *)
Record nominal (C : Collab) (G : Globals) (env : Env) (su : Setup)
    (args : Args) (acc : Z -> pyfloat) : Prop := {
  nom_logger : logger env <> None;
  nom_wandb : wandb_logger env = None \/ g_wandb G <> None;
  nom_loader : data_loader_val env <> None;
  nom_dataset : dataset_val env <> None;
  nom_train : forall e, exists ts, train_one_epoch C e = inr ts;
  nom_eval : forall e, exists ts,
      evaluate C (data_loader_val env) Primary (Some e) = inr ts
      /\ dict_get "acc1" ts = Some (acc e)
      /\ dict_get "acc5" ts <> None /\ dict_get "loss" ts <> None;
  nom_ema : ema_eval_on args = true ->
      model_ema_obj su <> None
      /\ forall e, exists ts,
           evaluate C (data_loader_val env) Ema (Some e) = inr ts
           /\ dict_get "acc1" ts <> None;
  nom_save : forall t, save_model C t = inr tt;
  nom_freq : save_enabled args = true -> save_ckpt_freq args <> 0
}.

(** [max(m, x)] as line 217-218 computes it. *)
Definition fmax (m x : pyfloat) : pyfloat := if flt m x then x else m.

(** What one iteration leaves behind: the new best, and the EMA
    accumulator still bound when it is in use. *)
Definition stepped (args : Args) (acc : Z -> pyfloat) (m : pyfloat)
    (e : Z) (st' : LoopState) : Prop :=
  max_accuracy st' = fmax m (acc e)
  /\ (ema_eval_on args = true -> max_accuracy_ema st' <> None).

(** The maximum of 0.0 and the observations so far, itself at least 0.0. *)
Definition tracked (earlier : list pyfloat) (m : pyfloat) : Prop :=
  is_floor_max earlier m /\ fle 0 m = true.

(** The training passes and ["best"] saves that a loop over [es] is to
    show: one save in each epoch whose observation is a strict new
    maximum, when checkpoint writing is enabled. *)
Fixpoint expected_trace (enabled : bool) (acc : Z -> pyfloat)
    (earlier : list pyfloat) (es : list Z) : list event :=
  match es with
  | [] => []
  | e :: es' =>
      EvTrainOneEpoch e
      :: (if enabled && strict_new_max earlier (acc e)
          then [EvSaveModel TagBest] else [])
      ++ expected_trace enabled acc (earlier ++ [acc e]) es'
  end.

(** The log entry of an epoch without evaluation (lines 257-259). *)
Definition train_only_entry (su : Setup) (e : Z) (ts : stats) : pydict jval :=
  dict_update (dict_update [] (prefixed "train_" "" ts)) (base_log_stats su e).

(** A validation set of 5 images behind a loader with batch size 12 and
    [drop_last]: no batch. *)
Definition demo_small_env : Env :=
  {| logger := Some (mkLogger "out");
     dataset_train := {| ds_len := 64 |};
     dataset_val := Some {| ds_len := 5 |};
     log_writer := None;
     wandb_logger := None;
     data_loader_train := {| ld_dataset := Some {| ds_len := 64 |}; ld_batch_size := 8 |};
     data_loader_val := Some {| ld_dataset := Some {| ds_len := 5 |}; ld_batch_size := 12 |} |}.

(** The environment without a validation loader. *)
Definition demo_no_loader_env : Env :=
  {| logger := Some (mkLogger "out");
     dataset_train := {| ds_len := 64 |};
     dataset_val := None;
     log_writer := None;
     wandb_logger := None;
     data_loader_train := {| ld_dataset := Some {| ds_len := 64 |}; ld_batch_size := 8 |};
     data_loader_val := None |}.

Definition demo_zero_batch_epoch : Run LoopState :=
  epoch_body (demo_collab (fun _ => 0%float)) patched_globals demo_small_env
    demo_setup demo_args 0 (initial_state demo_args).

Definition head_keys : list string := ["head.weight"; "head.bias"].

(** In the claim's words: the nested weights table is the value under the
    first preferred key that the artifact has, and the whole artifact
    when it has none of them. *)
Definition nested_table (keys : list string) (checkpoint : gmap string entry)
    : entry :=
  match list_find (fun k => is_Some (checkpoint !! k)) keys with
  | Some (_, k) => default ENone (checkpoint !! k)
  | None => ETable checkpoint
  end.

(** The head entry under [k] is a tensor whose shape differs from the
    model's. *)
Definition head_dropped (state : state_dict) (d : gmap string entry)
    (k : string) : bool :=
  match d !! k, state !! k with
  | Some (ETensor t), Some cur => bool_decide (shape t ≠ shape cur)
  | _, _ => false
  end.

Definition drop_head (state : state_dict) (k : string)
    (d : gmap string entry) : gmap string entry :=
  if head_dropped state d k then delete k d else d.

(** The two head keys, in the order of line 103. *)
Definition drop_heads (state : state_dict) (d : gmap string entry)
    : gmap string entry :=
  drop_head state "head.bias" (drop_head state "head.weight" d).

(** What a parameter holds after the (modelled) load with the empty
    prefix. *)
Definition loaded_value (d : gmap string entry) (k : string) (cur : tensor)
    : tensor :=
  match d !! k with
  | Some (ETensor t) => t
  | _ => cur
  end.

(** The example with [disable_eval] set, and the environment that
    [prepare] builds for it: a loader over no dataset. *)
Definition demo_disabled_args : Args :=
  demo_with false true true "convnext_base" 0.75%float.

Definition demo_disabled_env : Env :=
  {| logger := Some (mkLogger "out");
     dataset_train := {| ds_len := 64 |};
     dataset_val := None;
     log_writer := None;
     wandb_logger := None;
     data_loader_train := {| ld_dataset := Some {| ds_len := 64 |}; ld_batch_size := 8 |};
     data_loader_val := Some {| ld_dataset := None; ld_batch_size := 12 |} |}.

(** ** Further examples and trace predicates *)

(** The example with a batch size of 0. *)
Definition demo_zero_batch_args : Args :=
  {| eval := false; output_dir := "out"; dataset := "cub"; tag := "run";
     nb_classes := 200; disable_eval := false; dist_eval := true;
     log_dir := None; enable_wandb := false; wandb_ckpt := false;
     batch_size := 0; update_freq := 1; model := "convnext_base";
     finetune := "backbone.pth"; model_key := "model|module";
     model_prefix := ""; model_ema := false; model_ema_eval := false;
     layer_decay := 0.75%float; lr := 0.5%float; min_lr := 0%float;
     epochs := 3; start_epoch := 0; warmup_epochs := 1; warmup_steps := 0;
     weight_decay := 0.125%float; weight_decay_end := None;
     smoothing := 0.125%float; save_ckpt := true; save_ckpt_freq := 2 |}.

(** The example with a checkpoint frequency of 0. *)
Definition demo_zero_freq_args : Args :=
  {| eval := false; output_dir := "out"; dataset := "cub"; tag := "run";
     nb_classes := 200; disable_eval := false; dist_eval := true;
     log_dir := None; enable_wandb := false; wandb_ckpt := false;
     batch_size := 8; update_freq := 1; model := "convnext_base";
     finetune := "backbone.pth"; model_key := "model|module";
     model_prefix := ""; model_ema := false; model_ema_eval := false;
     layer_decay := 0.75%float; lr := 0.5%float; min_lr := 0%float;
     epochs := 3; start_epoch := 0; warmup_epochs := 1; warmup_steps := 0;
     weight_decay := 0.125%float; weight_decay_end := None;
     smoothing := 0.125%float; save_ckpt := true; save_ckpt_freq := 0 |}.

(** The environment of the example with a wandb logger. *)
Definition demo_wandb_env : Env :=
  {| logger := Some (mkLogger "out");
     dataset_train := {| ds_len := 64 |};
     dataset_val := Some {| ds_len := 24 |};
     log_writer := None;
     wandb_logger := Some tt;
     data_loader_train := {| ld_dataset := Some {| ds_len := 64 |}; ld_batch_size := 8 |};
     data_loader_val := Some {| ld_dataset := Some {| ds_len := 24 |}; ld_batch_size := 12 |} |}.

(** The epochs of the training passes in a trace, in the order of the
    calls. *)
Definition trained_epochs (evs : list event) : list Z :=
  flat_map (fun ev => match ev with EvTrainOneEpoch e => [e] | _ => [] end) evs.

(** The example resumed at epoch 3, its last epoch already done. *)
Definition demo_resumed_args : Args :=
  {| eval := false; output_dir := "out"; dataset := "cub"; tag := "run";
     nb_classes := 200; disable_eval := false; dist_eval := true;
     log_dir := None; enable_wandb := false; wandb_ckpt := false;
     batch_size := 8; update_freq := 1; model := "convnext_base";
     finetune := "backbone.pth"; model_key := "model|module";
     model_prefix := ""; model_ema := false; model_ema_eval := false;
     layer_decay := 0.75%float; lr := 0.5%float; min_lr := 0%float;
     epochs := 3; start_epoch := 3; warmup_epochs := 1; warmup_steps := 0;
     weight_decay := 0.125%float; weight_decay_end := None;
     smoothing := 0.125%float; save_ckpt := true; save_ckpt_freq := 2 |}.

Definition is_record (ev : event) : bool :=
  match ev with EvRecord _ _ => true | _ => false end.

Definition is_ema_evaluate (ev : event) : bool :=
  match ev with EvEvaluate Ema _ => true | _ => false end.

(** A top-1 accuracy moved from [m] to [m']: unchanged, or strictly up. *)
Definition moved_up (m m' : pyfloat) : Prop := m' = m \/ flt m m' = true.

(** An evaluation that reports a NaN accuracy. *)
Definition demo_nan : pyfloat := (0 / 0)%float.

(** The collaborators of the example on a machine without CUDA. *)
Definition demo_no_cuda_collab : Collab :=
  {| cuda_is_available := false;
     build_dataset := build_dataset (demo_collab demo_acc);
     convnext_base := convnext_base (demo_collab demo_acc);
     torch_load := torch_load (demo_collab demo_acc);
     create_optimizer := create_optimizer (demo_collab demo_acc);
     auto_load_model := auto_load_model (demo_collab demo_acc);
     model_load_state_dict := model_load_state_dict (demo_collab demo_acc);
     evaluate := evaluate (demo_collab demo_acc);
     train_one_epoch := train_one_epoch (demo_collab demo_acc);
     save_model := save_model (demo_collab demo_acc) |}.

Definition is_load_state (ev : event) : bool :=
  match ev with EvLoadStateDict _ _ => true | _ => false end.

(** An artifact's preferred key is present: [model_key in checkpoint]. *)
Definition has_key (checkpoint : gmap string entry) (k : string) : bool :=
  bool_decide (is_Some (checkpoint !! k)).

(** A model without a classifier head. *)
Definition demo_headless_model : Model :=
  {| weights := <["stem.weight" := demo_tensor [4] 0%float]> ∅;
     numel_trainable := 4 |}.

Definition is_model_ema (ev : event) : bool :=
  match ev with EvModelEma => true | _ => false end.

(** The example with the EMA model kept but not evaluated. *)
Definition demo_ema_unevaluated_args : Args :=
  {| eval := false; output_dir := "out"; dataset := "cub"; tag := "run";
     nb_classes := 200; disable_eval := false; dist_eval := true;
     log_dir := None; enable_wandb := false; wandb_ckpt := false;
     batch_size := 8; update_freq := 1; model := "convnext_base";
     finetune := "backbone.pth"; model_key := "model|module";
     model_prefix := ""; model_ema := true; model_ema_eval := false;
     layer_decay := 0.75%float; lr := 0.5%float; min_lr := 0%float;
     epochs := 3; start_epoch := 0; warmup_epochs := 1; warmup_steps := 0;
     weight_decay := 0.125%float; weight_decay_end := None;
     smoothing := 0.125%float; save_ckpt := true; save_ckpt_freq := 2 |}.

Definition is_model_load (ev : event) : bool :=
  match ev with EvModelLoadStateDict _ => true | _ => false end.

(** The table that lines 94-101 settle on: the value under the first
    preferred key that the artifact has, and the whole artifact when it
    has none of them or when that value is [None]. *)
Definition chosen_table (keys : list string) (checkpoint : gmap string entry)
    : entry :=
  match nested_table keys checkpoint with
  | ENone => ETable checkpoint
  | v => v
  end.

(** An artifact whose key ["model"] holds [None], with a weight at its top
    level. *)
Definition demo_none_backbone : gmap string entry :=
  <["model" := ENone]>
  (<["stem.weight" := ETensor (demo_tensor [4] 1%float)]> ∅).

(** * Properties *)

(** ** Order of binary64 values *)

Lemma compare_cont_eq (m1 m2 : positive) :
  Pos.compare_cont Eq m1 m2 = Pos.compare m1 m2.
Proof. reflexivity. Qed.

Ltac cmp_step :=
  match goal with
  | |- context [Z.compare ?a ?b] => destruct (Z.compare_spec a b); subst
  | H : context [Z.compare ?a ?b] |- _ => destruct (Z.compare_spec a b); subst
  | |- context [Pos.compare ?a ?b] => destruct (Pos.compare_spec a b); subst
  | H : context [Pos.compare ?a ?b] |- _ => destruct (Pos.compare_spec a b); subst
  end.

Ltac sf_cases x := destruct x as [[]|[]| |[] ? ?].

Ltac sf_solve :=
  simpl; try congruence; intros;
  repeat (rewrite ?compare_cont_eq in *; cmp_step; cbn [CompOpp option_map] in *);
  try reflexivity; try congruence; try lia.

Lemma SFcompare_lt_trans x y z :
  SFcompare x y = Some Lt -> SFcompare y z = Some Lt -> SFcompare x z = Some Lt.
Proof. sf_cases x; sf_cases y; sf_cases z; sf_solve. Qed.

Lemma SFcompare_eq_lt_trans x y z :
  SFcompare x y = Some Eq -> SFcompare y z = Some Lt -> SFcompare x z = Some Lt.
Proof. sf_cases x; sf_cases y; sf_cases z; sf_solve. Qed.

Lemma SFcompare_lt_eq_trans x y z :
  SFcompare x y = Some Lt -> SFcompare y z = Some Eq -> SFcompare x z = Some Lt.
Proof. sf_cases x; sf_cases y; sf_cases z; sf_solve. Qed.

Lemma SFcompare_eq_trans x y z :
  SFcompare x y = Some Eq -> SFcompare y z = Some Eq -> SFcompare x z = Some Eq.
Proof. sf_cases x; sf_cases y; sf_cases z; sf_solve. Qed.

Lemma SFcompare_antisym x y :
  SFcompare y x = option_map CompOpp (SFcompare x y).
Proof. sf_cases x; sf_cases y; sf_solve. Qed.

Lemma SFcompare_refl x : SFcompare x x = Some Eq \/ SFcompare x x = None.
Proof. sf_cases x; sf_solve; auto. Qed.

Lemma SFcompare_defined x y :
  SFcompare x x = Some Eq -> SFcompare y y = Some Eq -> SFcompare x y <> None.
Proof. sf_cases x; sf_cases y; simpl; congruence. Qed.

(** [flt] and [fle] through the comparison of the specification floats. *)
Lemma flt_spec a b : flt a b = true <-> SFcompare (Prim2SF a) (Prim2SF b) = Some Lt.
Proof.
  unfold flt. rewrite ltb_spec. unfold SFltb.
  destruct (SFcompare _ _) as [[]|]; split; congruence.
Qed.

Lemma fle_spec a b :
  fle a b = true <->
  SFcompare (Prim2SF a) (Prim2SF b) = Some Lt \/
  SFcompare (Prim2SF a) (Prim2SF b) = Some Eq.
Proof.
  unfold fle. rewrite leb_spec. unfold SFleb.
  destruct (SFcompare _ _) as [[]|]; split; intros; try tauto;
    try congruence; destruct H; congruence.
Qed.

Lemma fle_refl_spec a : fle a a = true <-> SFcompare (Prim2SF a) (Prim2SF a) = Some Eq.
Proof.
  rewrite fle_spec. destruct (SFcompare_refl (Prim2SF a)) as [H | H]; rewrite H;
    split; intros; try tauto; destruct H0; congruence.
Qed.

Lemma flt_fle a b : flt a b = true -> fle a b = true.
Proof. rewrite flt_spec, fle_spec. tauto. Qed.

Lemma flt_trans a b c : flt a b = true -> flt b c = true -> flt a c = true.
Proof. rewrite !flt_spec. apply SFcompare_lt_trans. Qed.

Lemma fle_flt_trans a b c : fle a b = true -> flt b c = true -> flt a c = true.
Proof.
  rewrite fle_spec, !flt_spec. intros [H | H] H'.
  - eapply SFcompare_lt_trans; eauto.
  - eapply SFcompare_eq_lt_trans; eauto.
Qed.

Lemma flt_fle_trans a b c : flt a b = true -> fle b c = true -> flt a c = true.
Proof.
  rewrite fle_spec, !flt_spec. intros H [H' | H'].
  - eapply SFcompare_lt_trans; eauto.
  - eapply SFcompare_lt_eq_trans; eauto.
Qed.

Lemma fle_trans a b c : fle a b = true -> fle b c = true -> fle a c = true.
Proof.
  intros H1 H2. rewrite fle_spec in H2. destruct H2 as [H2 | H2].
  - apply flt_fle. eapply fle_flt_trans; eauto. apply flt_spec; exact H2.
  - rewrite fle_spec in *. destruct H1 as [H1 | H1].
    + left. eapply SFcompare_lt_eq_trans; eauto.
    + right. eapply SFcompare_eq_trans; eauto.
Qed.

(** [a <= b] excludes [b < a]. *)
Lemma fle_not_flt a b : fle a b = true -> flt b a = false.
Proof.
  intros H. destruct (flt b a) eqn:E; [| reflexivity].
  apply flt_spec in E. apply fle_spec in H.
  rewrite (SFcompare_antisym (Prim2SF b) (Prim2SF a)), E in H.
  simpl in H. destruct H; discriminate.
Qed.

Lemma flt_not_fle a b : flt a b = true -> fle b a = false.
Proof.
  intros H. destruct (fle b a) eqn:E; [| reflexivity].
  apply fle_not_flt in E. congruence.
Qed.

(** Two numbers are comparable. *)
Lemma fle_total a b :
  fle a a = true -> fle b b = true -> flt a b = false -> fle b a = true.
Proof.
  rewrite !fle_refl_spec. intros Ha Hb Hlt.
  pose proof (SFcompare_defined _ _ Ha Hb) as Hd.
  apply fle_spec. rewrite (SFcompare_antisym (Prim2SF a) (Prim2SF b)).
  destruct (SFcompare (Prim2SF a) (Prim2SF b)) as [[]|] eqn:E; simpl; auto.
  - apply flt_spec in E. congruence.
  - congruence.
Qed.

Lemma flt_is_number_r a b : flt a b = true -> fle b b = true.
Proof.
  rewrite flt_spec, fle_refl_spec.
  sf_cases (Prim2SF a); sf_cases (Prim2SF b); sf_solve.
Qed.

Lemma fle_is_number_l a b : fle a b = true -> fle a a = true.
Proof.
  rewrite fle_spec, fle_refl_spec.
  sf_cases (Prim2SF a); sf_cases (Prim2SF b); sf_solve; destruct H; congruence.
Qed.

Lemma fle_is_number_r a b : fle a b = true -> fle b b = true.
Proof.
  rewrite fle_spec, fle_refl_spec.
  sf_cases (Prim2SF a); sf_cases (Prim2SF b); sf_solve; destruct H; congruence.
Qed.

(** ** Events and outcome of composed computations *)

Lemma events_bind {A B} (c : Run A) (k : A -> Run B) :
  events (bind c k)
  = (events c ++ match outcome c with
                 | inr a => events (k a)
                 | inl _ => []
                 end)%list.
Proof.
  destruct c as [es [e | a]]; simpl.
  - now rewrite app_nil_r.
  - now destruct (k a).
Qed.

Lemma outcome_bind {A B} (c : Run A) (k : A -> Run B) :
  outcome (bind c k)
  = match outcome c with
    | inr a => outcome (k a)
    | inl e => inl e
    end.
Proof.
  destruct c as [es [e | a]]; simpl; [reflexivity |]. now destruct (k a).
Qed.

Lemma bind_ok {A B} (c : Run A) (k : A -> Run B) es a :
  c = (es, inr a) -> bind c k = ((es ++ events (k a))%list, outcome (k a)).
Proof. intros ->. simpl. now destruct (k a). Qed.

Lemma bind_err {A B} (c : Run A) (k : A -> Run B) es e :
  c = (es, inl e) -> bind c k = (es, inl e).
Proof. now intros ->. Qed.

Lemma never_ret {A} p (a : A) : never p (ret a).
Proof. constructor. Qed.

Lemma never_raise {A} p e : never p (@raise A e).
Proof. constructor. Qed.

Lemma never_emit p ev : p ev = false -> never p (emit ev).
Proof. intros H. repeat constructor. exact H. Qed.

Lemma never_call {A} p ev (r : exn + A) : p ev = false -> never p (call ev r).
Proof. intros H. repeat constructor. exact H. Qed.

Lemma never_bind {A B} p (c : Run A) (k : A -> Run B) :
  never p c -> (forall a, outcome c = inr a -> never p (k a)) ->
  never p (bind c k).
Proof.
  unfold never. intros Hc Hk. rewrite events_bind. apply Forall_app. split.
  - exact Hc.
  - destruct (outcome c); [constructor | now apply Hk].
Qed.

Lemma fails_raise {A} e : fails (@raise A e).
Proof. now exists e. Qed.

Lemma fails_bind {A B} (c : Run A) (k : A -> Run B) :
  (forall a, outcome c = inr a -> fails (k a)) -> fails (bind c k).
Proof.
  intros H. unfold fails. rewrite outcome_bind.
  destruct (outcome c) as [e | a]; [now exists e | now apply H].
Qed.

Lemma fails_bind_l {A B} (c : Run A) (k : A -> Run B) :
  fails c -> fails (bind c k).
Proof. intros [e He]. exists e. rewrite outcome_bind, He. reflexivity. Qed.

Lemma never_when p b c : never p c -> never p (when b c).
Proof. destruct b; [auto | intros; apply never_ret]. Qed.

Lemma never_when_some {A} p (o : option A) c : never p c -> never p (when_some o c).
Proof. destruct o; [auto | intros; apply never_ret]. Qed.

Lemma never_stat p k s : never p (stat k s).
Proof. unfold stat. destruct (dict_get k s); constructor. Qed.

Lemma never_py_len p d : never p (py_len d).
Proof. destruct d; constructor. Qed.

Lemma never_read_global {A} p n (v : option A) : never p (read_global n v).
Proof. destruct v; constructor. Qed.

Lemma never_read_local {A} p n (v : option A) : never p (read_local n v).
Proof. destruct v; constructor. Qed.

Lemma never_logger_info p lg msg :
  (forall m, p (EvLog m) = false) -> never p msg -> never p (logger_info lg msg).
Proof.
  intros Hp Hm. destruct lg; simpl; [| constructor].
  apply never_bind; [exact Hm | intros; apply never_emit, Hp].
Qed.

Lemma never_for_each {X S} p (body : X -> S -> Run S) xs :
  (forall x s, never p (body x s)) -> forall s, never p (for_each body xs s).
Proof.
  intros Hb. induction xs as [| x xs IH]; intros s; simpl.
  - apply never_ret.
  - apply never_bind; [apply Hb | intros; apply IH].
Qed.

Ltac never_step :=
  match goal with
  | H : outcome _ = inr _ |- _ => solve [simpl in H; discriminate H]
  | |- never _ (let _ := _ in _) => cbv zeta
  | |- never _ (bind _ _) => apply never_bind; [| intros ? ?]
  | |- never _ (ret _) => apply never_ret
  | |- never _ (raise _) => apply never_raise
  | |- never _ (emit _) => apply never_emit; reflexivity
  | |- never _ (call _ _) => apply never_call; reflexivity
  | |- never _ (when _ _) => apply never_when
  | |- never _ (when_some _ _) => apply never_when_some
  | |- never _ (logger_info _ _) =>
      apply never_logger_info; [intros; reflexivity |]
  | |- never _ (stat _ _) => apply never_stat
  | |- never _ (py_len _) => apply never_py_len
  | |- never _ (read_global _ _) => apply never_read_global
  | |- never _ (read_local _ _) => apply never_read_local
  | |- never _ (match ?x with _ => _ end) => destruct x
  end.

Ltac fails_step :=
  match goal with
  | H : outcome _ = inr _ |- _ => solve [simpl in H; discriminate H]
  | |- fails (let _ := _ in _) => cbv zeta
  | |- fails (raise _) => apply fails_raise
  | |- fails (bind _ _) => apply fails_bind; intros ? ?
  end.

Ltac never_tac := repeat never_step.

Lemma prepare_quiet C args p :
  p (EvCreateLogger (output_dir args)) = false ->
  (forall b, p (EvBuildDataset b) = false) ->
  (forall d, p (EvMkdir d) = false) ->
  (forall w, p (EvTensorboard w) = false) ->
  (forall w, p (EvWandb w) = false) ->
  never p (prepare C args).
Proof.
  intros H1 H2 H3 H4 H5. unfold prepare.
  repeat first [ never_step | apply never_emit; auto | apply never_call; auto ].
Qed.

(** ** What the phases before the loop do *)

Lemma prepare_result C args a env :
  outcome (prepare C args) = inr (a, env) ->
  (exists nb, a = after_prepare nb args)
  /\ logger env = (if eval args then None else Some (mkLogger (output_dir args)))
  /\ (exists ld, data_loader_val env = Some ld
                 /\ ld_dataset ld = dataset_val env)
  /\ (disable_eval args = true -> dataset_val env = None).
Proof.
  unfold prepare, after_prepare, call.
  destruct (cuda_is_available C); [| discriminate].
  destruct (build_dataset C true args) as [e | [dtr nb]] eqn:Etr;
    [destruct (eval args); discriminate |].
  destruct (eval args), (disable_eval args) eqn:Ede; simpl; rewrite ?Ede; simpl.
  all: try (destruct (build_dataset C false (set_nb_classes nb args))
              as [e | [dv nb']]; simpl; [discriminate |]).
  all: destruct (log_dir args); simpl; destruct (enable_wandb args); simpl.
  all: intros H; inversion H; subst; clear H; simpl.
  all: repeat split; eauto; try discriminate.
Qed.

Lemma after_prepare_keeps nb args :
  let a := after_prepare nb args in
  eval a = eval args /\ layer_decay a = layer_decay args
  /\ model a = model args /\ save_ckpt a = save_ckpt args
  /\ output_dir a = output_dir args.
Proof. unfold after_prepare. destruct (disable_eval args); simpl; auto. Qed.

Lemma select_model_key_quiet lg checkpoint keys p :
  (forall m, p (EvLog m) = false) ->
  never p (select_model_key lg checkpoint keys).
Proof.
  intros Hp. induction keys as [| k keys IH]; simpl.
  - apply never_ret.
  - destruct (checkpoint !! k); [| exact IH].
    apply never_bind; [| intros; apply never_ret].
    apply never_logger_info; [exact Hp | apply never_ret].
Qed.

Lemma drop_mismatched_quiet state k cm p : never p (drop_mismatched state k cm).
Proof.
  unfold drop_mismatched, entry_shape.
  destruct cm; try apply never_raise.
  destruct (d !! k) as [v |]; [| apply never_ret].
  destruct v; simpl; try apply never_raise.
  destruct (state !! k); simpl; [| apply never_raise].
  destruct (bool_decide _); apply never_ret.
Qed.

Lemma init_model_quiet load C G lg args p :
  (forall m, p (EvLog m) = false) ->
  (forall n, p (EvBuildModel n) = false) ->
  (forall s, p (EvTorchLoad s) = false) ->
  (forall t s, p (EvLoadStateDict t s) = false) ->
  never p (init_model load C G lg args).
Proof.
  intros H1 H2 H3 H4. unfold init_model, load_foreign_weights.
  destruct (String.eqb _ _); [| apply never_ret].
  apply never_bind; [apply never_call, H2 | intros m _].
  apply never_bind; [| intros; apply never_ret].
  apply never_bind; [apply never_call, H3 | intros ck _].
  apply never_bind; [apply select_model_key_quiet, H1 | intros found _].
  apply never_bind; [apply drop_mismatched_quiet | intros cm1 _].
  apply never_bind; [apply drop_mismatched_quiet | intros cm2 _].
  apply never_bind; [apply never_call, H4 | intros; apply never_ret].
Qed.

Lemma setup_without_assigner C G env args :
  layer_decay_assigner args = None ->
  never is_optimizer (setup C G env args) /\ fails (setup C G env args).
Proof.
  intros H. unfold setup. rewrite H. split.
  - repeat never_step.
  - repeat fails_step.
Qed.

(** ** C3: layer decay 1.0 *)

Lemma assigner_unbound_at_one nb args :
  layer_decay args = 1%float -> layer_decay_assigner (after_prepare nb args) = None.
Proof.
  intros Hld. destruct (after_prepare_keeps nb args) as (_ & Hl & _).
  unfold layer_decay_assigner. rewrite Hl, Hld. reflexivity.
Qed.

(** C3 (the code departs from the claim). The claim says that with a
    layer-decay rate of exactly 1.0 the optimizer is still constructed,
    without an assigner. In [main] no assignment to [assigner] is executed
    for that rate, so reading it for the call of [create_optimizer] raises
    [UnboundLocalError]: every such run ends in an exception and never
    constructs an optimizer. *)
Theorem layer_decay_one_is_an_error_path load C G args :
  layer_decay args = 1%float ->
  never is_optimizer (main load C G args) /\ fails (main load C G args).
Proof.
  intros Hld. unfold main. split.
  - apply never_bind; [apply prepare_quiet; reflexivity |].
    intros [a env] Hp. cbv zeta. simpl fst. simpl snd.
    destruct (prepare_result C args a env Hp) as [[nb ->] _].
    apply never_bind; [apply init_model_quiet; reflexivity |].
    intros G' _.
    destruct (setup_without_assigner C G' env (after_prepare nb args))
      as [Hs [e He]]; [now apply assigner_unbound_at_one |].
    apply never_bind; [exact Hs |].
    intros asu Hasu. congruence.
  - apply fails_bind. intros [a env] Hp. cbv zeta. simpl fst. simpl snd.
    destruct (prepare_result C args a env Hp) as [[nb ->] _].
    apply fails_bind. intros G' _.
    apply fails_bind_l.
    now apply setup_without_assigner, assigner_unbound_at_one.
Qed.

(** The configuration of the example with a layer decay of exactly 1.0:
    the run stops at line 144, before any optimizer exists. *)
Lemma layer_decay_one_is_an_error_path_witness :
  let args := demo_with false false true "convnext_base" 1%float in
  let run := main utils_load_state_dict (demo_collab demo_acc) patched_globals args in
  (never is_optimizer run /\ fails run)
  /\ outcome run = inl (UnboundLocalError "assigner").
Proof.
  split.
  - apply (layer_decay_one_is_an_error_path utils_load_state_dict
             (demo_collab demo_acc) patched_globals
             (demo_with false false true "convnext_base" 1%float)).
    reflexivity.
  - vm_compute. reflexivity.
Defined.

(** ** C5: unsupported model identifier *)

(** C5 (the code departs from the claim). The claim says that a model
    identifier other than ['convnext_base'] raises a configuration error
    at once. Line 108 builds the [ValueError] and drops it: the model phase
    returns normally and leaves the namespace as it found it, and [main]
    goes on to [model.to(device)]. When the datasets were built and no
    global [model] is bound (the case of the [__main__] block), the run
    ends there with [NameError], not with the configuration error. *)
Theorem unsupported_model_is_not_rejected load C G lg args :
  String.eqb (model args) "convnext_base" = false ->
  init_model load C G lg args = ret G
  /\ (forall a env, outcome (prepare C args) = inr (a, env) ->
      g_model G = None ->
      outcome (main load C G args) = inl (NameError "model")).
Proof.
  intros Hm. split.
  - unfold init_model. now rewrite Hm.
  - intros a env Hp HG. unfold main. rewrite outcome_bind, Hp.
    cbv zeta. simpl fst. simpl snd.
    destruct (prepare_result C args a env Hp) as [[nb ->] _].
    destruct (after_prepare_keeps nb args) as (_ & _ & Hmodel & _).
    unfold init_model. rewrite Hmodel, Hm.
    rewrite outcome_bind. cbn [outcome ret snd].
    rewrite outcome_bind. unfold setup. rewrite outcome_bind, HG. reflexivity.
Qed.

(** With ['resnet50'] the [__main__] run builds both datasets and then
    stops on the unbound global. *)
Lemma unsupported_model_is_not_rejected_witness :
  let args := demo_with false false true "resnet50" 0.75%float in
  let C := demo_collab demo_acc in
  init_model utils_load_state_dict C module_globals (Some (mkLogger "out")) args
  = ret module_globals
  /\ outcome (main utils_load_state_dict C module_globals args)
     = inl (NameError "model")
  /\ events (main utils_load_state_dict C module_globals args)
     = [EvCreateLogger "out"; EvBuildDataset true; EvBuildDataset false].
Proof.
  pose proof (unsupported_model_is_not_rejected utils_load_state_dict
                (demo_collab demo_acc) module_globals (Some (mkLogger "out"))
                (demo_with false false true "resnet50" 0.75%float)
                eq_refl) as [H1 H2].
  split; [exact H1 |]. split.
  - eapply H2; reflexivity.
  - vm_compute. reflexivity.
Defined.

(** ** C2: evaluation-only mode *)

Lemma setup_without_logger C G env args :
  logger env = None -> fails (setup C G env args).
Proof.
  intros H. unfold setup. rewrite H.
  repeat (fails_step || apply fails_bind_l).
Qed.

Lemma setup_trains_nothing C G env args :
  never is_train (setup C G env args) /\ never is_save (setup C G env args)
  /\ never is_evaluate (setup C G env args).
Proof. unfold setup. repeat split; repeat never_step. Qed.

Lemma setup_returns_after_optimizer C G env args r :
  outcome (setup C G env args) = inr r ->
  existsb is_optimizer (events (setup C G env args)) = true
  /\ length (List.filter is_scheduler (events (setup C G env args))) = 2%nat.
Proof.
  unfold setup, read_global, read_local, logger_info, call.
  destruct (g_model G); [| discriminate].
  destruct (weight_decay_end args) eqn:Ew; cbv zeta; cbn [weight_decay_end set_weight_decay_end];
    rewrite ?Ew.
  all: destruct (model_ema args), (logger env); simpl; try discriminate.
  all: destruct (_ =? 0); simpl; try discriminate.
  all: destruct (layer_decay_assigner args); simpl; try discriminate.
  all: destruct (create_optimizer C args _) as [e | []]; simpl; try discriminate.
  all: destruct (g_mixup_fn G); simpl; try discriminate.
  all: destruct (auto_load_model C _); simpl; try discriminate.
  all: intros _; split; reflexivity.
Qed.

(** What lines 174-183 do when a logger exists. *)
Lemma eval_only_with_logger C env su args lg art d ts ds a :
  logger env = Some lg ->
  torch_load C ("checkpoint/" +:+ dataset args +:+ ".pth") = inr art ->
  art !! "model" = Some (ETable d) ->
  model_load_state_dict C
    (filter (fun kv => is_Some (weights (the_model su) !! fst kv)) d) = inr tt ->
  evaluate C (data_loader_val env) Primary None = inr ts ->
  dataset_val env = Some ds ->
  dict_get "acc1" ts = Some a ->
  eval_only C env su args
  = ([EvLog MsgEvalOnly;
      EvTorchLoad ("checkpoint/" +:+ dataset args +:+ ".pth");
      EvModelLoadStateDict
        (filter (fun kv => is_Some (weights (the_model su) !! fst kv)) d);
      EvEvaluate Primary None;
      EvLog (MsgEvalAccuracy (ds_len ds) a)], inr tt).
Proof.
  intros Hlg Hload Hm Hmls Hev Hds Hacc.
  unfold eval_only, logger_info, call, stat, py_len.
  rewrite Hlg, Hload. cbn [bind ret emit app]. rewrite Hm.
  cbn [bind ret emit app]. rewrite Hmls, Hev. cbn [bind ret emit app].
  rewrite Hds, Hacc. reflexivity.
Qed.

Lemma eval_mode_stops_in_setup load C G args (p : event -> bool) :
  eval args = true ->
  never p (prepare C args) ->
  (forall G' lg a, never p (init_model load C G' lg a)) ->
  (forall G' env a, never p (setup C G' env a)) ->
  never p (main load C G args).
Proof.
  intros He Hp Hi Hs. unfold main.
  apply never_bind; [exact Hp |].
  intros [a env] Hout. cbv zeta. simpl fst. simpl snd.
  destruct (prepare_result C args a env Hout) as (_ & Hlg & _).
  rewrite He in Hlg.
  apply never_bind; [apply Hi |]. intros G' _.
  apply never_bind; [apply Hs |]. intros asu Hasu.
  destruct (setup_without_logger C G' env a Hlg) as [e Hf]. congruence.
Qed.

(** C2 (amended). With [args.eval] true the controller runs no training
    pass and writes no checkpoint. The evaluation-only branch (lines
    174-183) is entered only after [setup] has returned, and a normal
    return of [setup] means that the optimizer was constructed and both
    schedules were generated: evaluation-only mode does not skip them. Run
    with a logger, the branch loads ['checkpoint/<dataset>.pth'], keeps of
    its ['model'] table the keys present in the current model, loads them,
    evaluates once and logs one accuracy figure. *)
Theorem eval_only_mode_amended :
  (forall load C G args, eval args = true ->
     never is_train (main load C G args) /\ never is_save (main load C G args))
  /\ (forall C G env args r, outcome (setup C G env args) = inr r ->
        existsb is_optimizer (events (setup C G env args)) = true
        /\ length (List.filter is_scheduler (events (setup C G env args))) = 2%nat)
  /\ (forall C env su args lg art d ts ds a,
        logger env = Some lg ->
        torch_load C ("checkpoint/" +:+ dataset args +:+ ".pth") = inr art ->
        art !! "model" = Some (ETable d) ->
        model_load_state_dict C
          (filter (fun kv => is_Some (weights (the_model su) !! fst kv)) d)
          = inr tt ->
        evaluate C (data_loader_val env) Primary None = inr ts ->
        dataset_val env = Some ds ->
        dict_get "acc1" ts = Some a ->
        eval_only C env su args
        = ([EvLog MsgEvalOnly;
            EvTorchLoad ("checkpoint/" +:+ dataset args +:+ ".pth");
            EvModelLoadStateDict
              (filter (fun kv => is_Some (weights (the_model su) !! fst kv)) d);
            EvEvaluate Primary None;
            EvLog (MsgEvalAccuracy (ds_len ds) a)], inr tt)).
Proof.
  split; [| split].
  - intros load C G args He. split.
    + apply eval_mode_stops_in_setup; try assumption.
      * apply prepare_quiet; reflexivity.
      * intros. apply init_model_quiet; reflexivity.
      * intros. apply setup_trains_nothing.
    + apply eval_mode_stops_in_setup; try assumption.
      * apply prepare_quiet; reflexivity.
      * intros. apply init_model_quiet; reflexivity.
      * intros. apply setup_trains_nothing.
  - intros. eapply setup_returns_after_optimizer; eassumption.
  - intros. eapply eval_only_with_logger; eassumption.
Qed.

(** C2 (counterexample). An evaluation-only run in which the optimizer is
    constructed; the claim says none is. (The run then ends at line 149:
    [logger] is [None] in this mode.) *)
Lemma eval_only_run_builds_optimizer :
  eval (demo_with true false true "convnext_base" 0.75%float) = true
  /\ existsb is_optimizer (events demo_eval_run) = true
  /\ outcome demo_eval_run = inl (AttributeError "info").
Proof. vm_compute. repeat split. Qed.

(** The evaluation-only example: no training and no save, an optimizer
    and two schedules in [setup], and the branch itself run with a logger. *)
Lemma eval_only_mode_amended_witness :
  (never is_train demo_eval_run /\ never is_save demo_eval_run)
  /\ (existsb is_optimizer
        (events (setup (demo_collab demo_acc) demo_globals demo_env demo_args))
      = true
      /\ length (List.filter is_scheduler
           (events (setup (demo_collab demo_acc) demo_globals demo_env demo_args)))
         = 2%nat)
  /\ outcome (eval_only (demo_collab demo_acc) demo_env demo_setup
                (demo_with true false true "convnext_base" 0.75%float))
     = inr tt.
Proof.
  destruct eval_only_mode_amended as (H1 & H2 & H3).
  split; [| split].
  - apply H1. reflexivity.
  - eapply H2. vm_compute. reflexivity.
  - erewrite H3; reflexivity.
Defined.

(** ** C6: the configuration snapshot *)

Lemma in_events_bind {A B} (c : Run A) (k : A -> Run B) ev :
  In ev (events (bind c k)) ->
  In ev (events c) \/ exists a, outcome c = inr a /\ In ev (events (k a)).
Proof.
  rewrite events_bind, in_app_iff. intros [H | H]; [now left |].
  destruct (outcome c) as [e | a]; [destruct H |]. right. eauto.
Qed.

Lemma never_not_in {A} p (c : Run A) ev :
  never p c -> In ev (events c) -> p ev = false.
Proof.
  unfold never. rewrite Stdlib.Lists.List.Forall_forall.
  intros H Hin. exact (H ev Hin).
Qed.

Ltac unfold_loop :=
  unfold training_stage, epoch_loop, epoch_body, evaluate_and_record,
    evaluate_branch, track_best, track_best_ema, save_periodic.

Lemma epoch_body_no_config C G env su args e st :
  never is_auto_load (epoch_body C G env su args e st)
  /\ never is_snapshot (epoch_body C G env su args e st).
Proof. unfold_loop. split; repeat never_step. Qed.

Lemma training_stage_no_config C G env su args :
  never is_auto_load (training_stage C G env su args)
  /\ never is_snapshot (training_stage C G env su args).
Proof.
  unfold training_stage, epoch_loop. split.
  - repeat (never_step || (apply never_for_each; intros; apply epoch_body_no_config)).
  - repeat (never_step || (apply never_for_each; intros; apply epoch_body_no_config)).
Qed.

Lemma eval_only_no_config C env su args :
  never is_auto_load (eval_only C env su args)
  /\ never is_snapshot (eval_only C env su args).
Proof. unfold eval_only. split; repeat never_step. Qed.

Lemma setup_auto_load C G env a0 a :
  In (EvAutoLoadModel a) (events (setup C G env a0)) -> a = default_wd_end a0.
Proof.
  unfold setup, default_wd_end, read_global, read_local, logger_info, call.
  destruct (g_model G); [| intros []].
  destruct (weight_decay_end a0) eqn:Ew; cbv zeta;
    cbn [weight_decay_end set_weight_decay_end]; rewrite ?Ew.
  all: destruct (model_ema a0), (logger env); simpl.
  all: try (destruct (_ =? 0); simpl).
  all: try (destruct (layer_decay_assigner a0); simpl).
  all: try (destruct (create_optimizer C a0 _) as [e | []]; simpl).
  all: try (destruct (g_mixup_fn G); simpl).
  all: try (destruct (auto_load_model C _); simpl).
  all: intros H; repeat (destruct H as [H | H]; [try discriminate H |]);
    try contradiction; try (injection H as <-; reflexivity).
Qed.

Lemma frame_after_writes nb args k :
  ~ In k written_by_main ->
  dict_get k (args_dict (default_wd_end (after_prepare nb args)))
  = dict_get k (args_dict args).
Proof.
  intros Hk. unfold default_wd_end, after_prepare.
  destruct (disable_eval args) eqn:Ed;
    cbn [weight_decay_end set_dist_eval set_nb_classes];
    destruct (weight_decay_end args) eqn:Ew.
  all: unfold args_dict; cbn -[String.eqb].
  all: repeat match goal with
       | |- context [String.eqb ?x ?s] =>
           destruct (String.eqb_spec x s);
           [subst; try reflexivity; exfalso; apply Hk; simpl; tauto |]
       end.
  all: reflexivity.
Qed.

Lemma setup_no_snapshot C G env a : never is_snapshot (setup C G env a).
Proof. unfold setup. repeat never_step. Qed.

Lemma main_no_snapshot load C G args : never is_snapshot (main load C G args).
Proof.
  unfold main.
  apply never_bind; [apply prepare_quiet; reflexivity |].
  intros [a env] _. cbv zeta.
  apply never_bind; [apply init_model_quiet; reflexivity |]. intros G' _.
  apply never_bind; [apply setup_no_snapshot |]. intros [a' su] _.
  simpl fst. simpl snd. destruct (eval a').
  - apply eval_only_no_config.
  - apply never_bind; [apply training_stage_no_config | intros; apply never_ret].
Qed.

Lemma main_auto_load_args load C G args a :
  In (EvAutoLoadModel a) (events (main load C G args)) ->
  exists nb, a = default_wd_end (after_prepare nb args).
Proof.
  unfold main. intros H.
  apply in_events_bind in H as [H | ([a0 env] & Hp & H)].
  { apply (never_not_in is_auto_load) in H; [discriminate |].
    apply prepare_quiet; reflexivity. }
  cbv zeta in H. simpl fst in H. simpl snd in H.
  destruct (prepare_result C args a0 env Hp) as [[nb ->] _].
  exists nb.
  apply in_events_bind in H as [H | (G' & _ & H)].
  { apply (never_not_in is_auto_load) in H; [discriminate |].
    apply init_model_quiet; reflexivity. }
  apply in_events_bind in H as [H | ([a' su] & _ & H)].
  { now apply setup_auto_load in H. }
  simpl fst in H. simpl snd in H. exfalso.
  destruct (eval a').
  - apply (never_not_in is_auto_load) in H; [discriminate |].
    apply eval_only_no_config.
  - apply (never_not_in is_auto_load) in H; [discriminate |].
    apply never_bind; [apply training_stage_no_config | intros; apply never_ret].
Qed.

(** C6 (amended). The configuration is dumped to [config.txt] once, by the
    [__main__] block, before [main] runs and after [output_dir] was
    extended by ['<dataset>_<tag>']; [main] writes no snapshot. [main]
    then assigns three attributes of [args]: [nb_classes] (from the
    dataset builder), [dist_eval] (when evaluation is disabled) and
    [weight_decay_end] (defaulted to [weight_decay] when [None]). On every
    other attribute the [args] that [main] hands to [auto_load_model],
    after all of its own writes, agrees with the [args] it was called
    with, hence with the snapshot. *)
Theorem config_snapshot_amended :
  (forall load C args,
     exists pre,
       events (script load C args)
       = (pre ++ EvConfigSnapshot
                   (os_path_join (output_dir (args_for_main args)) "config.txt")
                   (args_dict (args_for_main args))
              :: events (main load C module_globals (args_for_main args)))%list
       /\ Forall (fun ev => is_snapshot ev = false) pre
       /\ never is_snapshot (main load C module_globals (args_for_main args)))
  /\ (forall load C G args a,
        In (EvAutoLoadModel a) (events (main load C G args)) ->
        forall k, ~ In k written_by_main ->
                  dict_get k (args_dict a) = dict_get k (args_dict args)).
Proof.
  split.
  - intros load C args. unfold script. fold (args_for_main args).
    set (a := args_for_main args).
    exists (if str_truthy (output_dir a) then [EvMkdir (output_dir a)] else []).
    split; [| split].
    + rewrite !events_bind. destruct (str_truthy (output_dir a)); reflexivity.
    + destruct (str_truthy (output_dir a)); repeat constructor.
    + apply main_no_snapshot.
  - intros load C G args a H k Hk.
    destruct (main_auto_load_args load C G args a H) as [nb ->].
    now apply frame_after_writes.
Qed.

Ltac in_list := repeat first [left; reflexivity | right].

(** C6 (counterexample). A run from the [__main__] block: the snapshot
    records [weight_decay_end : None] and [nb_classes : 1000], while the
    controller then builds the model with 200 classes and generates the
    weight-decay schedule with end value 0.125. *)
Lemma snapshot_differs_from_used_values :
  let evs := events (script utils_load_state_dict (demo_collab demo_acc) demo_args) in
  In (EvConfigSnapshot "out/cub_run/config.txt" (args_dict (args_for_main demo_args))) evs
  /\ dict_get "weight_decay_end" (args_dict (args_for_main demo_args)) = Some VNone
  /\ dict_get "nb_classes" (args_dict (args_for_main demo_args)) = Some (VInt 1000)
  /\ In (EvBuildModel 200) evs
  /\ In (EvCosineScheduler 0.125 0.125 (Some 3) (Some 8) None None) evs.
Proof.
  cbv zeta. split; [| split; [| split; [| split]]].
  - vm_compute. in_list.
  - vm_compute. reflexivity.
  - vm_compute. reflexivity.
  - vm_compute. in_list.
  - vm_compute. in_list.
Qed.

(** The example run from the [__main__] block: the snapshot goes to
    [out/cub_run/config.txt], and [lr] is as it was configured. *)
Lemma config_snapshot_amended_witness :
  (exists pre,
     events (script utils_load_state_dict (demo_collab demo_acc) demo_args)
     = (pre ++ EvConfigSnapshot "out/cub_run/config.txt"
                 (args_dict (args_for_main demo_args))
            :: events (main utils_load_state_dict (demo_collab demo_acc)
                         module_globals (args_for_main demo_args)))%list)
  /\ dict_get "lr" (args_dict (default_wd_end (after_prepare 200 demo_args)))
     = dict_get "lr" (args_dict demo_args).
Proof.
  destruct config_snapshot_amended as [H1 H2]. split.
  - destruct (H1 utils_load_state_dict (demo_collab demo_acc) demo_args)
      as (pre & Hpre & _).
    exists pre. exact Hpre.
  - apply (H2 utils_load_state_dict (demo_collab demo_acc) patched_globals).
    + vm_compute. in_list.
    + intros [H | [H | [H | []]]]; discriminate H.
Defined.

(** ** C7: checkpoint cadence *)

Lemma when_some_emit_ok {A} (o : option A) ev :
  outcome (when_some o (emit ev)) = inr tt.
Proof. now destruct o. Qed.

Lemma save_periodic_events C args e :
  (save_enabled args = true -> save_ckpt_freq args <> 0) ->
  events (save_periodic C args e)
  = if save_enabled args && checkpoint_due args e
    then [EvSaveModel (TagEpoch e)] else [].
Proof.
  intros Hf. unfold save_periodic, when, checkpoint_due.
  destruct (save_enabled args); [| reflexivity].
  destruct (Z.eqb_spec (save_ckpt_freq args) 0) as [E | _];
    [now destruct Hf |].
  simpl. destruct (_ || _); reflexivity.
Qed.

Lemma evaluate_and_record_after_training C G env su args e ts st :
  never train_or_epoch_save (evaluate_and_record C G env su args e ts st).
Proof.
  unfold evaluate_and_record, evaluate_branch, track_best, track_best_ema.
  repeat never_step.
Qed.

(** C7 (amended). In every epoch [e] whose training pass returns, and with
    a non-zero [save_ckpt_freq] whenever checkpoint writing is enabled
    ([args.output_dir] non-empty and [args.save_ckpt] set): the controller
    saves the state tagged [e] if and only if checkpoint writing is enabled
    and [(e+1) mod save_freq == 0] or [e+1 == total_epochs]. The save comes
    directly after the training pass; before it the iteration has neither
    trained, saved nor evaluated, and after it the iteration (evaluation
    included) neither trains again nor writes another epoch-tagged
    checkpoint. With checkpoint writing disabled no epoch-tagged save
    occurs. *)
Theorem checkpoint_cadence_amended C G env su args e st ts :
  train_one_epoch C e = inr ts ->
  (save_enabled args = true -> save_ckpt_freq args <> 0) ->
  exists pre rest,
    events (epoch_body C G env su args e st)
    = (pre ++ [EvTrainOneEpoch e]
       ++ (if save_enabled args && checkpoint_due args e
           then [EvSaveModel (TagEpoch e)] else [])
       ++ rest)%list
    /\ Forall (fun ev => train_save_or_evaluate ev = false) pre
    /\ Forall (fun ev => train_or_epoch_save ev = false) rest.
Proof.
  intros Ht Hf. unfold epoch_body.
  exists (events (when_some (log_writer env) (emit (EvTensorboard "set_step")))
          ++ events (when_some (wandb_logger env) (emit (EvWandb "set_steps"))))%list.
  exists (match outcome (save_periodic C args e) with
          | inr _ => events (evaluate_and_record C G env su args e ts st)
          | inl _ => []
          end).
  split; [| split].
  - rewrite !events_bind, !when_some_emit_ok, Ht. cbn [outcome call snd events fst].
    rewrite events_bind, (save_periodic_events C args e Hf).
    now rewrite <- !app_assoc.
  - apply Forall_app. split.
    + destruct (log_writer env); repeat constructor.
    + destruct (wandb_logger env); repeat constructor.
  - destruct (outcome (save_periodic C args e)); [constructor |].
    apply evaluate_and_record_after_training.
Qed.

(** C7 (counterexample). Epoch 2 is the final epoch of a three-epoch run,
    so the cadence condition of the claim holds, yet with [save_ckpt] off
    the iteration writes no epoch-tagged checkpoint. *)
Lemma final_epoch_without_checkpoint :
  checkpoint_due (demo_with false false false "convnext_base" 0.75%float) 2 = true
  /\ List.filter is_epoch_save (events demo_unsaved_epoch) = []
  /\ outcome demo_unsaved_epoch
     = inr {| max_accuracy := 72; max_accuracy_ema := None |}.
Proof. vm_compute. split; [| split]; reflexivity. Qed.

(** Epoch 1 of the example ([save_ckpt_freq] 2): a checkpoint tagged 1
    right after the training pass. *)
Lemma checkpoint_cadence_amended_witness :
  exists pre rest,
    events (epoch_body (demo_collab demo_acc) patched_globals demo_env
              demo_setup demo_args 1
              {| max_accuracy := 70; max_accuracy_ema := None |})
    = (pre ++ [EvTrainOneEpoch 1] ++ [EvSaveModel (TagEpoch 1)] ++ rest)%list
    /\ Forall (fun ev => train_save_or_evaluate ev = false) pre
    /\ Forall (fun ev => train_or_epoch_save ev = false) rest.
Proof.
  apply (checkpoint_cadence_amended (demo_collab demo_acc) patched_globals
           demo_env demo_setup demo_args 1
           {| max_accuracy := 70; max_accuracy_ema := None |}
           [("loss", 2%float)]).
  - reflexivity.
  - intros _. discriminate.
Defined.

(** ** C10: the best-accuracy accumulators start at 0.0 *)

Lemma returns_ret {A} (Q : A -> Prop) a : Q a -> returns Q (ret a).
Proof. intros H b [= <-]. exact H. Qed.

Lemma returns_raise {A} (Q : A -> Prop) e : returns Q (raise e).
Proof. intros b [=]. Qed.

Lemma returns_bind {A B} (P : A -> Prop) (Q : B -> Prop) (c : Run A) k :
  returns P c -> (forall a, P a -> returns Q (k a)) -> returns Q (bind c k).
Proof.
  intros Hc Hk b. rewrite outcome_bind.
  destruct (outcome c) as [e | a] eqn:E; [discriminate |].
  apply Hk, Hc, E.
Qed.

Lemma returns_trivial {A} (c : Run A) : returns (fun _ => True) c.
Proof. now intros a _. Qed.

Lemma returns_outcome {A} (c : Run A) : returns (fun a => outcome c = inr a) c.
Proof. now intros a H. Qed.

Lemma returns_for_each {X S} (I : S -> Prop) (body : X -> S -> Run S) xs :
  (forall x s, I s -> returns I (body x s)) ->
  forall s, I s -> returns I (for_each body xs s).
Proof.
  intros Hb. induction xs as [| x xs IH]; intros s Hs; simpl.
  - now apply returns_ret.
  - eapply returns_bind; [apply Hb, Hs | intros s' Hs'; now apply IH].
Qed.

Lemma floor_inv_initial args : floor_inv (initial_state args).
Proof.
  split; [reflexivity |]. simpl. destruct (ema_eval_on args); intros m [=].
  subst. reflexivity.
Qed.

Lemma above_floor m a : fle 0 m = true -> flt m a = true -> fle 0 a = true.
Proof. intros H1 H2. apply flt_fle. eapply fle_flt_trans; eauto. Qed.

Lemma below_floor_no_record m a :
  fle 0 m = true -> fle a 0 = true -> flt m a = false.
Proof. intros H1 H2. apply fle_not_flt. eapply fle_trans; eauto. Qed.

Lemma stat_returns k s : returns (fun a => dict_get k s = Some a) (stat k s).
Proof.
  unfold stat. destruct (dict_get k s); [| apply returns_raise].
  now apply returns_ret.
Qed.

Lemma track_best_keeps_floor C G env args e ts st :
  floor_inv st -> returns floor_inv (track_best C G env args e ts st).
Proof.
  intros [H1 H2]. unfold track_best.
  eapply returns_bind; [apply stat_returns |]. intros a Ha. simpl.
  destruct (flt (max_accuracy st) a) eqn:E; [| now apply returns_ret].
  eapply returns_bind; [apply returns_trivial |]. intros _ _.
  eapply returns_bind; [apply returns_trivial |]. intros _ _.
  apply returns_ret. split; simpl; [| exact H2].
  eapply above_floor; eauto.
Qed.

Lemma track_best_ema_keeps_floor C env args ts st :
  floor_inv st -> returns floor_inv (track_best_ema C env args ts st).
Proof.
  intros [H1 H2]. unfold track_best_ema.
  eapply returns_bind.
  { instantiate (1 := fun cur => max_accuracy_ema st = Some cur).
    unfold read_local. destruct (max_accuracy_ema st);
      [now apply returns_ret | apply returns_raise]. }
  intros cur Hcur. simpl.
  eapply returns_bind; [apply stat_returns |]. intros a Ha. simpl.
  destruct (flt cur a) eqn:E; [| now apply returns_ret].
  eapply returns_bind; [apply returns_trivial |]. intros _ _.
  eapply returns_bind; [apply returns_trivial |]. intros _ _.
  apply returns_ret. split; simpl; [exact H1 |].
  intros m [= <-]. eapply above_floor; [apply (H2 cur Hcur) | exact E].
Qed.

Lemma epoch_body_keeps_floor C G env su args e st :
  floor_inv st -> returns floor_inv (epoch_body C G env su args e st).
Proof.
  intros Hst. unfold epoch_body, evaluate_and_record.
  eapply returns_bind; [apply returns_trivial |]. intros _ _.
  eapply returns_bind; [apply returns_trivial |]. intros _ _.
  eapply returns_bind; [apply returns_trivial |]. intros ts _.
  eapply returns_bind; [apply returns_trivial |]. intros _ _.
  eapply returns_bind.
  { instantiate (1 := fun r => floor_inv (fst r)).
    destruct (data_loader_val env); [| now apply returns_ret].
    unfold evaluate_branch.
    eapply returns_bind; [apply returns_trivial |]. intros tst _.
    eapply returns_bind; [apply returns_trivial |]. intros _ _.
    eapply returns_bind; [now apply track_best_keeps_floor |]. intros st1 Hst1.
    eapply returns_bind; [apply returns_trivial |]. intros acc1 _.
    eapply returns_bind; [apply returns_trivial |]. intros _ _.
    eapply returns_bind; [apply returns_trivial |]. intros _ _.
    eapply returns_bind; [apply returns_trivial |]. intros _ _.
    cbv zeta. destruct (ema_eval_on args); [| now apply returns_ret].
    eapply returns_bind; [apply returns_trivial |]. intros _ _.
    eapply returns_bind; [apply returns_trivial |]. intros tse _.
    eapply returns_bind; [now apply track_best_ema_keeps_floor |].
    intros st2 Hst2.
    eapply returns_bind; [apply returns_trivial |]. intros _ _.
    now apply returns_ret. }
  intros r Hr.
  eapply returns_bind; [apply returns_trivial |]. intros _ _.
  eapply returns_bind; [apply returns_trivial |]. intros _ _.
  now apply returns_ret.
Qed.

Lemma never_weaken {A} (p q : event -> bool) (c : Run A) :
  (forall ev, q ev = true -> p ev = true) -> never p c -> never q c.
Proof.
  intros Hpq. unfold never. apply Stdlib.Lists.List.Forall_impl. intros ev Hp.
  destruct (q ev) eqn:E; [| reflexivity]. apply Hpq in E. congruence.
Qed.

Lemma track_best_below_floor C G env args e ts st a :
  floor_inv st -> dict_get "acc1" ts = Some a -> fle a 0 = true ->
  track_best C G env args e ts st = ret st.
Proof.
  intros [H1 _] Ha Hle. unfold track_best, stat. rewrite Ha. simpl.
  now rewrite (below_floor_no_record _ _ H1 Hle).
Qed.

Lemma track_best_ema_below_floor C env args ts st a :
  floor_inv st -> dict_get "acc1" ts = Some a -> fle a 0 = true ->
  never is_save (track_best_ema C env args ts st).
Proof.
  intros [_ H2] Ha Hle. unfold track_best_ema, stat, read_local.
  destruct (max_accuracy_ema st) as [cur |] eqn:Ec; [| apply never_raise].
  rewrite Ha. simpl.
  rewrite (below_floor_no_record _ _ (H2 cur eq_refl) Hle). apply never_ret.
Qed.

Lemma track_best_only_best C G env args e ts st :
  never is_epoch_save (track_best C G env args e ts st)
  /\ never is_best_ema_save (track_best C G env args e ts st).
Proof. unfold track_best. split; repeat never_step. Qed.

Lemma track_best_ema_only_best_ema C env args ts st :
  never is_epoch_save (track_best_ema C env args ts st)
  /\ never is_best_save (track_best_ema C env args ts st).
Proof. unfold track_best_ema. split; repeat never_step. Qed.

Lemma call_returned {A} ev (r : exn + A) a x :
  r = inr x -> outcome (call ev r) = inr a -> a = x.
Proof. intros -> [= ->]. reflexivity. Qed.

Lemma epoch_no_best_save_below_floor C G env su args e st ts a :
  floor_inv st ->
  evaluate C (data_loader_val env) Primary (Some e) = inr ts ->
  dict_get "acc1" ts = Some a -> fle a 0 = true ->
  never is_best_save (epoch_body C G env su args e st).
Proof.
  intros Hst Hev Ha Hle. unfold epoch_body, save_periodic.
  repeat never_step.
  unfold evaluate_and_record. never_step; [| repeat never_step].
  unfold evaluate_branch.
  destruct (data_loader_val env) as [ld |] eqn:El; [| apply never_ret].
  apply never_bind; [apply never_call; reflexivity |]. intros ts' Hts'.
  apply (call_returned _ _ _ _ Hev) in Hts'. subst ts'.
  apply never_bind; [repeat never_step |]. intros _ _.
  rewrite (track_best_below_floor C G env args e ts st a Hst Ha Hle).
  repeat (never_step || apply track_best_ema_only_best_ema).
Qed.

Lemma epoch_no_best_ema_save_below_floor C G env su args e st ts a :
  floor_inv st ->
  evaluate C (data_loader_val env) Ema (Some e) = inr ts ->
  dict_get "acc1" ts = Some a -> fle a 0 = true ->
  never is_best_ema_save (epoch_body C G env su args e st).
Proof.
  intros Hst Hev Ha Hle. unfold epoch_body, save_periodic.
  repeat never_step.
  unfold evaluate_and_record. never_step; [| repeat never_step].
  unfold evaluate_branch.
  destruct (data_loader_val env) as [ld |] eqn:El; [| apply never_ret].
  apply never_bind; [apply never_call; reflexivity |]. intros tsp _.
  apply never_bind; [repeat never_step |]. intros _ _.
  apply never_bind; [apply track_best_only_best |]. intros st1 Hst1.
  apply (track_best_keeps_floor C G env args e tsp st Hst) in Hst1.
  apply never_bind; [repeat never_step |]. intros acc1 _.
  apply never_bind; [repeat never_step |]. intros _ _.
  apply never_bind; [repeat never_step |]. intros _ _.
  apply never_bind; [repeat never_step |]. intros _ _.
  cbv zeta. destruct (ema_eval_on args); [| apply never_ret].
  apply never_bind; [repeat never_step |]. intros _ _.
  apply never_bind; [apply never_call; reflexivity |]. intros ts' Hts'.
  apply (call_returned _ _ _ _ Hev) in Hts'. subst ts'.
  apply never_bind.
  { eapply never_weaken;
      [| exact (track_best_ema_below_floor C env args ts st1 a Hst1 Ha Hle)].
    intros ev Hq. destruct ev; try discriminate Hq; reflexivity. }
  intros st2 _. repeat never_step.
Qed.

Lemma epoch_loop_keeps_floor C G env su args es st :
  floor_inv st -> returns floor_inv (epoch_loop C G env su args es st).
Proof.
  intros Hst. unfold epoch_loop. apply returns_for_each; [| exact Hst].
  intros e s Hs. now apply epoch_body_keeps_floor.
Qed.

(** C10. Before the loop [max_accuracy] is 0.0 and [max_accuracy_ema] is
    0.0 whenever the EMA track exists (EMA evaluation on; otherwise the
    name is not bound and never read). Whatever the collaborators do,
    every state the loop reaches has both accumulators bounded below by
    0.0, and in the epoch that follows such a state an evaluation accuracy
    [<= 0.0] triggers no ["best"] save (primary model) and no ["best-ema"]
    save (EMA model) -- the first epoch included, where the state is the
    initial one. *)
Theorem accumulators_start_at_zero C G env su args :
  max_accuracy (initial_state args) = 0%float
  /\ max_accuracy_ema (initial_state args)
     = (if ema_eval_on args then Some 0%float else None)
  /\ (forall es st,
        outcome (epoch_loop C G env su args es (initial_state args)) = inr st ->
        floor_inv st
        /\ (forall e ts a,
              evaluate C (data_loader_val env) Primary (Some e) = inr ts ->
              dict_get "acc1" ts = Some a -> fle a 0 = true ->
              never is_best_save (epoch_body C G env su args e st))
        /\ (forall e ts a,
              evaluate C (data_loader_val env) Ema (Some e) = inr ts ->
              dict_get "acc1" ts = Some a -> fle a 0 = true ->
              never is_best_ema_save (epoch_body C G env su args e st))).
Proof.
  split; [reflexivity |]. split; [reflexivity |].
  intros es st Hst.
  assert (Hinv : floor_inv st).
  { eapply epoch_loop_keeps_floor; [apply floor_inv_initial | exact Hst]. }
  split; [exact Hinv |]. split.
  - intros e ts a. now apply epoch_no_best_save_below_floor.
  - intros e ts a. now apply epoch_no_best_ema_save_below_floor.
Qed.

(** A first epoch whose evaluations report 0.0, with the EMA track on. *)
Lemma accumulators_start_at_zero_witness :
  let C := demo_collab (fun _ => 0%float) in
  let body := epoch_body C patched_globals demo_env demo_ema_setup demo_ema_args 0
                (initial_state demo_ema_args) in
  floor_inv (initial_state demo_ema_args)
  /\ never is_best_save body /\ never is_best_ema_save body
  /\ outcome body = inr {| max_accuracy := 0; max_accuracy_ema := Some 0%float |}.
Proof.
  cbv zeta.
  destruct (accumulators_start_at_zero (demo_collab (fun _ => 0%float))
              patched_globals demo_env demo_ema_setup demo_ema_args)
    as (_ & _ & H).
  destruct (H [] (initial_state demo_ema_args) eq_refl) as (H1 & H2 & H3).
  split; [exact H1 |]. split; [| split].
  - eapply H2; reflexivity.
  - eapply H3; reflexivity.
  - vm_compute. reflexivity.
Defined.

(** ** C1: the best-model tracker *)

Lemma yields_ret {A} p (Q : A -> Prop) a : Q a -> yields p Q (ret a) [].
Proof. intros H. exists a. auto. Qed.

Lemma yields_emit p ev :
  yields p (fun _ => True) (emit ev) (if p ev then [ev] else []).
Proof. exists tt. simpl. destruct (p ev); auto. Qed.

Lemma yields_call {A} p (Q : A -> Prop) ev r a :
  r = inr a -> Q a -> yields p Q (call ev r) (if p ev then [ev] else []).
Proof. intros -> H. exists a. simpl. destruct (p ev); auto. Qed.

Lemma yields_bind {A B} p (P : A -> Prop) (Q : B -> Prop) c k l1 l2 :
  yields p P c l1 -> (forall a, P a -> yields p Q (k a) l2) ->
  yields p Q (bind c k) (l1 ++ l2)%list.
Proof.
  intros (a & Ha & HP & Hl) Hk. destruct (Hk a HP) as (b & Hb & HQ & Hl').
  exists b.
  rewrite outcome_bind, events_bind, Ha, Hb, Stdlib.Lists.List.filter_app, Hl, Hl'.
  auto.
Qed.

Lemma yields_bind_nil {A B} p (P : A -> Prop) (Q : B -> Prop) c k l :
  yields p P c [] -> (forall a, P a -> yields p Q (k a) l) ->
  yields p Q (bind c k) l.
Proof. intros Hc Hk. exact (yields_bind p P Q c k [] l Hc Hk). Qed.

Lemma yields_weaken {A} p (P Q : A -> Prop) c l :
  (forall a, P a -> Q a) -> yields p P c l -> yields p Q c l.
Proof. intros H (a & Ha & HP & Hl). exists a. auto. Qed.

Lemma yields_when p b c :
  yields p (fun _ => True) c [] -> yields p (fun _ => True) (when b c) [].
Proof. destruct b; [auto | intros; now apply yields_ret]. Qed.

Lemma yields_when_some {A} p (o : option A) c :
  yields p (fun _ => True) c [] -> yields p (fun _ => True) (when_some o c) [].
Proof. destruct o; [auto | intros; now apply yields_ret]. Qed.

Lemma yields_stat p k s v :
  dict_get k s = Some v -> yields p (fun a => a = v) (stat k s) [].
Proof. intros H. unfold stat. rewrite H. now apply yields_ret. Qed.

Lemma yields_logger_info {P} p lg msg :
  lg <> None -> (forall m, p (EvLog m) = false) ->
  yields p P msg [] ->
  yields p (fun _ => True) (logger_info lg msg) [].
Proof.
  intros Hlg Hp Hm. destruct lg as [l |]; [| congruence]. simpl.
  eapply yields_bind_nil; [exact Hm |]. intros m _.
  pose proof (yields_emit p (EvLog m)) as H. now rewrite Hp in H.
Qed.

Lemma yields_quiet_emit p ev :
  p ev = false -> yields p (fun _ => True) (emit ev) [].
Proof. intros H. pose proof (yields_emit p ev) as Hy. now rewrite H in Hy. Qed.

Lemma yields_quiet_call {A} p ev (r : exn + A) a :
  r = inr a -> p ev = false -> yields p (fun x => x = a) (call ev r) [].
Proof.
  intros Hr H. pose proof (yields_call p (fun x => x = a) ev r a Hr eq_refl) as Hy.
  now rewrite H in Hy.
Qed.

Lemma yields_forget {A} p (P : A -> Prop) c l :
  yields p P c l -> yields p (fun _ => True) c l.
Proof. apply yields_weaken. auto. Qed.

Section Nominal.

Variables (C : Collab) (G : Globals) (env : Env) (su : Setup) (args : Args).
Variable acc : Z -> pyfloat.
Hypothesis Hnom : nominal C G env su args acc.

Let p := train_or_best.

Lemma save_periodic_nominal e :
  yields p (fun _ => True) (save_periodic C args e) [].
Proof.
  unfold save_periodic. pose proof (nom_freq _ _ _ _ _ _ Hnom) as Hf.
  destruct (save_enabled args); [| now apply yields_ret].
  simpl. destruct (Z.eqb_spec (save_ckpt_freq args) 0) as [E | _];
    [now destruct Hf |].
  apply yields_when. eapply yields_forget, yields_quiet_call;
    [apply (nom_save _ _ _ _ _ _ Hnom) | reflexivity].
Qed.

Lemma track_best_nominal e ts st :
  dict_get "acc1" ts = Some (acc e) ->
  yields p
    (fun st' => max_accuracy st' = fmax (max_accuracy st) (acc e)
                /\ max_accuracy_ema st' = max_accuracy_ema st)
    (track_best C G env args e ts st)
    (if save_enabled args && flt (max_accuracy st) (acc e)
     then [EvSaveModel TagBest] else []).
Proof.
  intros Ha. unfold track_best, fmax.
  eapply yields_bind_nil; [apply yields_stat; exact Ha |]. intros a ->.
  destruct (flt (max_accuracy st) (acc e)).
  - rewrite andb_true_r.
    eapply (yields_bind_nil p (fun _ => True)).
    { destruct (nom_wandb _ _ _ _ _ _ Hnom) as [-> | Hw];
        [now apply (yields_ret p (fun _ => True)) |].
      apply yields_when_some. destruct (g_wandb G); [| congruence].
      eapply (yields_bind_nil p (fun _ => True));
        [now apply (yields_ret p (fun _ => True)) |].
      intros _ _. now apply yields_quiet_emit. }
    intros _ _.
    replace (if save_enabled args then [EvSaveModel TagBest] else [])
      with ((if save_enabled args then [EvSaveModel TagBest] else []) ++ [])%list
      by apply app_nil_r.
    eapply (yields_bind p (fun _ => True));
      [| intros _ _; now apply yields_ret].
    unfold when. destruct (save_enabled args);
      [| now apply (yields_ret p (fun _ => True))].
    exact (yields_call p (fun _ => True) (EvSaveModel TagBest) _ tt
             (nom_save _ _ _ _ _ _ Hnom TagBest) I).
  - rewrite andb_false_r. now apply yields_ret.
Qed.

Lemma track_best_ema_nominal ts st :
  max_accuracy_ema st <> None -> dict_get "acc1" ts <> None ->
  yields p
    (fun st' => max_accuracy st' = max_accuracy st
                /\ max_accuracy_ema st' <> None)
    (track_best_ema C env args ts st) [].
Proof.
  intros Hm Ha. unfold track_best_ema.
  destruct (max_accuracy_ema st) as [cur |] eqn:Ec; [| congruence].
  destruct (dict_get "acc1" ts) as [a |] eqn:Ea; [| congruence].
  eapply (yields_bind_nil p (fun x => x = cur));
    [now apply (yields_ret p (fun x => x = cur)) |].
  intros cur' Hcur'. cbv beta in Hcur'. subst cur'.
  eapply yields_bind_nil; [apply yields_stat; exact Ea |].
  intros a' Ha'. cbv beta in Ha'. subst a'.
  destruct (flt cur a).
  - eapply (yields_bind_nil p (fun _ => True)).
    { apply yields_when. eapply yields_forget, yields_quiet_call;
        [apply (nom_save _ _ _ _ _ _ Hnom) | reflexivity]. }
    intros _ _.
    eapply (yields_bind_nil p (fun _ => True)).
    { eapply yields_logger_info;
        [apply (nom_logger _ _ _ _ _ _ Hnom) | reflexivity
        | now apply (yields_ret p (fun _ => True))]. }
    intros _ _. apply yields_ret. simpl. split; [reflexivity | discriminate].
  - apply yields_ret. split; [reflexivity |]. rewrite Ec. discriminate.
Qed.

End Nominal.

Section NominalEpoch.

Variables (C : Collab) (G : Globals) (env : Env) (su : Setup) (args : Args).
Variable acc : Z -> pyfloat.
Hypothesis Hnom : nominal C G env su args acc.

Let p := train_or_best.
Let T {A} : A -> Prop := fun _ => True.

Lemma logger_info_nominal msg (P : log_msg -> Prop) :
  yields p P msg [] -> yields p T (logger_info (logger env) msg) [].
Proof.
  intros H. eapply yields_logger_info;
    [apply (nom_logger _ _ _ _ _ _ Hnom) | reflexivity | exact H].
Qed.

Lemma stat_then {A} k s v (f : pyfloat -> A) :
  dict_get k s = Some v ->
  yields p T (bind (stat k s) (fun a => ret (f a))) [].
Proof.
  intros H. eapply yields_bind_nil; [apply yields_stat; exact H |].
  intros a _. now apply yields_ret.
Qed.

Lemma stat_emit k s ev :
  dict_get k s <> None -> p ev = false ->
  yields p T (bind (stat k s) (fun _ => emit ev)) [].
Proof.
  intros H Hp. destruct (dict_get k s) as [v |] eqn:E; [| congruence].
  eapply yields_bind_nil; [apply yields_stat; exact E |].
  intros a _. now apply yields_quiet_emit.
Qed.

Lemma evaluate_branch_nominal e trs st :
  (ema_eval_on args = true -> max_accuracy_ema st <> None) ->
  yields p
    (fun r => max_accuracy (fst r) = fmax (max_accuracy st) (acc e)
              /\ (ema_eval_on args = true -> max_accuracy_ema (fst r) <> None))
    (evaluate_branch C G env su args e trs st)
    (if save_enabled args && flt (max_accuracy st) (acc e)
     then [EvSaveModel TagBest] else []).
Proof.
  intros Hema. unfold evaluate_branch.
  destruct (nom_eval _ _ _ _ _ _ Hnom e) as (ts & Hev & Ha1 & Ha5 & Hl).
  eapply yields_bind_nil; [eapply yields_quiet_call; [exact Hev | reflexivity] |].
  intros ts' Hts'. cbv beta in Hts'. subst ts'.
  eapply (yields_bind_nil p T);
    [eapply logger_info_nominal, stat_then, Ha1 |].
  intros _ _.
  match goal with |- yields _ _ _ ?l => rewrite <- (app_nil_r l) end.
  eapply yields_bind; [apply (track_best_nominal C G env su args acc Hnom), Ha1 |].
  intros st1 [Hmax Hkeep].
  eapply (yields_bind_nil p T); [eapply yields_forget, yields_stat, Ha1 |].
  intros acc1 _.
  eapply (yields_bind_nil p T).
  { eapply (logger_info_nominal _ T).
    destruct (dataset_val env) as [ds |] eqn:Ed;
      [| now destruct (nom_dataset _ _ _ _ _ _ Hnom)].
    eapply (yields_bind_nil p T); [now apply yields_ret |].
    intros n _. now apply yields_ret. }
  intros _ _.
  eapply (yields_bind_nil p T);
    [eapply (logger_info_nominal _ T); now apply yields_ret |].
  intros _ _.
  eapply (yields_bind_nil p T).
  { apply yields_when_some.
    eapply (yields_bind_nil p T); [eapply yields_forget, yields_stat, Ha1 |].
    intros _ _.
    eapply (yields_bind_nil p T); [now apply yields_quiet_emit |]. intros _ _.
    destruct (dict_get "acc5" ts) as [a5 |] eqn:E5; [| congruence].
    eapply (yields_bind_nil p T); [eapply yields_forget, yields_stat, E5 |].
    intros _ _.
    eapply (yields_bind_nil p T); [now apply yields_quiet_emit |]. intros _ _.
    now apply stat_emit. }
  intros _ _. cbv zeta.
  destruct (ema_eval_on args) eqn:Ee.
  - destruct (nom_ema _ _ _ _ _ _ Hnom Ee) as [Hobj Hee].
    destruct (Hee e) as (tse & Hevs & Hae).
    destruct (model_ema_obj su); [| congruence].
    eapply (yields_bind_nil p T); [now apply yields_ret |]. intros _ _.
    eapply yields_bind_nil;
      [eapply yields_quiet_call; [exact Hevs | reflexivity] |].
    intros ts' Hts'. cbv beta in Hts'. subst ts'.
    eapply yields_bind_nil.
    { apply (track_best_ema_nominal C G env su args acc Hnom);
        [rewrite Hkeep; now apply Hema | exact Hae]. }
    intros st2 [Hmax2 Hema2].
    eapply (yields_bind_nil p T);
      [apply yields_when_some; now apply stat_emit |].
    intros _ _. apply yields_ret. simpl. split; [congruence | auto].
  - apply yields_ret. simpl. split; [exact Hmax | discriminate].
Qed.

End NominalEpoch.

Section NominalLoop.

Variables (C : Collab) (G : Globals) (env : Env) (su : Setup) (args : Args).
Variable acc : Z -> pyfloat.
Hypothesis Hnom : nominal C G env su args acc.

Let p := train_or_best.
Let T {A} : A -> Prop := fun _ => True.

Lemma evaluate_and_record_nominal e trs st :
  (ema_eval_on args = true -> max_accuracy_ema st <> None) ->
  yields p (stepped args acc (max_accuracy st) e)
    (evaluate_and_record C G env su args e trs st)
    (if save_enabled args && flt (max_accuracy st) (acc e)
     then [EvSaveModel TagBest] else []).
Proof.
  intros Hema. unfold evaluate_and_record.
  match goal with |- yields _ _ _ ?l => rewrite <- (app_nil_r l) end.
  eapply yields_bind.
  { destruct (data_loader_val env) eqn:El;
      [| now destruct (nom_loader _ _ _ _ _ _ Hnom)].
    apply (evaluate_branch_nominal C G env su args acc Hnom e trs st Hema). }
  intros r Hr.
  eapply (yields_bind_nil p T).
  { apply yields_when.
    eapply (yields_bind_nil p T);
      [apply yields_when_some; now apply yields_quiet_emit |].
    intros _ _. now apply yields_quiet_emit. }
  intros _ _.
  eapply (yields_bind_nil p T);
    [apply yields_when_some; now apply yields_quiet_emit |].
  intros _ _. apply yields_ret. exact Hr.
Qed.

Lemma epoch_body_nominal e st :
  (ema_eval_on args = true -> max_accuracy_ema st <> None) ->
  yields p (stepped args acc (max_accuracy st) e)
    (epoch_body C G env su args e st)
    (EvTrainOneEpoch e
     :: (if save_enabled args && flt (max_accuracy st) (acc e)
         then [EvSaveModel TagBest] else [])).
Proof.
  intros Hema. unfold epoch_body.
  eapply (yields_bind_nil p T);
    [apply yields_when_some; now apply yields_quiet_emit |].
  intros _ _.
  eapply (yields_bind_nil p T);
    [apply yields_when_some; now apply yields_quiet_emit |].
  intros _ _.
  destruct (nom_train _ _ _ _ _ _ Hnom e) as [trs Htr].
  change (EvTrainOneEpoch e :: ?l) with ([EvTrainOneEpoch e] ++ l)%list.
  eapply yields_bind.
  { exact (yields_call p (fun x => x = trs) (EvTrainOneEpoch e) _ trs Htr eq_refl). }
  intros trs' Ht. cbv beta in Ht. subst trs'.
  eapply (yields_bind_nil p T);
    [apply (save_periodic_nominal C G env su args acc Hnom) |].
  intros _ _. now apply evaluate_and_record_nominal.
Qed.

End NominalLoop.

Lemma tracked_initial : tracked [] 0%float.
Proof. repeat split; [now left | constructor]. Qed.

(** The test of line 217 is the strict-new-maximum test. *)
Lemma record_iff earlier m x :
  tracked earlier m -> flt m x = strict_new_max earlier x.
Proof.
  intros [[Hin Hall] H0]. unfold strict_new_max.
  pose proof (fle_is_number_r _ _ H0) as Hm.
  destruct (flt m x) eqn:E; symmetry.
  - apply andb_true_intro. split; [eapply flt_is_number_r; eauto |].
    apply forallb_forall. intros y Hy.
    destruct (fle x y) eqn:Exy; [exfalso | reflexivity].
    assert (Hym : fle y m = true).
    { destruct Hy as [<- | Hy]; [exact H0 |].
      apply fle_total; [exact Hm | eapply fle_is_number_r; eauto |].
      rewrite Stdlib.Lists.List.Forall_forall in Hall. now apply Hall. }
    pose proof (fle_trans _ _ _ Exy Hym) as Hxm.
    apply flt_not_fle in E. congruence.
  - apply andb_false_iff.
    destruct (fle x x) eqn:Ex; [right | now left].
    apply not_true_is_false. intros Hall'.
    rewrite forallb_forall in Hall'. specialize (Hall' m Hin).
    apply negb_true_iff in Hall'.
    pose proof (fle_total m x Hm Ex E). congruence.
Qed.

Lemma tracked_step earlier m x :
  tracked earlier m -> tracked (earlier ++ [x]) (fmax m x).
Proof.
  intros [[Hin Hall] H0]. unfold fmax.
  pose proof (fle_is_number_r _ _ H0) as Hm.
  destruct (flt m x) eqn:E.
  - repeat split.
    + right. apply in_or_app. right. now left.
    + apply Forall_app. split.
      * eapply Stdlib.Lists.List.Forall_impl; [| exact Hall].
        intros y Hy. cbv beta in Hy. destruct (flt x y) eqn:Exy; [| reflexivity].
        pose proof (flt_trans _ _ _ E Exy). congruence.
      * constructor; [| constructor]. apply fle_not_flt.
        eapply flt_is_number_r; eauto.
    + eapply above_floor; eauto.
  - repeat split.
    + destruct Hin as [<- | Hin]; [now left | right].
      apply in_or_app. now left.
    + apply Forall_app. split; [exact Hall | now repeat constructor].
    + exact H0.
Qed.

Lemma best_save_epochs_filter cur evs :
  best_save_epochs cur (List.filter train_or_best evs) = best_save_epochs cur evs.
Proof.
  revert cur. induction evs as [| ev evs IH]; intros cur; [reflexivity |].
  destruct ev; simpl; try apply IH. destruct t; simpl; try apply IH.
  now rewrite IH.
Qed.

Lemma best_save_epochs_expected enabled acc earlier es cur :
  best_save_epochs cur (expected_trace enabled acc earlier es)
  = if enabled then map Some (record_epochs acc earlier es) else [].
Proof.
  revert earlier cur. induction es as [| e es IH]; intros earlier cur; simpl.
  - now destruct enabled.
  - destruct enabled; simpl.
    + destruct (strict_new_max earlier (acc e)); simpl; now rewrite IH.
    + now rewrite IH.
Qed.

Lemma epoch_loop_nominal C G env su args acc :
  nominal C G env su args acc ->
  forall es earlier st,
    tracked earlier (max_accuracy st) ->
    (ema_eval_on args = true -> max_accuracy_ema st <> None) ->
    yields train_or_best
      (fun st' => tracked (earlier ++ map acc es) (max_accuracy st'))
      (epoch_loop C G env su args es st)
      (expected_trace (save_enabled args) acc earlier es).
Proof.
  intros Hnom. unfold epoch_loop.
  induction es as [| e es IH]; intros earlier st Htr Hema; simpl.
  - apply yields_ret. now rewrite app_nil_r.
  - change (EvTrainOneEpoch e :: ?l ++ ?r)%list
      with ((EvTrainOneEpoch e :: l) ++ r)%list.
    eapply yields_bind.
    { rewrite <- (record_iff earlier (max_accuracy st) (acc e) Htr).
      apply (epoch_body_nominal C G env su args acc Hnom e st Hema). }
    intros st' [Hmax Hema'].
    replace (earlier ++ acc e :: map acc es)%list
      with ((earlier ++ [acc e]) ++ map acc es)%list
      by now rewrite <- app_assoc.
    apply IH; [| exact Hema'].
    rewrite Hmax. now apply tracked_step.
Qed.

(** C1 (amended). When the collaborators work ([nominal]), for every list
    of epochs processed by the loop from its initial state: the loop
    returns; the tracked best then is the maximum of 0.0 and the observed
    accuracies (one of them, exceeded by none); and, when checkpoint
    writing is enabled ([args.output_dir] non-empty and [args.save_ckpt]
    set), a ["best"] save is made in exactly the epochs whose accuracy is a
    strict new maximum -- a number that neither 0.0 nor any earlier
    observation reaches -- once each, never on a tie or a decrease. With
    checkpoint writing disabled no ["best"] save is made. *)
Theorem best_model_tracker_amended C G env su args acc es :
  nominal C G env su args acc ->
  exists st,
    outcome (epoch_loop C G env su args es (initial_state args)) = inr st
    /\ is_floor_max (map acc es) (max_accuracy st)
    /\ best_save_epochs None
         (events (epoch_loop C G env su args es (initial_state args)))
       = if save_enabled args then map Some (record_epochs acc [] es) else [].
Proof.
  intros Hnom.
  destruct (epoch_loop_nominal C G env su args acc Hnom es [] (initial_state args))
    as (st & Hout & [Hmax _] & Hev).
  - exact tracked_initial.
  - simpl. intros ->. discriminate.
  - exists st. split; [exact Hout |]. split; [exact Hmax |].
    rewrite <- best_save_epochs_filter, Hev.
    apply best_save_epochs_expected.
Qed.

Lemma demo_nominal sc :
  nominal (demo_collab demo_acc) patched_globals demo_env demo_setup
    (demo_with false false sc "convnext_base" 0.75%float) demo_acc.
Proof.
  constructor; try discriminate.
  - now left.
  - intros e. eexists. reflexivity.
  - intros e. eexists. repeat split; discriminate.
  - intros t. reflexivity.
Qed.

(** C1 (counterexample). The accuracies 70.0, 65.0, 72.0 with [save_ckpt]
    off: the best is tracked up to 72.0, and no ["best"] checkpoint is
    saved, where the claim counts two. *)
Lemma tracker_without_checkpoints :
  let run := epoch_loop (demo_collab demo_acc) patched_globals demo_env
               demo_setup (demo_with false false false "convnext_base" 0.75%float)
               [0; 1; 2]
               (initial_state (demo_with false false false "convnext_base" 0.75%float)) in
  map demo_acc [0; 1; 2] = [70%float; 65%float; 72%float]
  /\ outcome run = inr {| max_accuracy := 72; max_accuracy_ema := None |}
  /\ List.filter is_best_save (events run) = [].
Proof. vm_compute. split; [| split]; reflexivity. Qed.

(** The scenario of the claim, with checkpoint writing enabled: two
    ["best"] saves, in the epochs of the first and the third observation,
    and a final best of 72.0. *)
Lemma best_model_tracker_amended_witness :
  exists st,
    outcome (epoch_loop (demo_collab demo_acc) patched_globals demo_env
               demo_setup demo_args [0; 1; 2] (initial_state demo_args)) = inr st
    /\ is_floor_max [70%float; 65%float; 72%float] (max_accuracy st)
    /\ max_accuracy st = 72%float
    /\ best_save_epochs None
         (events (epoch_loop (demo_collab demo_acc) patched_globals demo_env
                    demo_setup demo_args [0; 1; 2] (initial_state demo_args)))
       = [Some 0; Some 2].
Proof.
  destruct (best_model_tracker_amended (demo_collab demo_acc) patched_globals
              demo_env demo_setup demo_args demo_acc [0; 1; 2]
              (demo_nominal true)) as (st & Hout & Hmax & Hev).
  exists st. split; [exact Hout |]. split; [exact Hmax |]. split.
  - assert (H : outcome (epoch_loop (demo_collab demo_acc) patched_globals
                           demo_env demo_setup demo_args [0; 1; 2]
                           (initial_state demo_args))
                = inr {| max_accuracy := 72; max_accuracy_ema := None |})
      by (vm_compute; reflexivity).
    rewrite H in Hout. injection Hout as <-. reflexivity.
  - rewrite Hev. vm_compute. reflexivity.
Defined.

(** ** C4: epochs without evaluation *)

Lemma in_dict_set {V} k v k0 (v0 : V) d :
  In (k, v) (dict_set k0 v0 d) -> (k, v) = (k0, v0) \/ In (k, v) d.
Proof.
  induction d as [| [k1 v1] d IH]; simpl.
  - intros [H | []]. left. now symmetry.
  - destruct (String.eqb k0 k1).
    + intros [H | H]; [left; now symmetry | right; now right].
    + intros [H | H]; [right; now left |].
      destruct (IH H) as [H' | H']; [now left | right; now right].
Qed.

Lemma in_dict_update {V} k (v : V) items d :
  In (k, v) (dict_update d items) -> In (k, v) items \/ In (k, v) d.
Proof.
  unfold dict_update. revert d.
  induction items as [| [k0 v0] items IH]; intros d; simpl; [now right |].
  intros H. destruct (IH _ H) as [H' | H']; [left; now right |].
  destruct (in_dict_set _ _ _ _ _ H') as [H'' | H'']; [left; now left | now right].
Qed.

Lemma train_only_entry_keys su e ts k v :
  In (k, v) (train_only_entry su e ts) ->
  (k, v) = ("epoch", JInt e)
  \/ (k, v) = ("n_parameters", JInt (n_parameters su))
  \/ exists k' x, In (k', x) ts /\ k = "train_" +:+ k' +:+ "" /\ v = JFloat x.
Proof.
  unfold train_only_entry, base_log_stats. intros H.
  apply in_dict_update in H as [[H | [H | []]] | H].
  - left. now symmetry.
  - right. left. now symmetry.
  - apply in_dict_update in H as [H | []].
    right. right. unfold prefixed in H. apply in_map_iff in H as ([k' x] & H1 & H2).
    exists k', x. simpl in H1. injection H1 as <- <-. auto.
Qed.

Ltac in_app_search :=
  solve [ now left
        | apply in_or_app; left; in_app_search
        | apply in_or_app; right; in_app_search
        | right; in_app_search ].

Lemma epoch_without_loader C G env su args e st ts :
  train_one_epoch C e = inr ts ->
  outcome (save_periodic C args e) = inr tt ->
  data_loader_val env = None ->
  never is_evaluate (epoch_body C G env su args e st)
  /\ outcome (epoch_body C G env su args e st) = inr st
  /\ (str_truthy (output_dir args) = true ->
      In (EvRecord (os_path_join (output_dir args) "record.txt")
            (train_only_entry su e ts))
         (events (epoch_body C G env su args e st))).
Proof.
  intros Ht Hsp Hl. split; [| split].
  - unfold epoch_body, evaluate_and_record, save_periodic. rewrite Hl.
    repeat never_step.
  - unfold epoch_body, evaluate_and_record. rewrite Hl.
    repeat (rewrite outcome_bind;
            rewrite ?when_some_emit_ok, ?Ht, ?Hsp;
            cbn [outcome call ret snd fst]).
    destruct (str_truthy (output_dir args)), (log_writer env),
      (wandb_logger env); reflexivity.
  - intros Hdir. unfold epoch_body, evaluate_and_record. rewrite Hl, Hdir.
    fold (train_only_entry su e ts).
    repeat (rewrite events_bind;
            rewrite ?when_some_emit_ok, ?Ht, ?Hsp;
            cbn [outcome call ret snd fst when]).
    destruct (log_writer env), (wandb_logger env); simpl; in_app_search.
Qed.

Lemma epoch_with_loader C G env su args e st ts ld :
  train_one_epoch C e = inr ts ->
  outcome (save_periodic C args e) = inr tt ->
  data_loader_val env = Some ld ->
  In (EvEvaluate Primary (Some e)) (events (epoch_body C G env su args e st)).
Proof.
  intros Ht Hsp Hl. unfold epoch_body, evaluate_and_record. rewrite Hl.
  unfold evaluate_branch.
  repeat (rewrite events_bind;
          rewrite ?when_some_emit_ok, ?Ht, ?Hsp;
          cbn [outcome call ret snd fst events]).
  in_app_search.
Qed.

(** C4 (amended). In an epoch whose training pass and periodic save
    return: when the validation-loader variable is [None], the controller
    skips evaluation, keeps its state, and the epoch's log entry holds
    only the train-prefixed metrics, the epoch index and the parameter
    count; when a validation loader exists -- whatever number of batches
    it yields -- the controller invokes [evaluate], and what follows is
    whatever [evaluate] returns or raises. *)
Theorem evaluation_gap_amended C G env su args e st ts :
  train_one_epoch C e = inr ts ->
  outcome (save_periodic C args e) = inr tt ->
  (data_loader_val env = None ->
     never is_evaluate (epoch_body C G env su args e st)
     /\ outcome (epoch_body C G env su args e st) = inr st
     /\ (str_truthy (output_dir args) = true ->
         In (EvRecord (os_path_join (output_dir args) "record.txt")
               (train_only_entry su e ts))
            (events (epoch_body C G env su args e st)))
     /\ (forall k v, In (k, v) (train_only_entry su e ts) ->
           (k, v) = ("epoch", JInt e)
           \/ (k, v) = ("n_parameters", JInt (n_parameters su))
           \/ exists k' x, In (k', x) ts /\ k = "train_" +:+ k' +:+ ""
                           /\ v = JFloat x))
  /\ (forall ld, data_loader_val env = Some ld ->
        In (EvEvaluate Primary (Some e))
           (events (epoch_body C G env su args e st))).
Proof.
  intros Ht Hsp. split.
  - intros Hl.
    destruct (epoch_without_loader C G env su args e st ts Ht Hsp Hl)
      as (H1 & H2 & H3).
    repeat split; try assumption. apply train_only_entry_keys.
  - intros ld Hl. eapply epoch_with_loader; eassumption.
Qed.

(** C4 (counterexample). The validation loader yields zero batches
    (5 images, batches of 12, incomplete batches dropped), yet evaluation
    is not skipped: [evaluate] is invoked, and with an [evaluate] that
    reports zeros the log entry carries test metrics equal to zero rather
    than omitting them. *)
Lemma zero_batch_epoch_is_evaluated :
  5 / 12 = 0
  /\ In (EvEvaluate Primary (Some 0)) (events demo_zero_batch_epoch)
  /\ exists line,
       In (EvRecord "out/record.txt" line) (events demo_zero_batch_epoch)
       /\ dict_get "test_acc1" line = Some (JFloat 0).
Proof.
  split; [reflexivity |]. split.
  - vm_compute. in_list.
  - eexists. split; [vm_compute; in_list |]. vm_compute. reflexivity.
Qed.

(** An epoch without a validation loader, and one whose loader yields no
    batch. *)
Lemma evaluation_gap_amended_witness :
  (never is_evaluate
     (epoch_body (demo_collab demo_acc) patched_globals demo_no_loader_env
        demo_setup demo_args 0 (initial_state demo_args))
   /\ In (EvRecord "out/record.txt"
            [("train_loss", JFloat 2); ("epoch", JInt 0);
             ("n_parameters", JInt 3404)])
         (events (epoch_body (demo_collab demo_acc) patched_globals
                    demo_no_loader_env demo_setup demo_args 0
                    (initial_state demo_args))))
  /\ In (EvEvaluate Primary (Some 0)) (events demo_zero_batch_epoch).
Proof.
  split.
  - destruct (evaluation_gap_amended (demo_collab demo_acc) patched_globals
                demo_no_loader_env demo_setup demo_args 0
                (initial_state demo_args) [("loss", 2%float)]
                eq_refl eq_refl) as [H _].
    destruct (H eq_refl) as (H1 & _ & H3 & _).
    split; [exact H1 | exact (H3 eq_refl)].
  - destruct (evaluation_gap_amended (demo_collab (fun _ => 0%float))
                patched_globals demo_small_env demo_setup demo_args 0
                (initial_state demo_args) [("loss", 2%float)]
                eq_refl eq_refl) as [_ H].
    exact (H _ eq_refl).
Defined.

(** ** Loading foreign weights: the key search and the head entries *)

Lemma select_model_key_spec lg checkpoint keys :
  outcome (select_model_key (Some lg) checkpoint keys)
  = inr (match list_find (fun k => is_Some (checkpoint !! k)) keys with
         | Some (_, k) => default ENone (checkpoint !! k)
         | None => ENone
         end).
Proof.
  induction keys as [| k keys IH]; simpl; [reflexivity |].
  destruct (checkpoint !! k) as [v |] eqn:E.
  - rewrite decide_True by eauto. simpl. now rewrite E.
  - rewrite decide_False by (intros [? ?]; congruence).
    rewrite IH. destruct (list_find _ keys) as [[i k'] |]; reflexivity.
Qed.

Lemma selected_table lg checkpoint keys d :
  nested_table keys checkpoint = ETable d ->
  exists found,
    outcome (select_model_key (Some lg) checkpoint keys) = inr found
    /\ match found with ENone => ETable checkpoint | v => v end = ETable d.
Proof.
  unfold nested_table. intros H. eexists. split; [apply select_model_key_spec |].
  destruct (list_find _ keys) as [[i k] |]; [| exact H].
  rewrite H. reflexivity.
Qed.

Lemma drop_head_lookup state k d k' :
  drop_head state k d !! k'
  = if bool_decide (k' = k) && head_dropped state d k then None else d !! k'.
Proof.
  unfold drop_head. destruct (head_dropped state d k).
  - rewrite andb_true_r. destruct (bool_decide_reflect (k' = k)) as [-> | Hne].
    + apply lookup_delete_eq.
    + now apply lookup_delete_ne.
  - now rewrite andb_false_r.
Qed.

Lemma drop_heads_lookup state d k :
  drop_heads state d !! k
  = if bool_decide (k ∈ head_keys) && head_dropped state d k then None
    else d !! k.
Proof.
  unfold drop_heads. rewrite !drop_head_lookup.
  assert (Hb : head_dropped state (drop_head state "head.weight" d) "head.bias"
               = head_dropped state d "head.bias").
  { unfold head_dropped. rewrite drop_head_lookup.
    rewrite bool_decide_eq_false_2 by discriminate. reflexivity. }
  rewrite Hb. unfold head_keys.
  repeat case_bool_decide; subst; simpl; try reflexivity;
    repeat match goal with
           | |- context [head_dropped ?s ?t ?x] => destruct (head_dropped s t x)
           end; try reflexivity; try discriminate.
  all: exfalso;
    repeat match goal with
           | H : context [_ ∈ _] |- _ => rewrite list_elem_of_In in H; simpl in H
           end; intuition congruence.
Qed.

Lemma filter_none {A} (f : A -> bool) l :
  (forall x, In x l -> f x = false) -> List.filter f l = [].
Proof.
  induction l as [| x l IH]; intros H; simpl; [reflexivity |].
  rewrite (H x) by now left. apply IH. intros y Hy. apply H. now right.
Qed.

Lemma load_without_clash (w : state_dict) (d : gmap string entry) :
  (forall k t cur, d !! k = Some (ETensor t) -> w !! k = Some cur ->
                   shape t = shape cur) ->
  exists w',
    utils_load_state_dict w (ETable d) "" = inr w'
    /\ forall k, w' !! k = loaded_value d k <$> w !! k.
Proof.
  intros Hok. unfold utils_load_state_dict.
  rewrite filter_none.
  - eexists. split; [reflexivity |]. intros k.
    rewrite map_lookup_imap. unfold incoming, loaded_value.
    change ("" +:+ k) with k.
    destruct (w !! k) as [cur |]; simpl; [| reflexivity].
    destruct (d !! k) as [[] |]; reflexivity.
  - intros [k cur] Hin. apply list_elem_of_In, elem_of_map_to_list in Hin.
    unfold shape_clash, incoming. simpl fst. simpl snd.
    change ("" +:+ k) with k.
    destruct (d !! k) as [[| t | |] |] eqn:E; try reflexivity.
    apply bool_decide_eq_false_2. intros Hne. apply Hne. eauto.
Qed.

Lemma drop_heads_no_clash (w : state_dict) (d : gmap string entry) :
  (forall k t cur, k ∉ head_keys -> d !! k = Some (ETensor t) ->
                   w !! k = Some cur -> shape t = shape cur) ->
  forall k t cur, drop_heads w d !! k = Some (ETensor t) -> w !! k = Some cur ->
                  shape t = shape cur.
Proof.
  intros Hok k t cur. rewrite drop_heads_lookup.
  case_bool_decide as Hk; simpl.
  - unfold head_dropped. destruct (d !! k) as [v |] eqn:E; [| discriminate].
    intros Hv Hcur. rewrite Hcur in Hv. destruct v; try discriminate.
    case_bool_decide as Hs; [discriminate |].
    injection Hv as ->. destruct (decide (shape t = shape cur)); [assumption |].
    now destruct Hs.
  - intros Hd Hcur. eapply Hok; eauto.
Qed.

(** ** The schedule generator: length, monotonicity, end points *)

Section ScheduleProperties.
Import CosineSchedule.
#[local] Open Scope R_scope.

Lemma schedule_length (base_value end_value : R)
    (total_epochs steps_per_epoch warmup_epochs warmup_steps : nat) :
  length (cosine_scheduler base_value end_value total_epochs steps_per_epoch
            warmup_epochs warmup_steps)
  = (total_epochs * steps_per_epoch)%nat.
Proof.
  unfold cosine_scheduler. cbv zeta.
  rewrite length_firstn, length_app, !length_map, !length_seq. lia.
Qed.

Lemma at_step_warmup (base_value end_value : R)
    (total_epochs steps_per_epoch warmup_epochs warmup_steps i : nat) :
  let w := warmup_length steps_per_epoch warmup_epochs warmup_steps in
  (i < w)%nat -> (i < total_epochs * steps_per_epoch)%nat ->
  at_step (cosine_scheduler base_value end_value total_epochs steps_per_epoch
             warmup_epochs warmup_steps) i
  = ramp base_value w i.
Proof.
  intros w Hw Ht. unfold at_step, cosine_scheduler. cbv zeta. fold w.
  set (total := (total_epochs * steps_per_epoch)%nat) in *.
  rewrite Stdlib.Lists.List.nth_firstn.
  destruct (Nat.ltb_spec i total); [| lia].
  rewrite app_nth1 by (rewrite length_map, length_seq; exact Hw).
  rewrite (nth_indep _ 0 (ramp base_value w 0))
    by (rewrite length_map, length_seq; exact Hw).
  rewrite map_nth, seq_nth by exact Hw. reflexivity.
Qed.

Lemma at_step_decay (base_value end_value : R)
    (total_epochs steps_per_epoch warmup_epochs warmup_steps i : nat) :
  let total := (total_epochs * steps_per_epoch)%nat in
  let w := warmup_length steps_per_epoch warmup_epochs warmup_steps in
  (w <= i)%nat -> (i < total)%nat ->
  at_step (cosine_scheduler base_value end_value total_epochs steps_per_epoch
             warmup_epochs warmup_steps) i
  = half_cosine base_value end_value (total - w) (i - w).
Proof.
  intros total w Hw Ht. unfold at_step, cosine_scheduler. cbv zeta.
  fold total. fold w.
  rewrite Stdlib.Lists.List.nth_firstn.
  destruct (Nat.ltb_spec i total); [| lia].
  rewrite app_nth2 by (rewrite length_map, length_seq; exact Hw).
  rewrite length_map, length_seq.
  rewrite (nth_indep _ 0 (half_cosine base_value end_value (total - w) 0))
    by (rewrite length_map, length_seq; lia).
  rewrite map_nth, seq_nth by lia. reflexivity.
Qed.

Lemma ramp_monotone (base_value : R) (w i j : nat) :
  0 <= base_value -> (i <= j)%nat -> ramp base_value w i <= ramp base_value w j.
Proof.
  intros Hb Hij. unfold ramp. destruct (Nat.leb_spec w 1); [lra |].
  assert (0 < INR (w - 1)) by (apply lt_0_INR; lia).
  apply le_INR in Hij. unfold Rdiv.
  apply Rmult_le_compat_r; [apply Rlt_le, Rinv_0_lt_compat; assumption |].
  apply Rmult_le_compat_l; assumption.
Qed.

Lemma half_cosine_monotone (base_value end_value : R) (m i j : nat) :
  end_value <= base_value -> (i <= j)%nat -> (j < m)%nat ->
  half_cosine base_value end_value m j <= half_cosine base_value end_value m i.
Proof.
  intros Hb Hij Hj. unfold half_cosine. destruct (Nat.leb_spec m 1); [lra |].
  assert (Hm : 0 < INR (m - 1)) by (apply lt_0_INR; lia).
  assert (Hpi := PI_RGT_0).
  assert (Hpos : forall n : nat, 0 <= PI * INR n / INR (m - 1)).
  { intros n. unfold Rdiv. apply Rmult_le_pos.
    - apply Rmult_le_pos; [lra | apply pos_INR].
    - apply Rlt_le, Rinv_0_lt_compat, Hm. }
  assert (Hup : forall n : nat, (n < m)%nat -> PI * INR n / INR (m - 1) <= PI).
  { intros n Hn. apply (Rmult_le_reg_r (INR (m - 1))); [exact Hm |].
    unfold Rdiv. rewrite Rmult_assoc, Rinv_l, Rmult_1_r by lra.
    apply Rmult_le_compat_l; [lra |]. apply le_INR. lia. }
  assert (Hcos : cos (PI * INR j / INR (m - 1)) <= cos (PI * INR i / INR (m - 1))).
  { apply cos_decr_1; try apply Hpos; try (apply Hup; lia).
    unfold Rdiv. apply Rmult_le_compat_r;
      [apply Rlt_le, Rinv_0_lt_compat, Hm |].
    apply Rmult_le_compat_l; [lra | apply le_INR, Hij]. }
  assert (0 <= (base_value - end_value) / 2) by lra.
  apply Rplus_le_compat_l, Rmult_le_compat_l; [assumption | lra].
Qed.

Lemma ramp_first (base_value : R) (w : nat) : ramp base_value w 0 = 0.
Proof.
  unfold ramp. destruct (w <=? 1)%nat; [reflexivity |].
  simpl. unfold Rdiv. now rewrite Rmult_0_r, Rmult_0_l.
Qed.

Lemma half_cosine_last (base_value end_value : R) (m : nat) :
  (0 < m)%nat -> half_cosine base_value end_value m (m - 1) = end_value.
Proof.
  intros Hm. unfold half_cosine. destruct (Nat.leb_spec m 1); [reflexivity |].
  assert (0 < INR (m - 1)) by (apply lt_0_INR; lia).
  replace (PI * INR (m - 1) / INR (m - 1)) with PI by (field; lra).
  rewrite cos_PI. lra.
Qed.

(** C9. The schedule of [cosine_scheduler] has length
    [total_epochs * steps_per_epoch]; it is non-decreasing over the warmup
    steps when [0 <= base_value]; it is non-increasing over the decay steps
    (the whole schedule when warmup is absent) when
    [end_value <= base_value]; its first value is 0 when a warmup phase
    exists; its last value is [end_value] when decay steps remain; and the
    schedule for base 0.1, end 0, 10 epochs of 100 steps, 1 warmup epoch
    and 0 warmup steps has length 1000, with value 0 at step 0, 0.1 at
    step 99 and 0 at step 999. Values are real numbers, so the tolerance
    is exact equality. *)
Theorem schedule_generator (base_value end_value : R)
    (total_epochs steps_per_epoch warmup_epochs warmup_steps : nat) :
  let total := (total_epochs * steps_per_epoch)%nat in
  let w := warmup_length steps_per_epoch warmup_epochs warmup_steps in
  let s := cosine_scheduler base_value end_value total_epochs steps_per_epoch
             warmup_epochs warmup_steps in
  let s0 := cosine_scheduler (1 / 10) 0 10 100 1 0 in
  length s = total
  /\ (0 <= base_value ->
      forall i j, (i <= j)%nat -> (j < w)%nat -> (j < total)%nat ->
                  at_step s i <= at_step s j)
  /\ (end_value <= base_value ->
      forall i j, (w <= i)%nat -> (i <= j)%nat -> (j < total)%nat ->
                  at_step s j <= at_step s i)
  /\ ((0 < w)%nat -> (0 < total)%nat -> at_step s 0 = 0)
  /\ ((w < total)%nat -> at_step s (total - 1) = end_value)
  /\ (length s0 = 1000%nat /\ at_step s0 0 = 0 /\ at_step s0 99 = 1 / 10
      /\ at_step s0 999 = 0).
Proof.
  intros total w s s0.
  split; [apply schedule_length |].
  split.
  { intros Hb i j Hij Hw Ht. unfold s.
    rewrite !at_step_warmup by (fold w; fold total; lia).
    now apply ramp_monotone. }
  split.
  { intros Hb i j Hw Hij Ht. unfold s.
    rewrite !at_step_decay by (fold w; fold total; lia).
    apply (half_cosine_monotone base_value end_value (total - w) (i - w)
             (j - w) Hb); lia. }
  split.
  { intros Hw Ht. unfold s. rewrite at_step_warmup by assumption.
    apply ramp_first. }
  split.
  { intros Hw. unfold s. fold total.
    rewrite at_step_decay by (fold w; fold total; lia). fold w. fold total.
    replace (total - 1 - w)%nat with (total - w - 1)%nat by lia.
    apply half_cosine_last. lia. }
  assert (Hw0 : warmup_length 100 1 0 = 100%nat) by reflexivity.
  assert (Ht0 : (10 * 100)%nat = 1000%nat) by reflexivity.
  split; [| split; [| split]]; unfold s0.
  - rewrite schedule_length. exact Ht0.
  - rewrite at_step_warmup by (rewrite ?Hw0, ?Ht0; lia). apply ramp_first.
  - rewrite at_step_warmup by (rewrite ?Hw0, ?Ht0; lia). rewrite Hw0.
    unfold ramp. replace (100 <=? 1)%nat with false by reflexivity.
    replace (100 - 1)%nat with 99%nat by reflexivity.
    field. apply not_0_INR. lia.
  - rewrite at_step_decay by (rewrite ?Hw0, ?Ht0; lia). rewrite Hw0, Ht0.
    replace (999 - 100)%nat with (900 - 1)%nat by reflexivity.
    replace (1000 - 100)%nat with 900%nat by reflexivity.
    apply half_cosine_last. lia.
Qed.

(** The scenario of ten epochs of 100 steps with one warmup epoch. *)
Lemma schedule_generator_witness :
  let s := cosine_scheduler (1 / 10) 0 10 100 1 0 in
  length s = 1000%nat
  /\ at_step s 0 <= at_step s 99
  /\ at_step s 999 <= at_step s 100
  /\ at_step s 0 = 0
  /\ at_step s 999 = 0.
Proof.
  intros s.
  pose proof (schedule_generator (1 / 10) 0 10 100 1 0) as H.
  cbv zeta in H. destruct H as (Hlen & Hup & Hdown & Hfirst & Hlast & _).
  split; [exact Hlen |].
  split; [apply Hup; [lra | lia | vm_compute; lia | vm_compute; lia] |].
  split; [apply Hdown; [lra | vm_compute; lia | lia | vm_compute; lia] |].
  split; [apply Hfirst; vm_compute; lia |].
  apply Hlast. vm_compute; lia.
Defined.

End ScheduleProperties.

(** ** Further properties of the controller *)

Lemma init_model_keeps_mixup load C G lg args G' :
  outcome (init_model load C G lg args) = inr G' -> g_mixup_fn G' = g_mixup_fn G.
Proof.
  unfold init_model. destruct (String.eqb _ _).
  - rewrite outcome_bind.
    destruct (outcome (call _ _)) as [e | m]; [discriminate |].
    rewrite outcome_bind.
    destruct (outcome (load_foreign_weights _ _ _ _ _)) as [e | m'];
      [discriminate |].
    cbn [outcome ret snd]. now intros [= <-].
  - cbn [outcome ret snd]. now intros [= <-].
Qed.

Lemma setup_without_mixup C G env args :
  g_mixup_fn G = None -> fails (setup C G env args).
Proof.
  intros H. unfold setup. rewrite H.
  repeat (fails_step || apply fails_bind_l).
Qed.

(** From the [__main__] block [main] runs in a namespace where [mixup_fn]
    was never bound (its assignment, lines 71-79, is commented out), so line
    160 raises [NameError] in every run that gets that far: each such run
    ends in an exception, without a training pass, an evaluation or a
    checkpoint save. *)
Theorem main_block_run_stops_before_training load C args :
  fails (main load C module_globals args)
  /\ never is_train (main load C module_globals args)
  /\ never is_evaluate (main load C module_globals args)
  /\ never is_save (main load C module_globals args).
Proof.
  assert (Hstop : forall p,
            never p (prepare C args) ->
            (forall G' lg a, never p (init_model load C G' lg a)) ->
            (forall G' env a, never p (setup C G' env a)) ->
            never p (main load C module_globals args)).
  { intros p Hp Hi Hs. unfold main.
    apply never_bind; [exact Hp |]. intros [a env] _. cbv zeta.
    apply never_bind; [apply Hi |]. intros G' HG'.
    apply never_bind; [apply Hs |]. intros asu Hasu.
    apply init_model_keeps_mixup in HG'.
    destruct (setup_without_mixup C G' (snd (a, env)) (fst (a, env)) HG')
      as [e He].
    congruence. }
  split; [| split; [| split]].
  - unfold main. apply fails_bind. intros [a env] _. cbv zeta.
    apply fails_bind. intros G' HG'. apply fails_bind_l.
    apply setup_without_mixup. now apply init_model_keeps_mixup in HG'.
  - apply Hstop; [apply prepare_quiet; reflexivity | |].
    + intros. apply init_model_quiet; reflexivity.
    + intros. apply setup_trains_nothing.
  - apply Hstop; [apply prepare_quiet; reflexivity | |].
    + intros. apply init_model_quiet; reflexivity.
    + intros. apply setup_trains_nothing.
  - apply Hstop; [apply prepare_quiet; reflexivity | |].
    + intros. apply init_model_quiet; reflexivity.
    + intros. apply setup_trains_nothing.
Qed.

(** With [disable_eval] set the validation dataset is [None], yet line 68
    still constructs a loader over it: in every environment that
    [prepare] returns the validation loader is bound, so the test
    [data_loader_val is not None] of line 213 holds, and every epoch whose
    training pass and periodic save return invokes [evaluate]. *)
Theorem disabled_evaluation_still_evaluates C args a env :
  outcome (prepare C args) = inr (a, env) ->
  data_loader_val env <> None
  /\ (disable_eval args = true -> dataset_val env = None)
  /\ (forall G su e st ts,
        train_one_epoch C e = inr ts ->
        outcome (save_periodic C a e) = inr tt ->
        In (EvEvaluate Primary (Some e))
           (events (epoch_body C G env su a e st))).
Proof.
  intros Hp.
  destruct (prepare_result C args a env Hp) as (_ & _ & (ld & Hld & _) & Hds).
  split; [congruence |]. split; [exact Hds |].
  intros G su e st ts Ht Hs. now apply (epoch_with_loader C G env su a e st ts ld).
Qed.

(** The example with [disable_eval] set: epoch 0 evaluates all the same. *)
Lemma disabled_evaluation_still_evaluates_witness :
  let C := demo_collab demo_acc in
  let a := set_dist_eval false (set_nb_classes 200 demo_disabled_args) in
  disable_eval demo_disabled_args = true
  /\ outcome (prepare C demo_disabled_args) = inr (a, demo_disabled_env)
  /\ dataset_val demo_disabled_env = None
  /\ In (EvEvaluate Primary (Some 0))
        (events (epoch_body C patched_globals demo_disabled_env demo_setup a 0
                   (initial_state a))).
Proof.
  intros C a.
  assert (E : outcome (prepare C demo_disabled_args) = inr (a, demo_disabled_env))
    by (vm_compute; reflexivity).
  destruct (disabled_evaluation_still_evaluates C demo_disabled_args a
              demo_disabled_env E) as (_ & Hds & Hev).
  split; [reflexivity |]. split; [exact E |]. split; [apply Hds; reflexivity |].
  apply (Hev patched_globals demo_setup 0 (initial_state a) [("loss", 2%float)]);
    vm_compute; reflexivity.
Defined.

(** ** Evaluation-only mode never evaluates *)

(** With [args.eval] true no logger is created (lines 36-39), and [setup]
    calls [logger.info] unconditionally (line 149, line 120 with EMA): the
    run ends in an exception before the evaluation-only branch, whatever
    the collaborators do. *)
Theorem evaluation_only_run_never_evaluates load C G args :
  eval args = true ->
  fails (main load C G args) /\ never is_evaluate (main load C G args).
Proof.
  intros He. split.
  - unfold main. apply fails_bind. intros [a env] Hp. cbv zeta.
    destruct (prepare_result C args a env Hp) as (_ & Hlg & _).
    rewrite He in Hlg.
    apply fails_bind. intros G' _. apply fails_bind_l.
    now apply setup_without_logger.
  - apply eval_mode_stops_in_setup; [exact He | | |].
    + apply prepare_quiet; reflexivity.
    + intros. apply init_model_quiet; reflexivity.
    + intros. apply setup_trains_nothing.
Qed.

(** The evaluation-only example. *)
Lemma evaluation_only_run_never_evaluates_witness :
  fails demo_eval_run /\ never is_evaluate demo_eval_run.
Proof.
  apply (evaluation_only_run_never_evaluates utils_load_state_dict
           (demo_collab_with demo_flat_backbone demo_acc) patched_globals
           (demo_with true false true "convnext_base" 0.75%float)).
  reflexivity.
Defined.

(** ** A total batch size of zero *)

Lemma after_prepare_keeps_batch nb args :
  batch_size (after_prepare nb args) = batch_size args
  /\ update_freq (after_prepare nb args) = update_freq args.
Proof. unfold after_prepare. destruct (disable_eval args); simpl; auto. Qed.

Lemma setup_zero_batch C G env args :
  batch_size args * update_freq args = 0 ->
  fails (setup C G env args)
  /\ never is_optimizer (setup C G env args)
  /\ never is_scheduler (setup C G env args).
Proof.
  intros H. unfold setup. cbv zeta. rewrite H.
  change (0 =? 0) with true. cbv iota.
  split; [| split].
  - repeat (fails_step || apply fails_bind_l).
  - repeat never_step.
  - repeat never_step.
Qed.

(** [len(dataset_train) // total_batch_size] (line 127) divides by
    [args.batch_size * args.update_freq]: when that product is 0 the run
    ends in an exception before the optimizer is constructed and before
    either schedule is generated; with the model bound and EMA off the
    exception is [ZeroDivisionError], raised right after
    [model.to(device)]. *)
Theorem zero_total_batch_size_stops_setup load C G env args :
  batch_size args * update_freq args = 0 ->
  (fails (main load C G args)
   /\ never is_optimizer (main load C G args)
   /\ never is_scheduler (main load C G args)
   /\ never is_train (main load C G args))
  /\ (forall m, g_model G = Some m -> model_ema args = false ->
        setup C G env args = ([EvModelToDevice], inl ZeroDivisionError)).
Proof.
  intros H.
  assert (Hstop : forall p,
            never p (prepare C args) ->
            (forall G' lg a, never p (init_model load C G' lg a)) ->
            (forall G' env a, batch_size a * update_freq a = 0 ->
                              never p (setup C G' env a)) ->
            never p (main load C G args)).
  { intros p Hp Hi Hs. unfold main.
    apply never_bind; [exact Hp |]. intros [a e] Ha. cbv zeta.
    destruct (prepare_result C args a e Ha) as ((nb & ->) & _).
    destruct (after_prepare_keeps_batch nb args) as [Hb Hu].
    apply never_bind; [apply Hi |]. intros G' _.
    assert (H0 : batch_size (after_prepare nb args)
                 * update_freq (after_prepare nb args) = 0)
      by now rewrite Hb, Hu.
    apply never_bind; [now apply Hs |]. intros asu Hasu.
    destruct (setup_zero_batch C G' e (after_prepare nb args) H0)
      as [[x Hx] _].
    simpl fst in Hasu. simpl snd in Hasu. congruence. }
  split; [split; [| split; [| split]] |].
  - unfold main. apply fails_bind. intros [a e] Ha. cbv zeta.
    destruct (prepare_result C args a e Ha) as ((nb & ->) & _).
    destruct (after_prepare_keeps_batch nb args) as [Hb Hu].
    apply fails_bind. intros G' _. apply fails_bind_l.
    apply setup_zero_batch. simpl fst. now rewrite Hb, Hu.
  - apply Hstop; [apply prepare_quiet; reflexivity | |].
    + intros. apply init_model_quiet; reflexivity.
    + intros. now apply setup_zero_batch.
  - apply Hstop; [apply prepare_quiet; reflexivity | |].
    + intros. apply init_model_quiet; reflexivity.
    + intros. now apply setup_zero_batch.
  - apply Hstop; [apply prepare_quiet; reflexivity | |].
    + intros. apply init_model_quiet; reflexivity.
    + intros. apply setup_trains_nothing.
  - intros m Hm Hema. unfold setup. cbv zeta. rewrite Hm, Hema, H.
    reflexivity.
Qed.

Lemma zero_total_batch_size_stops_setup_witness :
  fails (main utils_load_state_dict (demo_collab demo_acc) patched_globals
           demo_zero_batch_args)
  /\ setup (demo_collab demo_acc) demo_globals demo_env demo_zero_batch_args
     = ([EvModelToDevice], inl ZeroDivisionError).
Proof.
  destruct (zero_total_batch_size_stops_setup utils_load_state_dict
              (demo_collab demo_acc) patched_globals demo_env
              demo_zero_batch_args) as [[Hf _] _]; [reflexivity |].
  destruct (zero_total_batch_size_stops_setup utils_load_state_dict
              (demo_collab demo_acc) demo_globals demo_env
              demo_zero_batch_args) as [_ Hs]; [reflexivity |].
  split; [exact Hf |]. apply (Hs demo_model); reflexivity.
Defined.

(** ** A checkpoint frequency of zero *)

(** [(epoch + 1) % args.save_ckpt_freq] (line 207) is evaluated whenever
    checkpoint writing is enabled: with a frequency of 0 every epoch ends
    in [ZeroDivisionError] right after its training pass, with no
    checkpoint written and no evaluation. *)
Theorem zero_save_frequency_raises C G env su args e st ts :
  train_one_epoch C e = inr ts ->
  save_enabled args = true ->
  save_ckpt_freq args = 0 ->
  outcome (epoch_body C G env su args e st) = inl ZeroDivisionError
  /\ never is_save (epoch_body C G env su args e st)
  /\ never is_evaluate (epoch_body C G env su args e st).
Proof.
  intros Ht Hen Hf.
  assert (Hsp : save_periodic C args e = raise ZeroDivisionError).
  { unfold save_periodic. rewrite Hen, Hf. reflexivity. }
  unfold epoch_body. rewrite Hsp, Ht. split; [| split].
  - repeat (rewrite outcome_bind; rewrite ?when_some_emit_ok;
            cbn [outcome call ret raise snd]).
    reflexivity.
  - repeat never_step.
  - repeat never_step.
Qed.

Lemma zero_save_frequency_raises_witness :
  outcome (epoch_body (demo_collab demo_acc) patched_globals demo_env
             demo_setup demo_zero_freq_args 0
             (initial_state demo_zero_freq_args))
  = inl ZeroDivisionError.
Proof.
  apply (zero_save_frequency_raises (demo_collab demo_acc) patched_globals
           demo_env demo_setup demo_zero_freq_args 0
           (initial_state demo_zero_freq_args) [("loss", 2%float)]);
    reflexivity.
Defined.

(** ** The wandb summary *)

(** Lines 220-221 read the name [wandb], which the file neither imports
    nor assigns: with a wandb logger, the first evaluation that beats the
    best accuracy ends the epoch in [NameError], before the ["best"]
    checkpoint is written. *)
Theorem wandb_summary_raises_name_error C G env su args e st ts tst a lg ld w :
  train_one_epoch C e = inr ts ->
  outcome (save_periodic C args e) = inr tt ->
  data_loader_val env = Some ld ->
  logger env = Some lg ->
  wandb_logger env = Some w ->
  g_wandb G = None ->
  evaluate C (Some ld) Primary (Some e) = inr tst ->
  dict_get "acc1" tst = Some a ->
  flt (max_accuracy st) a = true ->
  outcome (epoch_body C G env su args e st) = inl (NameError "wandb")
  /\ never is_best_save (epoch_body C G env su args e st).
Proof.
  intros Ht Hsp Hld Hlg Hw HG Hev Ha Hlt.
  assert (Htb : track_best C G env args e tst st = raise (NameError "wandb")).
  { unfold track_best, stat. rewrite Ha. cbn [bind ret]. rewrite Hlt, Hw, HG.
    reflexivity. }
  unfold epoch_body, evaluate_and_record, evaluate_branch.
  rewrite Hld, Ht, Hev, Hlg. split.
  - unfold logger_info, stat.
    repeat (rewrite outcome_bind;
            rewrite ?when_some_emit_ok, ?Hsp, ?Htb, ?Ha;
            cbn [outcome call ret raise emit snd]).
    reflexivity.
  - unfold save_periodic.
    do 4 (apply never_bind; [repeat never_step | intros ? ?]).
    apply never_bind; [| intros ? ?; repeat never_step].
    apply never_bind; [apply never_call; reflexivity | intros tst' [= <-]].
    apply never_bind; [repeat never_step | intros ? ?].
    apply never_bind; [rewrite Htb; apply never_raise |].
    intros st1 Hst1. rewrite Htb in Hst1. discriminate.
Qed.

Lemma wandb_summary_raises_name_error_witness :
  outcome (epoch_body (demo_collab demo_acc) patched_globals demo_wandb_env
             demo_setup demo_args 0 (initial_state demo_args))
  = inl (NameError "wandb").
Proof.
  apply (wandb_summary_raises_name_error (demo_collab demo_acc)
           patched_globals demo_wandb_env demo_setup demo_args 0
           (initial_state demo_args) [("loss", 2%float)]
           (demo_metrics 70%float) 70%float (mkLogger "out")
           {| ld_dataset := Some {| ds_len := 24 |}; ld_batch_size := 12 |} tt);
    reflexivity.
Defined.

(** ** The order of the training passes *)

Lemma trained_epochs_app evs evs' :
  trained_epochs (evs ++ evs') = (trained_epochs evs ++ trained_epochs evs')%list.
Proof. apply flat_map_app. Qed.

Lemma trained_epochs_never {A} (c : Run A) :
  never is_train c -> trained_epochs (events c) = [].
Proof.
  unfold never. induction (events c) as [| ev evs IH]; [reflexivity |].
  intros H. inversion H as [| ? ? Hev Hevs]; subst.
  destruct ev; try discriminate; simpl; now apply IH.
Qed.

Lemma in_trained_epochs evs e :
  In e (trained_epochs evs) <-> In (EvTrainOneEpoch e) evs.
Proof.
  unfold trained_epochs. rewrite in_flat_map. split.
  - intros (ev & Hin & He). destruct ev; simpl in He; try contradiction.
    destruct He as [<- | []]. exact Hin.
  - intros H. exists (EvTrainOneEpoch e). split; [exact H | now left].
Qed.

Lemma py_range_spec a b e : In e (py_range a b) <-> a <= e < b.
Proof.
  unfold py_range. rewrite in_map_iff. split.
  - intros (i & <- & Hi). apply in_seq in Hi. lia.
  - intros H. exists (Z.to_nat (e - a)). split; [lia |]. apply in_seq. lia.
Qed.

Lemma py_range_empty a b : b <= a -> py_range a b = [].
Proof.
  intros H. unfold py_range. replace (Z.to_nat (b - a)) with 0%nat by lia.
  reflexivity.
Qed.

Lemma epoch_body_trains_once C G env su args e st :
  trained_epochs (events (epoch_body C G env su args e st)) = [e].
Proof.
  unfold epoch_body.
  rewrite events_bind, trained_epochs_app, when_some_emit_ok.
  rewrite trained_epochs_never by repeat never_step.
  rewrite events_bind, trained_epochs_app, when_some_emit_ok.
  rewrite trained_epochs_never by repeat never_step.
  rewrite events_bind, trained_epochs_app. cbn [events call fst outcome snd].
  destruct (train_one_epoch C e) as [x | ts]; [reflexivity |].
  rewrite trained_epochs_never; [reflexivity |].
  apply never_bind; [unfold save_periodic; repeat never_step | intros _ _].
  apply (never_weaken train_or_epoch_save);
    [| apply evaluate_and_record_after_training].
  intros ev Hev. unfold train_or_epoch_save. now rewrite Hev.
Qed.

Lemma epoch_loop_trains_in_order C G env su args es :
  forall st, exists n : nat,
    trained_epochs (events (epoch_loop C G env su args es st)) = firstn n es
    /\ (forall st', outcome (epoch_loop C G env su args es st) = inr st' ->
                    n = length es).
Proof.
  unfold epoch_loop. induction es as [| e es IH]; intros st.
  - exists 0%nat. split; [reflexivity | reflexivity].
  - cbn [for_each]. rewrite events_bind, outcome_bind, trained_epochs_app.
    rewrite epoch_body_trains_once.
    destruct (outcome (epoch_body C G env su args e st)) as [x | s'].
    + exists 1%nat. split; [now destruct es | discriminate].
    + destruct (IH s') as (n & Hn & Hall). exists (S n). split.
      * cbn [firstn app]. now rewrite Hn.
      * intros st' H. cbn [length]. f_equal. now apply (Hall st').
Qed.

Lemma training_stage_trains_prefix C G env su args :
  exists n : nat,
    trained_epochs (events (training_stage C G env su args))
    = firstn n (py_range (start_epoch args) (epochs args))
    /\ (forall st, outcome (training_stage C G env su args) = inr st ->
                   trained_epochs (events (training_stage C G env su args))
                   = py_range (start_epoch args) (epochs args)).
Proof.
  set (range := py_range (start_epoch args) (epochs args)).
  unfold training_stage. fold range.
  destruct (logger env) as [lg |];
    [| exists 0%nat; split; [reflexivity | discriminate]].
  destruct (epoch_loop_trains_in_order C G env su args range
              (initial_state args)) as (n & Hn & Hall).
  assert (Hev : trained_epochs
                  (events
                     (logger_info (Some lg) (ret MsgStartTraining) ;;;
                      st <- epoch_loop C G env su args range (initial_state args) ;;
                      when (match wandb_logger env with Some _ => true | None => false end
                            && wandb_ckpt args && save_ckpt args
                            && str_truthy (output_dir args))
                        (emit (EvWandb "log_checkpoints")) ;;;
                      logger_info (Some lg) (ret MsgTrainingTime) ;;; ret st))
                = trained_epochs
                    (events (epoch_loop C G env su args range (initial_state args)))).
  { rewrite events_bind, trained_epochs_app.
    cbn [logger_info bind ret emit events outcome fst snd app trained_epochs flat_map].
    rewrite events_bind, trained_epochs_app.
    destruct (outcome (epoch_loop C G env su args range (initial_state args)));
      [now rewrite app_nil_r |].
    rewrite (trained_epochs_never (_ ;;; _))
      by (apply never_bind; [repeat never_step | intros; repeat constructor]).
    now rewrite app_nil_r. }
  exists n. rewrite Hev. split; [exact Hn |].
  intros st Hst. rewrite Hn.
  assert (Hl : exists st', outcome (epoch_loop C G env su args range
                                      (initial_state args)) = inr st').
  { rewrite outcome_bind in Hst. cbn [logger_info bind ret emit outcome snd] in Hst.
    rewrite outcome_bind in Hst.
    destruct (outcome (epoch_loop C G env su args range (initial_state args)))
      as [x | st']; [discriminate | eauto]. }
  destruct Hl as [st' Hst']. rewrite (Hall st' Hst'). apply firstn_all.
Qed.

(** The loop of lines 191-268 trains the epochs of
    [range(args.start_epoch, args.epochs)] from the first one on, each
    once and in increasing order, stopping where an exception ends the
    run: the trained epochs are a prefix of the range, all of it when the
    stage returns, and none when [args.epochs <= args.start_epoch]. *)
Theorem epochs_trained_in_order C G env su args :
  let range := py_range (start_epoch args) (epochs args) in
  (forall e, In e range <-> start_epoch args <= e < epochs args)
  /\ (exists n : nat,
        trained_epochs (events (training_stage C G env su args))
        = firstn n range
        /\ (forall st, outcome (training_stage C G env su args) = inr st ->
                       trained_epochs (events (training_stage C G env su args))
                       = range))
  /\ (epochs args <= start_epoch args ->
      never is_train (training_stage C G env su args)).
Proof.
  intros range. split; [intros e; apply py_range_spec |]. split.
  - apply training_stage_trains_prefix.
  - intros Hle. unfold training_stage. rewrite (py_range_empty _ _ Hle).
    unfold epoch_loop. cbn [for_each]. repeat never_step.
Qed.

(** The example: epochs 0, 1, 2, and nothing when resumed at epoch 3. *)
Lemma epochs_trained_in_order_witness :
  trained_epochs
    (events (training_stage (demo_collab demo_acc) patched_globals demo_env
               demo_setup demo_args)) = [0; 1; 2]
  /\ never is_train
       (training_stage (demo_collab demo_acc) patched_globals demo_env
          demo_setup demo_resumed_args).
Proof.
  destruct (epochs_trained_in_order (demo_collab demo_acc) patched_globals
              demo_env demo_setup demo_args) as (_ & (n & _ & Hall) & _).
  destruct (epochs_trained_in_order (demo_collab demo_acc) patched_globals
              demo_env demo_setup demo_resumed_args) as (_ & _ & Hnone).
  split.
  - apply (Hall {| max_accuracy := 72; max_accuracy_ema := None |}).
    vm_compute. reflexivity.
  - apply Hnone. vm_compute. discriminate.
Defined.

(** ** Resuming *)

Lemma setup_returns_loaded C G env a0 a' su :
  outcome (setup C G env a0) = inr (a', su) ->
  auto_load_model C (default_wd_end a0) = inr a'.
Proof.
  unfold setup, default_wd_end, read_global, read_local, logger_info, call.
  destruct (g_model G); [| discriminate].
  destruct (weight_decay_end a0) eqn:Ew; cbv zeta;
    cbn [weight_decay_end set_weight_decay_end]; rewrite ?Ew.
  all: destruct (model_ema a0), (logger env); simpl; try discriminate.
  all: destruct (_ =? 0); simpl; try discriminate.
  all: destruct (layer_decay_assigner a0); simpl; try discriminate.
  all: destruct (create_optimizer C a0 _) as [e | []]; simpl; try discriminate.
  all: destruct (g_mixup_fn G); simpl; try discriminate.
  all: destruct (auto_load_model C _); simpl; try discriminate.
  all: now intros [= <- _].
Qed.

(** [utils.auto_load_model] receives [args] by reference, and the loop
    bounds are read afterwards (line 191): every training pass of a run is
    for an epoch between the [start_epoch] and the [epochs] that
    [auto_load_model] left in [args], which it was handed after the writes
    of [main]. *)
Theorem training_resumes_where_auto_load_says load C G args e :
  In (EvTrainOneEpoch e) (events (main load C G args)) ->
  exists nb a',
    auto_load_model C (default_wd_end (after_prepare nb args)) = inr a'
    /\ eval a' = false
    /\ start_epoch a' <= e < epochs a'.
Proof.
  unfold main. intros H.
  apply in_events_bind in H as [H | ([a0 env] & Hp & H)].
  { apply (never_not_in is_train) in H; [discriminate |].
    apply prepare_quiet; reflexivity. }
  cbv zeta in H. simpl fst in H. simpl snd in H.
  destruct (prepare_result C args a0 env Hp) as [[nb ->] _].
  apply in_events_bind in H as [H | (G' & _ & H)].
  { apply (never_not_in is_train) in H; [discriminate |].
    apply init_model_quiet; reflexivity. }
  apply in_events_bind in H as [H | ([a' su] & Hs & H)].
  { apply (never_not_in is_train) in H; [discriminate |].
    apply setup_trains_nothing. }
  simpl fst in H. simpl snd in H.
  exists nb, a'. split; [now apply setup_returns_loaded in Hs |].
  destruct (eval a') eqn:Eev.
  { apply (never_not_in is_train) in H; [discriminate |].
    unfold eval_only. repeat never_step. }
  split; [reflexivity |].
  apply in_events_bind in H as [H | (st & _ & [])].
  destruct (training_stage_trains_prefix C G' env su a') as (n & Hn & _).
  apply in_trained_epochs in H. rewrite Hn in H.
  apply py_range_spec. revert H. clear.
  generalize (py_range (start_epoch a') (epochs a')). intros l.
  revert n. induction l as [| x l IH]; intros [| n]; simpl; try tauto.
  intros [-> | H]; [now left | right; eauto].
Qed.

Lemma training_resumes_where_auto_load_says_witness :
  exists nb a',
    auto_load_model (demo_collab demo_acc)
      (default_wd_end (after_prepare nb demo_args)) = inr a'
    /\ eval a' = false
    /\ start_epoch a' <= 1 < epochs a'.
Proof.
  apply (training_resumes_where_auto_load_says utils_load_state_dict
           (demo_collab demo_acc) patched_globals demo_args 1).
  vm_compute. in_list.
Defined.

(** ** The record file *)

Lemma filter_events_bind {A B} p (c : Run A) (k : A -> Run B) :
  List.filter p (events (bind c k))
  = (List.filter p (events c)
     ++ match outcome c with
        | inr a => List.filter p (events (k a))
        | inl _ => []
        end)%list.
Proof.
  rewrite events_bind, Stdlib.Lists.List.filter_app.
  now destruct (outcome c).
Qed.

Lemma filter_never {A} p (c : Run A) :
  never p c -> List.filter p (events c) = [].
Proof.
  unfold never. induction (events c) as [| ev evs IH]; [reflexivity |].
  intros H. inversion H as [| ? ? Hev Hevs]; subst. simpl. rewrite Hev.
  now apply IH.
Qed.

Lemma outcome_bind_inr {A B} (c : Run A) (k : A -> Run B) b :
  outcome (bind c k) = inr b ->
  exists a, outcome c = inr a /\ outcome (k a) = inr b.
Proof.
  rewrite outcome_bind. destruct (outcome c) as [e | a]; [discriminate |].
  eauto.
Qed.

Lemma record_branch_quiet C G env su args e ts st :
  never is_record
    (match data_loader_val env with
     | Some _ => evaluate_branch C G env su args e ts st
     | None =>
         ret (st, dict_update (dict_update [] (prefixed "train_" "" ts))
                              (base_log_stats su e))
     end).
Proof.
  unfold evaluate_branch, track_best, track_best_ema. repeat never_step.
Qed.

Lemma evaluate_and_record_records C G env su args e ts st :
  List.filter is_record (events (evaluate_and_record C G env su args e ts st))
  = match outcome
            (match data_loader_val env with
             | Some _ => evaluate_branch C G env su args e ts st
             | None =>
                 ret (st, dict_update
                            (dict_update [] (prefixed "train_" "" ts))
                            (base_log_stats su e))
             end) with
    | inr r =>
        if str_truthy (output_dir args)
        then [EvRecord (os_path_join (output_dir args) "record.txt") (snd r)]
        else []
    | inl _ => []
    end.
Proof.
  unfold evaluate_and_record.
  rewrite filter_events_bind.
  rewrite (filter_never _ _ (record_branch_quiet C G env su args e ts st)).
  destruct (outcome _) as [x | r]; [reflexivity |].
  cbn [app]. rewrite filter_events_bind.
  assert (Htail : forall x : unit,
            List.filter is_record
              (events (when_some (wandb_logger env)
                         (emit (EvWandb "log_epoch_metrics")) ;;; ret (fst r)))
            = []).
  { intros _. apply filter_never. repeat never_step. }
  destruct (str_truthy (output_dir args)); cbn [when].
  - rewrite outcome_bind, when_some_emit_ok. cbn [outcome emit snd].
    rewrite (Htail tt), app_nil_r.
    rewrite filter_events_bind, when_some_emit_ok.
    rewrite (filter_never _ (when_some _ _)) by repeat never_step.
    reflexivity.
  - cbn [ret events outcome fst snd List.filter app].
    apply (Htail tt).
Qed.

Lemma epoch_body_records C G env su args e st :
  List.filter is_record (events (epoch_body C G env su args e st))
  = match train_one_epoch C e with
    | inr ts =>
        match outcome (save_periodic C args e) with
        | inr _ =>
            List.filter is_record
              (events (evaluate_and_record C G env su args e ts st))
        | inl _ => []
        end
    | inl _ => []
    end.
Proof.
  unfold epoch_body.
  rewrite filter_events_bind, when_some_emit_ok.
  rewrite (filter_never _ (when_some _ _)) by repeat never_step.
  rewrite filter_events_bind, when_some_emit_ok.
  rewrite (filter_never _ (when_some _ _)) by repeat never_step.
  rewrite filter_events_bind.
  cbn [events call fst outcome snd List.filter is_record app].
  destruct (train_one_epoch C e) as [x | ts]; [reflexivity |].
  rewrite filter_events_bind.
  rewrite (filter_never _ (save_periodic C args e))
    by (unfold save_periodic; repeat never_step).
  reflexivity.
Qed.

(** Lines 261-265: an epoch that completes appends exactly one line to
    ['record.txt'] under [args.output_dir] when that is non-empty, and none
    otherwise; an epoch that ends in an exception appends at most one. *)
Theorem one_record_line_per_epoch C G env su args e st :
  (forall path line,
     In (EvRecord path line) (events (epoch_body C G env su args e st)) ->
     str_truthy (output_dir args) = true
     /\ path = os_path_join (output_dir args) "record.txt")
  /\ (length (List.filter is_record (events (epoch_body C G env su args e st)))
      <= 1)%nat
  /\ (forall st', outcome (epoch_body C G env su args e st) = inr st' ->
        length (List.filter is_record (events (epoch_body C G env su args e st)))
        = if str_truthy (output_dir args) then 1%nat else 0%nat).
Proof.
  pose proof (epoch_body_records C G env su args e st) as Hall.
  pose proof (fun ts => evaluate_and_record_records C G env su args e ts st)
    as Hpre.
  split; [| split].
  - intros path line Hin.
    assert (Hf : In (EvRecord path line)
                   (List.filter is_record
                      (events (epoch_body C G env su args e st))))
      by (apply filter_In; split; [exact Hin | reflexivity]).
    rewrite Hall in Hf.
    destruct (train_one_epoch C e) as [x | ts]; [destruct Hf |].
    destruct (outcome (save_periodic C args e)); [destruct Hf |].
    rewrite Hpre in Hf. destruct (outcome _); [destruct Hf |].
    destruct (str_truthy (output_dir args)); [| destruct Hf].
    destruct Hf as [[= <- <-] | []]. split; reflexivity.
  - rewrite Hall.
    destruct (train_one_epoch C e) as [x | ts]; [simpl; lia |].
    destruct (outcome (save_periodic C args e)); [simpl; lia |].
    rewrite Hpre. destruct (outcome _); [simpl; lia |].
    destruct (str_truthy (output_dir args)); simpl; lia.
  - intros st' Hst'. rewrite Hall. unfold epoch_body in Hst'.
    apply outcome_bind_inr in Hst' as (_ & _ & Hst').
    apply outcome_bind_inr in Hst' as (_ & _ & Hst').
    apply outcome_bind_inr in Hst' as (ts & Hts & Hst').
    cbn [outcome call snd] in Hts. rewrite Hts.
    apply outcome_bind_inr in Hst' as ([] & Hsp & Hst').
    rewrite Hsp, Hpre. unfold evaluate_and_record in Hst'.
    apply outcome_bind_inr in Hst' as (r & Hr & _).
    rewrite Hr. now destruct (str_truthy (output_dir args)).
Qed.

(** ** The accumulators only move up *)

Lemma track_best_moves_up C G env args e ts st :
  returns (fun st' => moved_up (max_accuracy st) (max_accuracy st')
                      /\ max_accuracy_ema st' = max_accuracy_ema st)
    (track_best C G env args e ts st).
Proof.
  unfold track_best.
  eapply returns_bind; [apply stat_returns |]. intros a Ha. simpl.
  destruct (flt (max_accuracy st) a) eqn:E.
  - eapply returns_bind; [apply returns_trivial |]. intros _ _.
    eapply returns_bind; [apply returns_trivial |]. intros _ _.
    apply returns_ret. split; [now right | reflexivity].
  - apply returns_ret. split; [now left | reflexivity].
Qed.

Lemma track_best_ema_moves_up C env args ts st :
  returns (fun st' => max_accuracy st' = max_accuracy st
                      /\ exists m m', max_accuracy_ema st = Some m
                                      /\ max_accuracy_ema st' = Some m'
                                      /\ moved_up m m')
    (track_best_ema C env args ts st).
Proof.
  unfold track_best_ema.
  eapply returns_bind.
  { instantiate (1 := fun cur => max_accuracy_ema st = Some cur).
    unfold read_local. destruct (max_accuracy_ema st);
      [now apply returns_ret | apply returns_raise]. }
  intros cur Hcur. simpl.
  eapply returns_bind; [apply stat_returns |]. intros a Ha. simpl.
  destruct (flt cur a) eqn:E.
  - eapply returns_bind; [apply returns_trivial |]. intros _ _.
    eapply returns_bind; [apply returns_trivial |]. intros _ _.
    apply returns_ret. split; [reflexivity |].
    exists cur, a. repeat split; [exact Hcur | now right].
  - apply returns_ret. split; [reflexivity |].
    exists cur, cur. repeat split; [exact Hcur | exact Hcur | now left].
Qed.

(** Lines 217-218 and 246-247 assign an accumulator only under a strict
    [<]: in every epoch that completes, whatever the collaborators return,
    [max_accuracy] is unchanged or strictly larger than before, and so is
    [max_accuracy_ema] where it is bound; an unbound [max_accuracy_ema]
    stays unbound. A NaN never becomes the best accuracy of a run. *)
Theorem accumulators_only_move_up C G env su args e st st' :
  outcome (epoch_body C G env su args e st) = inr st' ->
  moved_up (max_accuracy st) (max_accuracy st')
  /\ match max_accuracy_ema st with
     | Some m => exists m', max_accuracy_ema st' = Some m' /\ moved_up m m'
     | None => max_accuracy_ema st' = None
     end
  /\ (fle (max_accuracy st) (max_accuracy st) = true ->
      fle (max_accuracy st') (max_accuracy st') = true).
Proof.
  set (Q := fun s : LoopState =>
              moved_up (max_accuracy st) (max_accuracy s)
              /\ match max_accuracy_ema st with
                 | Some m => exists m', max_accuracy_ema s = Some m'
                                        /\ moved_up m m'
                 | None => max_accuracy_ema s = None
                 end).
  assert (HQ : Q st).
  { split; [now left |]. destruct (max_accuracy_ema st) as [m |];
      [exists m; split; [reflexivity | now left] | reflexivity]. }
  assert (H : returns Q (epoch_body C G env su args e st)).
  { unfold epoch_body, evaluate_and_record.
    eapply returns_bind; [apply returns_trivial |]. intros _ _.
    eapply returns_bind; [apply returns_trivial |]. intros _ _.
    eapply returns_bind; [apply returns_trivial |]. intros ts _.
    eapply returns_bind; [apply returns_trivial |]. intros _ _.
    eapply returns_bind.
    { instantiate (1 := fun r => Q (fst r)).
      destruct (data_loader_val env); [| now apply returns_ret].
      unfold evaluate_branch.
      eapply returns_bind; [apply returns_trivial |]. intros tst _.
      eapply returns_bind; [apply returns_trivial |]. intros _ _.
      eapply returns_bind; [apply track_best_moves_up |].
      intros st1 [Hup Hema].
      assert (HQ1 : Q st1).
      { split; [exact Hup |]. rewrite Hema.
        destruct (max_accuracy_ema st) as [m |];
          [exists m; split; [reflexivity | now left] | reflexivity]. }
      eapply returns_bind; [apply returns_trivial |]. intros acc1 _.
      eapply returns_bind; [apply returns_trivial |]. intros _ _.
      eapply returns_bind; [apply returns_trivial |]. intros _ _.
      eapply returns_bind; [apply returns_trivial |]. intros _ _.
      cbv zeta. destruct (ema_eval_on args); [| now apply returns_ret].
      eapply returns_bind; [apply returns_trivial |]. intros _ _.
      eapply returns_bind; [apply returns_trivial |]. intros tse _.
      eapply returns_bind; [apply track_best_ema_moves_up |].
      intros st2 (Hm & m & m' & Hs1 & Hs2 & Hmm).
      eapply returns_bind; [apply returns_trivial |]. intros _ _.
      apply returns_ret. simpl. split; [now rewrite Hm |].
      rewrite <- Hema, Hs1. exists m'. split; [exact Hs2 | exact Hmm]. }
    intros r Hr.
    eapply returns_bind; [apply returns_trivial |]. intros _ _.
    eapply returns_bind; [apply returns_trivial |]. intros _ _.
    now apply returns_ret. }
  intros Hout. destruct (H st' Hout) as [Hup Hema].
  split; [exact Hup |]. split; [exact Hema |].
  intros Hnum. destruct Hup as [-> | Hlt]; [exact Hnum |].
  now apply flt_is_number_r in Hlt.
Qed.

(** Epoch 1 of the example: 65.0 does not beat 70.0. *)
Lemma accumulators_only_move_up_witness :
  outcome (epoch_body (demo_collab demo_acc) patched_globals demo_env
             demo_setup demo_args 1
             {| max_accuracy := 70; max_accuracy_ema := None |})
  = inr {| max_accuracy := 70; max_accuracy_ema := None |}
  /\ moved_up 70%float 70%float.
Proof.
  assert (E : outcome (epoch_body (demo_collab demo_acc) patched_globals
                         demo_env demo_setup demo_args 1
                         {| max_accuracy := 70; max_accuracy_ema := None |})
              = inr {| max_accuracy := 70; max_accuracy_ema := None |})
    by (vm_compute; reflexivity).
  split; [exact E |].
  exact (proj1 (accumulators_only_move_up _ _ _ _ _ _ _ _ E)).
Defined.

(** ** A NaN accuracy *)

Lemma flt_nan_r m a : fle a a = false -> flt m a = false.
Proof.
  intros Hnan. destruct (flt m a) eqn:E; [| reflexivity].
  apply flt_is_number_r in E. congruence.
Qed.

(** [max_accuracy < test_stats["acc1"]] is false when the accuracy is NaN:
    an evaluation that reports NaN writes no ["best"] checkpoint, and one
    of the EMA model that reports NaN writes no ["best-ema"] checkpoint. *)
Theorem nan_accuracy_saves_nothing C G env su args e st :
  (forall ts a,
     evaluate C (data_loader_val env) Primary (Some e) = inr ts ->
     dict_get "acc1" ts = Some a -> fle a a = false ->
     never is_best_save (epoch_body C G env su args e st))
  /\ (forall ts a,
        evaluate C (data_loader_val env) Ema (Some e) = inr ts ->
        dict_get "acc1" ts = Some a -> fle a a = false ->
        never is_best_ema_save (epoch_body C G env su args e st)).
Proof.
  split; intros ts a Hev Ha Hnan.
  - unfold epoch_body, save_periodic.
    repeat never_step.
    unfold evaluate_and_record. never_step; [| repeat never_step].
    unfold evaluate_branch.
    destruct (data_loader_val env) as [ld |] eqn:El; [| apply never_ret].
    apply never_bind; [apply never_call; reflexivity |]. intros ts' Hts'.
    apply (call_returned _ _ _ _ Hev) in Hts'. subst ts'.
    apply never_bind; [repeat never_step |]. intros _ _.
    assert (Htb : track_best C G env args e ts st = ret st).
    { unfold track_best, stat. rewrite Ha. simpl.
      now rewrite (flt_nan_r _ _ Hnan). }
    rewrite Htb.
    repeat (never_step || apply track_best_ema_only_best_ema).
  - unfold epoch_body, save_periodic.
    repeat never_step.
    unfold evaluate_and_record. never_step; [| repeat never_step].
    unfold evaluate_branch.
    destruct (data_loader_val env) as [ld |] eqn:El; [| apply never_ret].
    apply never_bind; [apply never_call; reflexivity |]. intros tsp _.
    apply never_bind; [repeat never_step |]. intros _ _.
    apply never_bind; [apply track_best_only_best |]. intros st1 _.
    apply never_bind; [repeat never_step |]. intros acc1 _.
    apply never_bind; [repeat never_step |]. intros _ _.
    apply never_bind; [repeat never_step |]. intros _ _.
    apply never_bind; [repeat never_step |]. intros _ _.
    cbv zeta. destruct (ema_eval_on args); [| apply never_ret].
    apply never_bind; [repeat never_step |]. intros _ _.
    apply never_bind; [apply never_call; reflexivity |]. intros ts' Hts'.
    apply (call_returned _ _ _ _ Hev) in Hts'. subst ts'.
    apply never_bind.
    { unfold track_best_ema, stat, read_local.
      destruct (max_accuracy_ema st1) as [cur |]; [| apply never_raise].
      cbn [bind ret]. rewrite Ha. cbn [bind ret app].
      rewrite (flt_nan_r _ _ Hnan). apply never_ret. }
    intros st2 _. repeat never_step.
Qed.

(** A first epoch whose evaluation reports NaN. *)
Lemma nan_accuracy_saves_nothing_witness :
  fle demo_nan demo_nan = false
  /\ never is_best_save
       (epoch_body (demo_collab (fun _ => demo_nan)) patched_globals demo_env
          demo_setup demo_args 0 (initial_state demo_args)).
Proof.
  split; [reflexivity |].
  destruct (nan_accuracy_saves_nothing (demo_collab (fun _ => demo_nan))
              patched_globals demo_env demo_setup demo_args 0
              (initial_state demo_args)) as [H _].
  apply (H (demo_metrics demo_nan) demo_nan); reflexivity.
Defined.

(** ** The [__main__] block *)

Lemma str_truthy_append a b : str_truthy b = true -> str_truthy (a +:+ b) = true.
Proof. destruct a; [now intros | reflexivity]. Qed.

Lemma os_path_join_truthy a b :
  str_truthy b = true -> str_truthy (os_path_join a b) = true.
Proof.
  intros Hb. unfold os_path_join.
  destruct (starts_with_sep b); [exact Hb |].
  destruct (negb (str_truthy a) || ends_with_sep a);
    repeat apply str_truthy_append; exact Hb.
Qed.

Lemma output_dir_for_main_truthy args :
  str_truthy (output_dir (args_for_main args)) = true.
Proof.
  unfold args_for_main, set_output_dir. cbn [output_dir].
  apply os_path_join_truthy. apply str_truthy_append. reflexivity.
Qed.

(** Line 284 appends ['<dataset>_<tag>'] to [args.output_dir], so the test
    of line 286 always holds: every run from the [__main__] block first
    creates the output directory, then writes ['config.txt'], then calls
    [main] -- in which [args.output_dir] is never empty, so that
    checkpoint writing is governed by [args.save_ckpt] alone. Without CUDA
    the run leaves the directory and the snapshot behind and does nothing
    else. *)
Theorem main_block_always_creates_directory load C args :
  let a := args_for_main args in
  str_truthy (output_dir a) = true
  /\ save_enabled a = save_ckpt args
  /\ events (script load C args)
     = EvMkdir (output_dir a)
       :: EvConfigSnapshot (os_path_join (output_dir a) "config.txt")
            (args_dict a)
       :: events (main load C module_globals a)
  /\ (cuda_is_available C = false ->
      script load C args
      = ([EvMkdir (output_dir a);
          EvConfigSnapshot (os_path_join (output_dir a) "config.txt")
            (args_dict a)],
         inl AssertionError)).
Proof.
  intros a. pose proof (output_dir_for_main_truthy args) as Ht. fold a in Ht.
  assert (Hs : script load C args
               = (when true (emit (EvMkdir (output_dir a))) ;;;
                  emit (EvConfigSnapshot (os_path_join (output_dir a) "config.txt")
                          (args_dict a)) ;;;
                  main load C module_globals a)).
  { unfold script. cbv zeta. fold (args_for_main args). fold a.
    now rewrite Ht. }
  split; [exact Ht |]. split.
  { unfold save_enabled. rewrite Ht. reflexivity. }
  split.
  - rewrite Hs. rewrite events_bind. cbn [when emit events outcome fst snd app].
    rewrite events_bind. reflexivity.
  - intros Hc. rewrite Hs.
    assert (Hm : main load C module_globals a = ([], inl AssertionError)).
    { unfold main, prepare. rewrite Hc. reflexivity. }
    rewrite Hm. reflexivity.
Qed.

(** The example without CUDA. *)
Lemma main_block_always_creates_directory_witness :
  script utils_load_state_dict demo_no_cuda_collab demo_args
  = ([EvMkdir "out/cub_run";
      EvConfigSnapshot "out/cub_run/config.txt"
        (args_dict (args_for_main demo_args))],
     inl AssertionError).
Proof.
  destruct (main_block_always_creates_directory utils_load_state_dict
              demo_no_cuda_collab demo_args) as (_ & _ & _ & H).
  apply H. reflexivity.
Defined.

(** ** Foreign weights: the error paths *)

Lemma select_model_key_without_logger checkpoint keys :
  select_model_key None checkpoint keys
  = if existsb (has_key checkpoint) keys
    then raise (AttributeError "info") else ret ENone.
Proof.
  induction keys as [| k keys IH]; [reflexivity |].
  cbn [select_model_key existsb]. unfold has_key at 1.
  destruct (checkpoint !! k) as [v |] eqn:E.
  - rewrite bool_decide_eq_true_2 by eauto. reflexivity.
  - rewrite bool_decide_eq_false_2 by (intros [? ?]; congruence).
    exact IH.
Qed.

Lemma select_model_key_absent lg checkpoint keys :
  existsb (has_key checkpoint) keys = false ->
  select_model_key lg checkpoint keys = ret ENone.
Proof.
  induction keys as [| k keys IH]; [reflexivity |].
  cbn [select_model_key existsb]. unfold has_key at 1.
  destruct (checkpoint !! k) as [v |] eqn:E.
  - rewrite bool_decide_eq_true_2 by eauto. discriminate.
  - rewrite bool_decide_eq_false_2 by (intros [? ?]; congruence).
    exact IH.
Qed.

(** Line 98 calls [logger.info] only when a preferred key is found. Without
    a logger (evaluation mode), an artifact that has one of the preferred
    keys ends the load in [AttributeError] before any weight is loaded;
    an artifact that has none of them is loaded exactly as it is with a
    logger. *)
Theorem key_search_without_logger load C args m checkpoint :
  torch_load C (finetune args) = inr checkpoint ->
  let keys := py_split "|" (model_key args) in
  (existsb (has_key checkpoint) keys = true ->
   load_foreign_weights load C None args m
   = ([EvTorchLoad (finetune args)], inl (AttributeError "info")))
  /\ (existsb (has_key checkpoint) keys = false ->
      forall lg,
        load_foreign_weights load C None args m
        = load_foreign_weights load C (Some lg) args m).
Proof.
  intros Hload keys. split.
  - intros Hk. unfold load_foreign_weights, call. rewrite Hload.
    rewrite (bind_ok _ _ [EvTorchLoad (finetune args)] checkpoint eq_refl).
    fold keys.
    rewrite select_model_key_without_logger, Hk. reflexivity.
  - intros Hk lg. unfold load_foreign_weights, call. rewrite Hload.
    rewrite !(bind_ok _ _ [EvTorchLoad (finetune args)] checkpoint eq_refl).
    fold keys.
    rewrite !(select_model_key_absent _ _ _ Hk). reflexivity.
Qed.

(** The nested backbone of the example has the key ['model']; the flat one
    has neither ['model'] nor ['module']. *)
Lemma key_search_without_logger_witness :
  load_foreign_weights utils_load_state_dict (demo_collab demo_acc) None
    demo_args demo_model
  = ([EvTorchLoad "backbone.pth"], inl (AttributeError "info"))
  /\ load_foreign_weights utils_load_state_dict
       (demo_collab_with demo_flat_backbone demo_acc) None demo_args demo_model
     = load_foreign_weights utils_load_state_dict
         (demo_collab_with demo_flat_backbone demo_acc)
         (Some (mkLogger "out")) demo_args demo_model.
Proof.
  split.
  - apply (key_search_without_logger utils_load_state_dict
             (demo_collab demo_acc) demo_args demo_model demo_backbone);
      reflexivity.
  - apply (key_search_without_logger utils_load_state_dict
             (demo_collab_with demo_flat_backbone demo_acc) demo_args
             demo_model demo_flat_backbone); reflexivity.
Defined.

(** Line 104 reads [checkpoint_model[k].shape] and [state_dict[k].shape] for
    each head key that the nested table has: a head entry that is [None]
    ends the load in [AttributeError], and a head tensor for which the
    model has no parameter ends it in [KeyError] -- in both cases before
    [utils.load_state_dict] is called. *)
Theorem head_entries_that_end_the_load load C lg args m checkpoint d :
  torch_load C (finetune args) = inr checkpoint ->
  nested_table (py_split "|" (model_key args)) checkpoint = ETable d ->
  let run := load_foreign_weights load C (Some lg) args m in
  (d !! "head.weight" = Some ENone ->
   outcome run = inl (AttributeError "shape") /\ never is_load_state run)
  /\ (forall t, d !! "head.weight" = Some (ETensor t) ->
        weights m !! "head.weight" = None ->
        outcome run = inl (KeyError "head.weight") /\ never is_load_state run).
Proof.
  intros Hload Hnested run.
  destruct (selected_table lg checkpoint _ d Hnested) as (found & Hsel & Hcm).
  assert (Hgen : forall x,
            drop_mismatched (weights m) "head.weight" (ETable d) = raise x ->
            outcome run = inl x /\ never is_load_state run).
  { intros x Hx. unfold run, load_foreign_weights. rewrite Hload. split.
    - rewrite outcome_bind. cbn [outcome call snd].
      rewrite outcome_bind, Hsel. cbv zeta. rewrite Hcm, Hx. reflexivity.
    - apply never_bind; [apply never_call; reflexivity | intros ck [= <-]].
      apply never_bind; [apply select_model_key_quiet; reflexivity |].
      intros found' Hf. rewrite Hsel in Hf. injection Hf as <-.
      cbv zeta. rewrite Hcm, Hx. apply never_bind; [apply never_raise |].
      intros ? [=]. }
  split.
  - intros Hd. apply Hgen. unfold drop_mismatched. rewrite Hd. reflexivity.
  - intros t Hd Hm. apply Hgen. unfold drop_mismatched. rewrite Hd, Hm.
    reflexivity.
Qed.

(** The backbone of the example loaded into a model without a head. *)
Lemma head_entries_that_end_the_load_witness :
  outcome (load_foreign_weights utils_load_state_dict (demo_collab demo_acc)
             (Some (mkLogger "out")) demo_args demo_headless_model)
  = inl (KeyError "head.weight").
Proof.
  destruct (head_entries_that_end_the_load utils_load_state_dict
              (demo_collab demo_acc) (mkLogger "out") demo_args
              demo_headless_model demo_backbone demo_nested) as [_ H];
    [reflexivity | vm_compute; reflexivity |].
  apply (H (demo_tensor [1000; 16] 1%float)); vm_compute; reflexivity.
Defined.

(** ** Evaluation only: what is handed to the model *)

(** Lines 176-179: [torch.load(...)["model"]] raises [KeyError] on an
    artifact without the key ['model'], before anything is loaded or
    evaluated; and whatever table [model.load_state_dict] receives holds
    only parameter names of the current model, each with the value the
    artifact's ['model'] table has for it. *)
Theorem evaluation_only_loads_model_keys C env su args :
  let path := "checkpoint/" +:+ dataset args +:+ ".pth" in
  (forall lg art,
     logger env = Some lg -> torch_load C path = inr art ->
     art !! "model" = None ->
     eval_only C env su args
     = ([EvLog MsgEvalOnly; EvTorchLoad path], inl (KeyError "model")))
  /\ (forall ckpt,
        In (EvModelLoadStateDict ckpt) (events (eval_only C env su args)) ->
        exists art d,
          torch_load C path = inr art /\ art !! "model" = Some (ETable d)
          /\ forall k v, ckpt !! k = Some v <->
                         d !! k = Some v
                         /\ is_Some (weights (the_model su) !! k)).
Proof.
  intros path. split.
  - intros lg art Hlg Hload Hm. unfold eval_only. fold path.
    rewrite Hlg, Hload. cbv zeta. unfold call.
    cbn [logger_info bind ret emit app]. rewrite Hm. reflexivity.
  - intros ckpt Hin. unfold eval_only in Hin. fold path in Hin.
    apply in_events_bind in Hin as [Hin | (_ & _ & Hin)].
    { apply (never_not_in is_model_load) in Hin; [discriminate |].
      repeat never_step. }
    cbv zeta in Hin.
    apply in_events_bind in Hin as [Hin | (art & Hart & Hin)].
    { destruct Hin as [Hin | []]. discriminate. }
    cbn [outcome call snd] in Hart.
    apply in_events_bind in Hin as [Hin | (d & Hd & Hin)].
    { apply (never_not_in is_model_load) in Hin; [discriminate |].
      repeat never_step. }
    assert (Hmodel : art !! "model" = Some (ETable d)).
    { destruct (art !! "model") as [[| | d' |] |]; try discriminate Hd.
      now injection Hd as ->. }
    apply in_events_bind in Hin as [Hin | (_ & _ & Hin)].
    + destruct Hin as [[= <-] | []].
      exists art, d. split; [exact Hart |]. split; [exact Hmodel |].
      intros k v. rewrite map_lookup_filter_Some. reflexivity.
    + apply (never_not_in is_model_load) in Hin; [discriminate |].
      repeat never_step.
Qed.

(** The evaluation-only branch of the example, run with a logger: the
    table that is loaded has the key ['stem.weight']. *)
Lemma evaluation_only_loads_model_keys_witness :
  exists ckpt art d,
    In (EvModelLoadStateDict ckpt)
       (events (eval_only (demo_collab demo_acc) demo_env demo_setup
                  (demo_with true false true "convnext_base" 0.75%float)))
    /\ torch_load (demo_collab demo_acc) "checkpoint/cub.pth" = inr art
    /\ art !! "model" = Some (ETable d)
    /\ (ckpt !! "stem.weight" = Some (ETensor (demo_tensor [4] 1%float))
        <-> d !! "stem.weight" = Some (ETensor (demo_tensor [4] 1%float))
            /\ is_Some (weights (the_model demo_setup) !! "stem.weight")).
Proof.
  pose (ckpt := filter (fun kv : string * entry =>
                          is_Some (weights (the_model demo_setup) !! fst kv))
                       demo_nested).
  assert (Hin : In (EvModelLoadStateDict ckpt)
                  (events (eval_only (demo_collab demo_acc) demo_env demo_setup
                             (demo_with true false true "convnext_base"
                                0.75%float))))
    by (right; right; left; reflexivity).
  destruct (evaluation_only_loads_model_keys (demo_collab demo_acc) demo_env
              demo_setup (demo_with true false true "convnext_base" 0.75%float))
    as [_ H].
  destruct (H ckpt Hin) as (art & d & H1 & H2 & H3).
  exists ckpt, art, d.
  split; [exact Hin |]. split; [exact H1 |]. split; [exact H2 |]. apply H3.
Defined.

(** ** EMA evaluation off *)

(** The EMA model is evaluated, and a ["best-ema"] checkpoint written, only
    under [args.model_ema and args.model_ema_eval] (line 241): when either
    flag is off the training stage does neither, and [setup] builds the
    EMA model only when [args.model_ema] is set. *)
Theorem ema_evaluation_needs_both_flags C G env su args :
  (ema_eval_on args = false ->
   never is_ema_evaluate (training_stage C G env su args)
   /\ never is_best_ema_save (training_stage C G env su args))
  /\ (model_ema args = false -> never is_model_ema (setup C G env args)).
Proof.
  split.
  - intros H.
    split; unfold training_stage, epoch_loop.
    + repeat (never_step || apply never_for_each; intros).
      all: unfold epoch_body, evaluate_and_record, evaluate_branch,
             track_best, track_best_ema, save_periodic.
      all: repeat (never_step
                   || match goal with
                      | H' : true = false |- _ => discriminate H'
                      end).
    + repeat (never_step || apply never_for_each; intros).
      all: unfold epoch_body, evaluate_and_record, evaluate_branch,
             track_best, track_best_ema, save_periodic.
      all: repeat (never_step
                   || match goal with
                      | H' : true = false |- _ => discriminate H'
                      end).
  - intros H. unfold setup. rewrite H. repeat never_step.
Qed.

(** The example with [model_ema] set and [model_ema_eval] off. *)
Lemma ema_evaluation_needs_both_flags_witness :
  never is_ema_evaluate
    (training_stage (demo_collab demo_acc) patched_globals demo_env
       demo_ema_setup demo_ema_unevaluated_args)
  /\ In EvModelEma
        (events (setup (demo_collab demo_acc) demo_globals demo_env
                   demo_ema_unevaluated_args)).
Proof.
  destruct (ema_evaluation_needs_both_flags (demo_collab demo_acc)
              patched_globals demo_env demo_ema_setup
              demo_ema_unevaluated_args) as [H _].
  split; [apply H; reflexivity |]. vm_compute. in_list.
Defined.

(** ** The log entry of an evaluated epoch *)

Lemma dict_set_fresh {V} (k : string) (v : V) d :
  ~ In k (map fst d) -> dict_set k v d = (d ++ [(k, v)])%list.
Proof.
  induction d as [| [k' v'] d IH]; [reflexivity |].
  intros Hk. cbn [dict_set]. destruct (String.eqb_spec k k') as [-> | Hne].
  - destruct Hk. now left.
  - cbn [app]. f_equal. apply IH. intros Hin. apply Hk. now right.
Qed.

Lemma dict_update_fresh {V} (items d : pydict V) :
  NoDup (map fst items) ->
  (forall k, In k (map fst items) -> ~ In k (map fst d)) ->
  dict_update d items = (d ++ items)%list.
Proof.
  unfold dict_update. revert d.
  induction items as [| [k v] items IH]; intros d Hnd Hfresh.
  - cbn [fold_left]. now rewrite app_nil_r.
  - cbn [fold_left fst snd]. inversion Hnd as [| ? ? Hk Hnd']; subst.
    rewrite dict_set_fresh by (apply Hfresh; now left).
    rewrite IH.
    + now rewrite <- app_assoc.
    + exact Hnd'.
    + intros k' Hk'. rewrite map_app, in_app_iff. cbn [map fst In].
      intros [Hd | [<- | []]].
      * apply (Hfresh k'); [now right | exact Hd].
      * now apply Hk, list_elem_of_In.
Qed.

Lemma append_empty_r (s : string) : s +:+ "" = s.
Proof.
  induction s as [| c s IH]; [reflexivity |].
  change (String c (s +:+ "") = String c s). now rewrite IH.
Qed.

Lemma append_cancel_l (p s s' : string) : p +:+ s = p +:+ s' -> s = s'.
Proof.
  induction p as [| c p IH]; [now intros |].
  change (String c (p +:+ s) = String c (p +:+ s') -> s = s').
  intros [= H]. now apply IH.
Qed.

Lemma prefixed_keys pre (s : stats) :
  map fst (prefixed pre "" s) = map (fun k => pre +:+ k) (map fst s).
Proof.
  unfold prefixed. rewrite !map_map. apply map_ext. intros [k v]. simpl.
  now rewrite append_empty_r.
Qed.

Lemma prefixed_keys_nodup pre (s : stats) :
  NoDup (map fst s) -> NoDup (map fst (prefixed pre "" s)).
Proof.
  rewrite prefixed_keys. generalize (map fst s). intros l Hl.
  induction Hl as [| k l Hk Hl IH]; [constructor |].
  cbn [map]. constructor; [| exact IH].
  rewrite list_elem_of_In, in_map_iff. intros (k' & Heq & Hin).
  apply append_cancel_l in Heq. subst. now apply Hk, list_elem_of_In.
Qed.

Lemma in_prefixed_keys pre (s : stats) k :
  In k (map fst (prefixed pre "" s)) -> exists k', k = pre +:+ k'.
Proof.
  rewrite prefixed_keys, in_map_iff. intros (k' & <- & _). eauto.
Qed.

(** The entry that lines 235-238 build. *)
Lemma log_entry_is_a_concatenation su e (ts tst : stats) :
  NoDup (map fst ts) -> NoDup (map fst tst) ->
  dict_update
    (dict_update (dict_update [] (prefixed "train_" "" ts))
                 (prefixed "test_" "" tst))
    (base_log_stats su e)
  = (prefixed "train_" "" ts ++ prefixed "test_" "" tst
     ++ base_log_stats su e)%list.
Proof.
  intros Hts Htst.
  rewrite (dict_update_fresh (prefixed "train_" "" ts) [])
    by (try apply prefixed_keys_nodup; auto).
  cbn [app].
  rewrite (dict_update_fresh (prefixed "test_" "" tst)).
  - rewrite dict_update_fresh; [now rewrite <- app_assoc | |].
    + unfold base_log_stats. cbn [map fst].
      repeat constructor; rewrite list_elem_of_In; cbn [In];
        intuition discriminate.
    + intros k Hk. unfold base_log_stats in Hk. cbn [map fst In] in Hk.
      rewrite map_app, in_app_iff.
      intros [Hin | Hin]; apply in_prefixed_keys in Hin as [k' ->];
        destruct Hk as [Hk | [Hk | []]]; discriminate Hk.
  - now apply prefixed_keys_nodup.
  - intros k Hk Hin.
    apply in_prefixed_keys in Hk as [k1 ->].
    apply in_prefixed_keys in Hin as [k2 Heq]. discriminate Heq.
Qed.

Lemma evaluate_branch_entry C G env su args e ts tst st :
  evaluate C (data_loader_val env) Primary (Some e) = inr tst ->
  ema_eval_on args = false ->
  returns (fun r => snd r
                    = dict_update
                        (dict_update (dict_update [] (prefixed "train_" "" ts))
                                     (prefixed "test_" "" tst))
                        (base_log_stats su e))
    (evaluate_branch C G env su args e ts st).
Proof.
  intros Hev Hema. unfold evaluate_branch. rewrite Hev, Hema.
  eapply returns_bind; [apply returns_outcome |]. intros tst' [= <-].
  eapply returns_bind; [apply returns_trivial |]. intros _ _.
  eapply returns_bind; [apply returns_trivial |]. intros st1 _.
  eapply returns_bind; [apply returns_trivial |]. intros acc1 _.
  eapply returns_bind; [apply returns_trivial |]. intros _ _.
  eapply returns_bind; [apply returns_trivial |]. intros _ _.
  eapply returns_bind; [apply returns_trivial |]. intros _ _.
  now apply returns_ret.
Qed.

(** Lines 235-238 and 261-265, in an epoch with evaluation and without EMA
    evaluation that completes: the line appended to ['record.txt'] lists
    the training metrics under ['train_<k>'], then the test metrics under
    ['test_<k>'], then ['epoch'] and ['n_parameters'], in this order; no
    entry overwrites another. *)
Theorem record_line_of_an_evaluated_epoch C G env su args e st st' ts tst ld :
  train_one_epoch C e = inr ts ->
  data_loader_val env = Some ld ->
  evaluate C (Some ld) Primary (Some e) = inr tst ->
  ema_eval_on args = false ->
  str_truthy (output_dir args) = true ->
  NoDup (map fst ts) -> NoDup (map fst tst) ->
  outcome (epoch_body C G env su args e st) = inr st' ->
  List.filter is_record (events (epoch_body C G env su args e st))
  = [EvRecord (os_path_join (output_dir args) "record.txt")
       (prefixed "train_" "" ts ++ prefixed "test_" "" tst
        ++ [("epoch", JInt e); ("n_parameters", JInt (n_parameters su))])%list].
Proof.
  intros Ht Hld Hev Hema Hdir Hnts Hntst Hout.
  rewrite epoch_body_records, Ht.
  unfold epoch_body in Hout.
  apply outcome_bind_inr in Hout as (_ & _ & Hout).
  apply outcome_bind_inr in Hout as (_ & _ & Hout).
  apply outcome_bind_inr in Hout as (ts' & Hts' & Hout).
  cbn [outcome call snd] in Hts'. rewrite Ht in Hts'. injection Hts' as <-.
  apply outcome_bind_inr in Hout as ([] & Hsp & Hout).
  rewrite Hsp, evaluate_and_record_records, Hdir.
  unfold evaluate_and_record in Hout.
  apply outcome_bind_inr in Hout as (r & Hr & _).
  rewrite Hr. rewrite Hld in Hr.
  assert (Hev' : evaluate C (data_loader_val env) Primary (Some e) = inr tst)
    by now rewrite Hld.
  rewrite (evaluate_branch_entry C G env su args e ts tst st Hev' Hema r Hr).
  now rewrite log_entry_is_a_concatenation.
Qed.

(** Epoch 0 of the example. *)
Lemma record_line_of_an_evaluated_epoch_witness :
  List.filter is_record
    (events (epoch_body (demo_collab demo_acc) patched_globals demo_env
               demo_setup demo_args 0 (initial_state demo_args)))
  = [EvRecord "out/record.txt"
       [("train_loss", JFloat 2); ("test_acc1", JFloat 70);
        ("test_acc5", JFloat 70); ("test_loss", JFloat 1);
        ("epoch", JInt 0); ("n_parameters", JInt 3404)]].
Proof.
  apply (record_line_of_an_evaluated_epoch (demo_collab demo_acc)
           patched_globals demo_env demo_setup demo_args 0
           (initial_state demo_args)
           {| max_accuracy := 70; max_accuracy_ema := None |}
           [("loss", 2%float)] (demo_metrics 70%float)
           {| ld_dataset := Some {| ds_len := 24 |}; ld_batch_size := 12 |}).
  - reflexivity.
  - reflexivity.
  - reflexivity.
  - reflexivity.
  - reflexivity.
  - repeat constructor; rewrite list_elem_of_In; simpl; intuition discriminate.
  - repeat constructor; rewrite list_elem_of_In; simpl; intuition discriminate.
  - vm_compute. reflexivity.
Defined.

(** ** The best-EMA tracker *)

Lemma bind_ret {A B} (a : A) (k : A -> Run B) : bind (ret a) k = k a.
Proof. unfold bind, ret. now destruct (k a). Qed.

Lemma track_best_ema_saves C env args ts st cur a :
  max_accuracy_ema st = Some cur -> dict_get "acc1" ts = Some a ->
  List.filter is_best_ema_save (events (track_best_ema C env args ts st))
  = (if flt cur a && save_enabled args then [EvSaveModel TagBestEma] else [])
  /\ returns (fun st' => max_accuracy_ema st' = Some (fmax cur a)
                         /\ max_accuracy st' = max_accuracy st)
       (track_best_ema C env args ts st).
Proof.
  intros Hcur Ha. unfold track_best_ema, read_local, stat, fmax.
  rewrite Hcur, bind_ret, Ha, bind_ret.
  destruct (flt cur a); cbn [andb].
  - split.
    + rewrite filter_events_bind.
      destruct (save_enabled args); cbn [when].
      * cbn [events call fst List.filter is_best_ema_save app].
        f_equal. destruct (outcome _); [reflexivity |].
        apply filter_never. repeat never_step.
      * cbn [events ret fst outcome snd List.filter app].
        apply filter_never. repeat never_step.
    + eapply returns_bind; [apply returns_trivial |]. intros _ _.
      eapply returns_bind; [apply returns_trivial |]. intros _ _.
      apply returns_ret. split; reflexivity.
  - split; [reflexivity |]. apply returns_ret. split; [exact Hcur | reflexivity].
Qed.

Ltac quiet_step H :=
  rewrite filter_events_bind;
  let Hx := fresh "Hx" in
  apply outcome_bind_inr in H as (? & Hx & H);
  rewrite Hx;
  rewrite filter_never by
    (unfold save_periodic, track_best; repeat never_step);
  cbn [app].

(** Lines 241-253, in an epoch with EMA evaluation that completes: the
    EMA accumulator becomes the larger of its value and the EMA accuracy
    (it is replaced only by a strictly larger one), and a ["best-ema"]
    checkpoint is written exactly when the accuracy is strictly larger and
    checkpoint writing is enabled -- once, and never on a tie or a
    decrease. *)
Theorem best_ema_tracker_step C G env su args e st st' ld tse cur a :
  ema_eval_on args = true ->
  data_loader_val env = Some ld ->
  evaluate C (Some ld) Ema (Some e) = inr tse ->
  dict_get "acc1" tse = Some a ->
  max_accuracy_ema st = Some cur ->
  outcome (epoch_body C G env su args e st) = inr st' ->
  max_accuracy_ema st' = Some (fmax cur a)
  /\ List.filter is_best_ema_save (events (epoch_body C G env su args e st))
     = if flt cur a && save_enabled args then [EvSaveModel TagBestEma] else [].
Proof.
  intros Hema Hld Hev Ha Hcur Hout.
  unfold epoch_body in *.
  do 4 quiet_step Hout.
  unfold evaluate_and_record in *. rewrite Hld in *.
  rewrite filter_events_bind.
  apply outcome_bind_inr in Hout as (r & Hr & Hout). rewrite Hr.
  assert (Hrest : forall y : LoopState * pydict jval,
            List.filter is_best_ema_save
              (events
                 (when (str_truthy (output_dir args))
                    (when_some (log_writer env) (emit (EvTensorboard "flush")) ;;;
                     emit (EvRecord (os_path_join (output_dir args) "record.txt")
                             (snd y))) ;;;
                  when_some (wandb_logger env)
                    (emit (EvWandb "log_epoch_metrics")) ;;;
                  ret (fst y))) = []).
  { intros y. apply filter_never. repeat never_step. }
  rewrite Hrest, app_nil_r.
  assert (Hst' : st' = fst r).
  { apply outcome_bind_inr in Hout as (? & _ & Hout).
    apply outcome_bind_inr in Hout as (? & _ & Hout).
    cbn [outcome ret snd] in Hout. now injection Hout as <-. }
  subst st'. clear Hout Hrest.
  unfold evaluate_branch in *. rewrite Hema, ?Hld in *.
  do 2 quiet_step Hr.
  rewrite filter_events_bind.
  apply outcome_bind_inr in Hr as (st1 & Hst1 & Hr). rewrite Hst1.
  rewrite (filter_never _ (track_best _ _ _ _ _ _ _))
    by apply track_best_only_best.
  cbn [app].
  destruct (track_best_moves_up C G env args e _ st st1 Hst1) as [_ Hema1].
  do 4 quiet_step Hr. cbv iota zeta in Hr. cbv iota zeta.
  quiet_step Hr.
  rewrite filter_events_bind.
  apply outcome_bind_inr in Hr as (tse' & Htse & Hr). rewrite Htse.
  cbn [outcome call snd events fst List.filter is_best_ema_save app] in *.
  rewrite Hev in Htse. injection Htse as <-.
  rewrite filter_events_bind.
  apply outcome_bind_inr in Hr as (st2 & Hst2 & Hr). rewrite Hst2.
  rewrite Hcur in Hema1.
  destruct (track_best_ema_saves C env args tse st1 cur a Hema1 Ha)
    as [Hsaves Hret].
  rewrite Hsaves. destruct (Hret st2 Hst2) as [Hnew _].
  quiet_step Hr. cbn [outcome ret snd events fst List.filter] in *.
  injection Hr as <-. cbn [fst]. split; [exact Hnew |].
  now rewrite app_nil_r.
Qed.

(** The EMA example with an accuracy of 70.0 in its first epoch. *)
Lemma best_ema_tracker_step_witness :
  List.filter is_best_ema_save
    (events (epoch_body (demo_collab demo_acc) patched_globals demo_env
               demo_ema_setup demo_ema_args 0 (initial_state demo_ema_args)))
  = [EvSaveModel TagBestEma].
Proof.
  assert (E : outcome (epoch_body (demo_collab demo_acc) patched_globals
                         demo_env demo_ema_setup demo_ema_args 0
                         (initial_state demo_ema_args))
              = inr {| max_accuracy := 70; max_accuracy_ema := Some 70%float |})
    by (vm_compute; reflexivity).
  exact (proj2 (best_ema_tracker_step (demo_collab demo_acc) patched_globals
                  demo_env demo_ema_setup demo_ema_args 0
                  (initial_state demo_ema_args) _
                  {| ld_dataset := Some {| ds_len := 24 |}; ld_batch_size := 12 |}
                  (demo_metrics 70%float) 0%float 70%float
                  eq_refl eq_refl eq_refl eq_refl eq_refl E)).
Defined.

(** ** C8: foreign weights, as the code loads them *)

Lemma chosen_table_selected lg checkpoint keys :
  exists found,
    outcome (select_model_key (Some lg) checkpoint keys) = inr found
    /\ match found with ENone => ETable checkpoint | v => v end
       = chosen_table keys checkpoint.
Proof.
  eexists. split; [apply select_model_key_spec |].
  unfold chosen_table, nested_table.
  destruct (list_find _ keys) as [[i k] |];
    [destruct (default ENone (checkpoint !! k)) |]; reflexivity.
Qed.

Lemma drop_mismatched_head state k d :
  (forall v, d !! k = Some v -> exists t, v = ETensor t) ->
  (is_Some (d !! k) -> is_Some (state !! k)) ->
  drop_mismatched state k (ETable d) = ret (ETable (drop_head state k d)).
Proof.
  intros Hten Hm. unfold drop_mismatched, drop_head, head_dropped.
  destruct (d !! k) as [v |] eqn:E; [| reflexivity].
  destruct (Hten v eq_refl) as [t ->].
  destruct (Hm (ex_intro _ _ eq_refl)) as [cur Hcur]. rewrite Hcur. simpl.
  destruct (bool_decide _); reflexivity.
Qed.

Lemma load_foreign_weights_run load C lg args m checkpoint d :
  torch_load C (finetune args) = inr checkpoint ->
  chosen_table (py_split "|" (model_key args)) checkpoint = ETable d ->
  (forall k v, k ∈ head_keys -> d !! k = Some v -> exists t, v = ETensor t) ->
  (forall k, k ∈ head_keys -> is_Some (d !! k) -> is_Some (weights m !! k)) ->
  List.filter is_load_state
    (events (load_foreign_weights load C (Some lg) args m))
  = [EvLoadStateDict (ETable (drop_heads (weights m) d)) (model_prefix args)]
  /\ outcome (load_foreign_weights load C (Some lg) args m)
     = match load (weights m) (ETable (drop_heads (weights m) d))
               (model_prefix args) with
       | inr w => inr {| weights := w; numel_trainable := numel_trainable m |}
       | inl x => inl x
       end.
Proof.
  intros Hload Hchosen Hten Hhead.
  destruct (chosen_table_selected lg checkpoint
              (py_split "|" (model_key args))) as (found & Hsel & Hcm).
  rewrite Hchosen in Hcm.
  assert (Hw : drop_mismatched (weights m) "head.weight" (ETable d)
               = ret (ETable (drop_head (weights m) "head.weight" d))).
  { apply drop_mismatched_head.
    - intros v. apply Hten. apply list_elem_of_In. simpl. auto.
    - apply Hhead. apply list_elem_of_In. simpl. auto. }
  assert (Hlk : drop_head (weights m) "head.weight" d !! "head.bias"
                = d !! "head.bias").
  { rewrite drop_head_lookup.
    now rewrite bool_decide_eq_false_2 by discriminate. }
  assert (Hb : drop_mismatched (weights m) "head.bias"
                 (ETable (drop_head (weights m) "head.weight" d))
               = ret (ETable (drop_heads (weights m) d))).
  { apply drop_mismatched_head; rewrite Hlk.
    - intros v. apply Hten. apply list_elem_of_In. simpl. auto.
    - apply Hhead. apply list_elem_of_In. simpl. auto. }
  unfold load_foreign_weights. rewrite Hload. split.
  - rewrite filter_events_bind. cbn [events call fst outcome snd List.filter
                                     is_load_state app].
    rewrite filter_events_bind, Hsel.
    rewrite (filter_never _ (select_model_key _ _ _))
      by (apply select_model_key_quiet; reflexivity).
    cbv zeta. rewrite Hcm, Hw. cbn [app].
    rewrite filter_events_bind. cbn [events ret fst outcome snd List.filter app].
    rewrite Hb.
    rewrite filter_events_bind. cbn [events ret fst outcome snd List.filter app].
    rewrite filter_events_bind.
    cbn [events call fst outcome snd List.filter is_load_state].
    destruct (load _ _ _); reflexivity.
  - rewrite outcome_bind. cbn [outcome call snd].
    rewrite outcome_bind, Hsel. cbv zeta. rewrite Hcm, Hw.
    rewrite outcome_bind. cbn [outcome ret snd]. rewrite Hb.
    rewrite outcome_bind. cbn [outcome ret snd].
    rewrite outcome_bind. cbn [outcome call snd].
    destruct (load _ _ _); reflexivity.
Qed.

(** C8 (counterexample). An artifact that has the preferred key ['model']
    with the value [None]: a key matches, and the claim takes the value
    under the first match as the table, falling back only when no key
    matches. The code (lines 100-101) falls back to the whole artifact:
    that is the table handed to [utils.load_state_dict], and the weight
    at the artifact's top level is transferred. *)
Lemma none_valued_key_uses_whole_artifact :
  let keys := py_split "|" (model_key demo_args) in
  let run := load_foreign_weights utils_load_state_dict
               (demo_collab_with demo_none_backbone demo_acc)
               (Some (mkLogger "out")) demo_args demo_model in
  list_find (fun k => is_Some (demo_none_backbone !! k)) keys
  = Some (0%nat, "model")
  /\ demo_none_backbone !! "model" = Some ENone
  /\ nested_table keys demo_none_backbone = ENone
  /\ events run
     = [EvTorchLoad "backbone.pth"; EvLog (MsgLoadByKey "model");
        EvLoadStateDict (ETable demo_none_backbone) ""]
  /\ exists m', outcome run = inr m'
                /\ weights m' !! "stem.weight"
                   = Some (demo_tensor [4] 1%float).
Proof.
  cbv zeta. split; [vm_compute; reflexivity |].
  split; [vm_compute; reflexivity |].
  split; [vm_compute; reflexivity |].
  split; [vm_compute; reflexivity |].
  eexists. split; [vm_compute; reflexivity | vm_compute; reflexivity].
Qed.

(** C8 (amended). For every loaded weight artifact, in a run that has a
    logger: the weights table is the value under the first preferred key
    (in the configured order) that the artifact has, and the whole
    artifact when it has none of them or when that value is [None]. When
    that table is a dict in which the entries under ['head.weight'] and
    ['head.bias'], if any, are tensors of parameters that the model has,
    exactly the entries under these two keys whose shape differs from the
    model's are removed from it; the table so obtained is handed to
    [utils.load_state_dict], once, with [args.model_prefix], and the load
    ends as that call does. With the empty prefix and no shape mismatch
    outside the head, the load succeeds, a head parameter whose entry was
    removed keeps its initialized value, and every entry that matches a
    parameter in name and shape is transferred. *)
Theorem foreign_weight_loading_amended load C lg args m checkpoint d :
  torch_load C (finetune args) = inr checkpoint ->
  chosen_table (py_split "|" (model_key args)) checkpoint = ETable d ->
  (forall k v, k ∈ head_keys -> d !! k = Some v -> exists t, v = ETensor t) ->
  (forall k, k ∈ head_keys -> is_Some (d !! k) -> is_Some (weights m !! k)) ->
  (List.filter is_load_state
     (events (load_foreign_weights load C (Some lg) args m))
   = [EvLoadStateDict (ETable (drop_heads (weights m) d)) (model_prefix args)]
   /\ outcome (load_foreign_weights load C (Some lg) args m)
      = match load (weights m) (ETable (drop_heads (weights m) d))
                (model_prefix args) with
        | inr w => inr {| weights := w; numel_trainable := numel_trainable m |}
        | inl x => inl x
        end
   /\ forall k, drop_heads (weights m) d !! k
                = if bool_decide (k ∈ head_keys)
                     && head_dropped (weights m) d k
                  then None else d !! k)
  /\ (model_prefix args = "" ->
      (forall k t cur, k ∉ head_keys -> d !! k = Some (ETensor t) ->
                       weights m !! k = Some cur -> shape t = shape cur) ->
      exists m',
        outcome (load_foreign_weights utils_load_state_dict C (Some lg) args m)
        = inr m'
        /\ (forall k t cur, k ∈ head_keys -> d !! k = Some (ETensor t) ->
              weights m !! k = Some cur -> shape t <> shape cur ->
              weights m' !! k = Some cur)
        /\ (forall k t cur, d !! k = Some (ETensor t) ->
              weights m !! k = Some cur -> shape t = shape cur ->
              weights m' !! k = Some t)).
Proof.
  intros Hload Hchosen Hten Hhead. split.
  - destruct (load_foreign_weights_run load C lg args m checkpoint d
                Hload Hchosen Hten Hhead) as [Hev Hout].
    split; [exact Hev |]. split; [exact Hout | apply drop_heads_lookup].
  - intros Hprefix Hok.
    destruct (load_foreign_weights_run utils_load_state_dict C lg args m
                checkpoint d Hload Hchosen Hten Hhead) as [_ Hout].
    destruct (load_without_clash (weights m) (drop_heads (weights m) d)
                (drop_heads_no_clash _ _ Hok)) as (w' & Hw' & Hlook).
    rewrite Hprefix, Hw' in Hout.
    exists {| weights := w'; numel_trainable := numel_trainable m |}.
    split; [exact Hout |]. split.
    + intros k t cur Hk Hd Hcur Hne. simpl. rewrite Hlook, Hcur. simpl.
      unfold loaded_value. rewrite drop_heads_lookup.
      rewrite bool_decide_eq_true_2 by exact Hk. unfold head_dropped.
      rewrite Hd, Hcur. rewrite bool_decide_eq_true_2 by exact Hne.
      reflexivity.
    + intros k t cur Hd Hcur Heq. simpl. rewrite Hlook, Hcur. simpl.
      unfold loaded_value. rewrite drop_heads_lookup. unfold head_dropped.
      rewrite Hd, Hcur.
      rewrite (bool_decide_eq_false_2 (shape t ≠ shape cur))
        by (intros Hne; now apply Hne).
      rewrite andb_false_r. reflexivity.
Qed.

(** The backbone with a 1000-class head, nested under ['model'], loaded
    into the 200-class model: one load, of the table without the two head
    entries; both head parameters keep their initial value, the stem is
    transferred. *)
Lemma foreign_weight_loading_amended_witness :
  List.filter is_load_state
    (events (load_foreign_weights utils_load_state_dict (demo_collab demo_acc)
               (Some (mkLogger "out")) demo_args demo_model))
  = [EvLoadStateDict (ETable (drop_heads (weights demo_model) demo_nested)) ""]
  /\ drop_heads (weights demo_model) demo_nested !! "head.weight" = None
  /\ exists m',
       outcome (load_foreign_weights utils_load_state_dict
                  (demo_collab demo_acc) (Some (mkLogger "out")) demo_args
                  demo_model) = inr m'
       /\ weights m' !! "head.weight" = Some (demo_tensor [200; 16] 0%float)
       /\ weights m' !! "head.bias" = Some (demo_tensor [200] 0%float)
       /\ weights m' !! "stem.weight" = Some (demo_tensor [4] 1%float).
Proof.
  destruct (foreign_weight_loading_amended utils_load_state_dict
              (demo_collab demo_acc) (mkLogger "out") demo_args demo_model
              demo_backbone demo_nested)
    as ((Hev & _ & Hdrop) & Hload).
  - reflexivity.
  - vm_compute. reflexivity.
  - intros k v Hk Hd. apply list_elem_of_In in Hk. simpl in Hk.
    destruct Hk as [<- | [<- | []]]; vm_compute in Hd; injection Hd as <-;
      eexists; reflexivity.
  - intros k Hk _. apply list_elem_of_In in Hk. simpl in Hk.
    destruct Hk as [<- | [<- | []]]; eexists; vm_compute; reflexivity.
  - split; [exact Hev |]. split.
    { rewrite Hdrop. vm_compute. reflexivity. }
    destruct Hload as (m' & Hout & Hkeep & Hmove).
    + reflexivity.
    + intros k t cur Hk Hd Hcur. unfold demo_nested in Hd.
      destruct (decide (k = "stem.weight")) as [-> |].
      * vm_compute in Hd, Hcur. injection Hd as <-. injection Hcur as <-.
        reflexivity.
      * rewrite lookup_insert_ne in Hd by congruence.
        destruct (decide (k = "head.weight")) as [-> |].
        { destruct Hk. apply list_elem_of_In. simpl. auto. }
        rewrite lookup_insert_ne in Hd by congruence.
        destruct (decide (k = "head.bias")) as [-> |].
        { destruct Hk. apply list_elem_of_In. simpl. auto. }
        rewrite lookup_insert_ne in Hd by congruence.
        rewrite lookup_empty in Hd. discriminate.
    + exists m'. split; [exact Hout |]. split; [| split].
      * apply (Hkeep "head.weight" (demo_tensor [1000; 16] 1%float)).
        -- apply list_elem_of_In. simpl. auto.
        -- vm_compute. reflexivity.
        -- vm_compute. reflexivity.
        -- discriminate.
      * apply (Hkeep "head.bias" (demo_tensor [1000] 1%float)).
        -- apply list_elem_of_In. simpl. auto.
        -- vm_compute. reflexivity.
        -- vm_compute. reflexivity.
        -- discriminate.
      * apply (Hmove "stem.weight" (demo_tensor [4] 1%float)
                 (demo_tensor [4] 0%float)).
        -- vm_compute. reflexivity.
        -- vm_compute. reflexivity.
        -- reflexivity.
Defined.
